(** * The account store of the wallet (Vuex module [account])

    A shallow embedding of the account store: its state, its mutations and
    its actions, together with the part of the RxJS operator pipeline and of
    the JavaScript array primitives the store relies on.

    Conventions of the embedding:
    - a JavaScript value that may be [null] or [undefined] is an [option];
    - arrays are lists, and the in-place primitives ([splice], [push]) return
      the mutated array next to their result;
    - [Record<string, T>] objects used as dictionaries are [gmap string T];
    - an [async] action is a function from the world to a settled promise and
      the world it leaves behind; collaborators outside of the store (SDK,
      network, websocket transport, other store modules) are an environment
      [Env] of oracles, and every effect on them is appended to a trace.

    Two smaller components of the wallet follow the store: the repository
    of accounts ([AccountsRepository]) and the view of a namespace
    registration ([ViewNamespaceRegistrationTransaction]); a [Map] is a
    [gmap] there, a method that may throw returns a [Completion], and the
    classes around them are records of collaborators. *)

From Stdlib Require Import ZArith String List Lia DecimalString.
From stdpp Require Import base decidable option list gmap strings.

Local Open Scope string_scope.
Local Open Scope list_scope.

(** ** JavaScript array primitives *)

Module JsArray.

(** [Array.prototype.findIndex]: index of the first element satisfying the
    predicate, [-1] when there is none. *)
Fixpoint findIndex_from {A : Type} (p : A -> bool) (arr : list A) (i : Z) : Z :=
  match arr with
  | [] => (-1)%Z
  | x :: rest => if p x then i else findIndex_from p rest (i + 1)%Z
  end.

Definition findIndex {A : Type} (p : A -> bool) (arr : list A) : Z :=
  findIndex_from p arr 0%Z.

(** [Array.prototype.splice(start, deleteCount)] without inserted items.
    The array is changed in place: the result is the pair of the removed
    elements (what the call returns) and of the array as it is afterwards. *)
Definition splice {A : Type} (arr : list A) (start deleteCount : Z) : list A * list A :=
  let len := Z.of_nat (length arr) in
  let actualStart :=
    if (start <? 0)%Z then Z.max (len + start) 0 else Z.min start len in
  let actualDeleteCount := Z.min (Z.max deleteCount 0) (len - actualStart) in
  let s := Z.to_nat actualStart in
  let d := Z.to_nat actualDeleteCount in
  (firstn d (skipn s arr), firstn s arr ++ skipn (s + d) arr).

(** [Array.prototype.push] *)
Definition push {A : Type} (arr : list A) (x : A) : list A := arr ++ [x].

(** [Array.prototype.find] *)
Definition find {A : Type} (p : A -> bool) (arr : list A) : option A :=
  List.find p arr.

(** lodash [uniqBy]: keeps the first element of every key. *)
Fixpoint uniqBy_seen {A : Type} (key : A -> string) (seen : list string) (arr : list A) : list A :=
  match arr with
  | [] => []
  | x :: rest =>
      if existsb (String.eqb (key x)) seen
      then uniqBy_seen key seen rest
      else x :: uniqBy_seen key (key x :: seen) rest
  end.

Definition uniqBy {A : Type} (arr : list A) (key : A -> string) : list A :=
  uniqBy_seen key [] arr.

End JsArray.

(** ** Data of the SDK and of the wallet *)

(** symbol-sdk [Address]: the plain (unformatted) address and its network. *)
Record Address := mkAddress {
  plain : string;
  address_networkType : Z;
}.

#[global] Instance Address_eq_dec : EqDecision Address.
Proof. solve_decision. Defined.

(** [Address.equals] on an address: same plain address, same network. *)
Definition equals (this other : Address) : bool := bool_decide (this = other).

Record AccountModel := mkAccountModel {
  account_id : string;
  account_name : string;
  account_address : string;
  account_publicKey : string;
}.

Record ProfileModel := mkProfileModel {
  profileName : string;
  accounts : list string;
}.

Record MultisigAccountInfo := mkMultisigAccountInfo {
  multisig_address : Address;
  minApproval : Z;
  minRemoval : Z;
  cosignatoryAddresses : list Address;
  multisigAddresses : list Address;
}.

Record AccountInfo := mkAccountInfo {
  info_address : Address;
  info_publicKey : string;
}.

Record Signer := mkSigner {
  label : string;
  signer_publicKey : string;
  signer_address : Address;
  multisig : bool;
}.

Record Transaction := mkTransaction {
  transaction_type : Z;
  deadline : Z;
}.

Record SignedTransaction := mkSignedTransaction {
  payload : string;
  hash : string;
  signerPublicKey : string;
}.

Record CosignatureSignedTransaction := mkCosignature {
  parentHash : string;
  signature : string;
  cosigner_publicKey : string;
}.

(** [BroadcastResult]: [new BroadcastResult(transaction, success, error?)]. *)
Record BroadcastResult (T : Type) := mkBroadcastResult {
  transaction : T;
  success : bool;
  error : option string;
}.
Arguments mkBroadcastResult {T} _ _ _.
Arguments transaction {T} _.
Arguments success {T} _.
Arguments error {T} _.

(** Handles of the websocket transport: a listener, or one rxjs
    [Subscription] on one of its channels. *)
Definition handle := nat.

Record SubscriptionType := mkSubscriptionType {
  listener : handle;
  sub_subscriptions : list handle;
}.

Record StageOptions := mkStageOptions {
  isAggregate : bool;
  isMultisig : bool;
}.

(** ** The state of the store *)

Record AccountState := mkAccountState {
  initialized : bool;
  currentAccount : option AccountModel;
  currentAccountAddress : option Address;
  currentAccountMultisigInfo : option MultisigAccountInfo;
  isCosignatoryMode : bool;
  signers : list Signer;
  currentSigner : option Signer;
  currentSignerAddress : option Address;
  currentSignerMultisigInfo : option MultisigAccountInfo;
  knownAccounts : list AccountModel;
  knownAddresses : list Address;
  accountsInfo : list AccountInfo;
  multisigAccountsInfo : list MultisigAccountInfo;
  stageOptions : StageOptions;
  stagedTransactions : list Transaction;
  signedTransactions : list SignedTransaction;
  subscriptions : gmap string (list SubscriptionType);
}.

Definition accountState : AccountState := {|
  initialized := false;
  currentAccount := None;
  currentAccountAddress := None;
  currentAccountMultisigInfo := None;
  isCosignatoryMode := false;
  signers := [];
  currentSigner := None;
  currentSignerAddress := None;
  currentSignerMultisigInfo := None;
  knownAccounts := [];
  knownAddresses := [];
  accountsInfo := [];
  multisigAccountsInfo := [];
  stageOptions := {| isAggregate := false; isMultisig := false |};
  stagedTransactions := [];
  signedTransactions := [];
  subscriptions := ∅;
|}.

(** Assignment to one field of the state ([state.f = v], [Vue.set(state, f, v)]). *)
Module Assign.
Definition initialized v (s : AccountState) :=
  let '(mkAccountState _ b c d e f g h i j k l m n o p q) := s in mkAccountState v b c d e f g h i j k l m n o p q.
Definition currentAccount v (s : AccountState) :=
  let '(mkAccountState a _ c d e f g h i j k l m n o p q) := s in mkAccountState a v c d e f g h i j k l m n o p q.
Definition currentAccountAddress v (s : AccountState) :=
  let '(mkAccountState a b _ d e f g h i j k l m n o p q) := s in mkAccountState a b v d e f g h i j k l m n o p q.
Definition currentAccountMultisigInfo v (s : AccountState) :=
  let '(mkAccountState a b c _ e f g h i j k l m n o p q) := s in mkAccountState a b c v e f g h i j k l m n o p q.
Definition isCosignatoryMode v (s : AccountState) :=
  let '(mkAccountState a b c d _ f g h i j k l m n o p q) := s in mkAccountState a b c d v f g h i j k l m n o p q.
Definition signers v (s : AccountState) :=
  let '(mkAccountState a b c d e _ g h i j k l m n o p q) := s in mkAccountState a b c d e v g h i j k l m n o p q.
Definition currentSigner v (s : AccountState) :=
  let '(mkAccountState a b c d e f _ h i j k l m n o p q) := s in mkAccountState a b c d e f v h i j k l m n o p q.
Definition currentSignerAddress v (s : AccountState) :=
  let '(mkAccountState a b c d e f g _ i j k l m n o p q) := s in mkAccountState a b c d e f g v i j k l m n o p q.
Definition currentSignerMultisigInfo v (s : AccountState) :=
  let '(mkAccountState a b c d e f g h _ j k l m n o p q) := s in mkAccountState a b c d e f g h v j k l m n o p q.
Definition knownAccounts v (s : AccountState) :=
  let '(mkAccountState a b c d e f g h i _ k l m n o p q) := s in mkAccountState a b c d e f g h i v k l m n o p q.
Definition knownAddresses v (s : AccountState) :=
  let '(mkAccountState a b c d e f g h i j _ l m n o p q) := s in mkAccountState a b c d e f g h i j v l m n o p q.
Definition accountsInfo v (s : AccountState) :=
  let '(mkAccountState a b c d e f g h i j k _ m n o p q) := s in mkAccountState a b c d e f g h i j k v m n o p q.
Definition multisigAccountsInfo v (s : AccountState) :=
  let '(mkAccountState a b c d e f g h i j k l _ n o p q) := s in mkAccountState a b c d e f g h i j k l v n o p q.
Definition stageOptions v (s : AccountState) :=
  let '(mkAccountState a b c d e f g h i j k l m _ o p q) := s in mkAccountState a b c d e f g h i j k l m v o p q.
Definition stagedTransactions v (s : AccountState) :=
  let '(mkAccountState a b c d e f g h i j k l m n _ p q) := s in mkAccountState a b c d e f g h i j k l m n v p q.
Definition signedTransactions v (s : AccountState) :=
  let '(mkAccountState a b c d e f g h i j k l m n o _ q) := s in mkAccountState a b c d e f g h i j k l m n o v q.
Definition subscriptions v (s : AccountState) :=
  let '(mkAccountState a b c d e f g h i j k l m n o p _) := s in mkAccountState a b c d e f g h i j k l m n o p v.
End Assign.

(** ** Mutations *)

Module mutations.

Definition setInitialized (state : AccountState) (initialized : bool) :=
  Assign.initialized initialized state.
Definition currentAccount (state : AccountState) (accountModel : option AccountModel) :=
  Assign.currentAccount accountModel state.
Definition currentAccountAddress (state : AccountState) (accountAddress : option Address) :=
  Assign.currentAccountAddress accountAddress state.
Definition currentSigner (state : AccountState) (currentSigner : option Signer) :=
  Assign.currentSigner currentSigner state.
Definition signers (state : AccountState) (signers : list Signer) :=
  Assign.signers signers state.
Definition currentSignerAddress (state : AccountState) (signerAddress : option Address) :=
  Assign.currentSignerAddress signerAddress state.
Definition knownAccounts (state : AccountState) (knownAccounts : list AccountModel) :=
  Assign.knownAccounts knownAccounts state.
Definition knownAddresses (state : AccountState) (knownAddresses : list Address) :=
  Assign.knownAddresses knownAddresses state.
Definition isCosignatoryMode (state : AccountState) (isCosignatoryMode : bool) :=
  Assign.isCosignatoryMode isCosignatoryMode state.
Definition accountsInfo (state : AccountState) (accountsInfo : list AccountInfo) :=
  Assign.accountsInfo accountsInfo state.
Definition multisigAccountsInfo (state : AccountState) (multisigAccountsInfo : list MultisigAccountInfo) :=
  Assign.multisigAccountsInfo multisigAccountsInfo state.
Definition currentAccountMultisigInfo (state : AccountState) (info : option MultisigAccountInfo) :=
  Assign.currentAccountMultisigInfo info state.
Definition currentSignerMultisigInfo (state : AccountState) (info : option MultisigAccountInfo) :=
  Assign.currentSignerMultisigInfo info state.

Definition setSubscriptions (state : AccountState) (subs : gmap string (list SubscriptionType)) :=
  Assign.subscriptions subs state.

(** [payload.subscriptions] falsy: unset the subscriptions of the address;
    otherwise append the entry set to the ones already registered. *)
Definition updateSubscriptions (state : AccountState)
    (address : string) (subs : option SubscriptionType) : AccountState :=
  match subs with
  | None => Assign.subscriptions (delete address (subscriptions state)) state
  | Some entry =>
      let oldSubscriptions := default [] (subscriptions state !! address) in
      let newSubscriptions := oldSubscriptions ++ [entry] in
      Assign.subscriptions (<[address := newSubscriptions]> (subscriptions state)) state
  end.

Definition stageOptions (state : AccountState) (options : StageOptions) :=
  Assign.stageOptions options state.
Definition setStagedTransactions (state : AccountState) (transactions : list Transaction) :=
  Assign.stagedTransactions transactions state.
Definition addStagedTransaction (state : AccountState) (transaction : Transaction) :=
  let staged := stagedTransactions state in
  Assign.stagedTransactions (JsArray.push staged transaction) state.
Definition clearStagedTransaction (state : AccountState) :=
  Assign.stagedTransactions [] state.
Definition addSignedTransaction (state : AccountState) (transaction : SignedTransaction) :=
  let signed := signedTransactions state in
  Assign.signedTransactions (JsArray.push signed transaction) state.

(** The array left by the two [splice] calls of [removeSignedTransaction]:
    [signed.splice(0, idx).concat(signed.splice(idx + 1, signed.length - idx - 1))].
    The receiver of [concat] is evaluated first; the second [splice] (and
    its [signed.length]) sees the array as the first one left it. *)
Definition remaining_after_splices (signed : list SignedTransaction) (idx : Z) : list SignedTransaction :=
  let '(head, signed1) := JsArray.splice signed 0 idx in
  let '(tail, _) :=
    JsArray.splice signed1 (idx + 1) (Z.of_nat (length signed1) - idx - 1) in
  head ++ tail.

(** [findIndex] yields a number, so the guard [undefined === idx] of the
    source never holds and has no counterpart here. *)
Definition removeSignedTransaction (state : AccountState) (transaction : SignedTransaction) : AccountState :=
  let signed := signedTransactions state in
  let idx := JsArray.findIndex (fun tx => String.eqb (hash tx) (hash transaction)) signed in
  let remaining := remaining_after_splices signed idx in
  Assign.signedTransactions remaining state.

End mutations.

(** The mutations as data, the way [commit(type, payload)] names them. *)
Module Commit.
Inductive Mutation :=
| setInitialized (initialized : bool)
| currentAccount (accountModel : option AccountModel)
| currentAccountAddress (accountAddress : option Address)
| currentSigner (currentSigner : option Signer)
| signers (signers : list Signer)
| currentSignerAddress (signerAddress : option Address)
| knownAccounts (knownAccounts : list AccountModel)
| knownAddresses (knownAddresses : list Address)
| isCosignatoryMode (isCosignatoryMode : bool)
| accountsInfo (accountsInfo : list AccountInfo)
| multisigAccountsInfo (multisigAccountsInfo : list MultisigAccountInfo)
| currentAccountMultisigInfo (info : option MultisigAccountInfo)
| currentSignerMultisigInfo (info : option MultisigAccountInfo)
| setSubscriptions (subs : gmap string (list SubscriptionType))
| updateSubscriptions (address : string) (subs : option SubscriptionType)
| stageOptions (options : StageOptions)
| setStagedTransactions (transactions : list Transaction)
| addStagedTransaction (transaction : Transaction)
| clearStagedTransaction
| addSignedTransaction (transaction : SignedTransaction)
| removeSignedTransaction (transaction : SignedTransaction).
End Commit.

Definition mutate (m : Commit.Mutation) (state : AccountState) : AccountState :=
  match m with
  | Commit.setInitialized b => mutations.setInitialized state b
  | Commit.currentAccount a => mutations.currentAccount state a
  | Commit.currentAccountAddress a => mutations.currentAccountAddress state a
  | Commit.currentSigner s => mutations.currentSigner state s
  | Commit.signers l => mutations.signers state l
  | Commit.currentSignerAddress a => mutations.currentSignerAddress state a
  | Commit.knownAccounts l => mutations.knownAccounts state l
  | Commit.knownAddresses l => mutations.knownAddresses state l
  | Commit.isCosignatoryMode b => mutations.isCosignatoryMode state b
  | Commit.accountsInfo l => mutations.accountsInfo state l
  | Commit.multisigAccountsInfo l => mutations.multisigAccountsInfo state l
  | Commit.currentAccountMultisigInfo i => mutations.currentAccountMultisigInfo state i
  | Commit.currentSignerMultisigInfo i => mutations.currentSignerMultisigInfo state i
  | Commit.setSubscriptions m => mutations.setSubscriptions state m
  | Commit.updateSubscriptions a s => mutations.updateSubscriptions state a s
  | Commit.stageOptions o => mutations.stageOptions state o
  | Commit.setStagedTransactions l => mutations.setStagedTransactions state l
  | Commit.addStagedTransaction t => mutations.addStagedTransaction state t
  | Commit.clearStagedTransaction => mutations.clearStagedTransaction state
  | Commit.addSignedTransaction t => mutations.addSignedTransaction state t
  | Commit.removeSignedTransaction t => mutations.removeSignedTransaction state t
  end.

(** ** Promises, completions and observables *)

(** The state of the promise an [async] function hands back. *)
Inductive Promise (A : Type) :=
| Fulfilled (a : A)
| Rejected (e : string)
| Pending.
Arguments Fulfilled {A} _.
Arguments Rejected {A} _.
Arguments Pending {A}.

(** The completion of a synchronous call into a collaborator. *)
Inductive Completion (A : Type) :=
| Normal (a : A)
| Throw (e : string).
Arguments Normal {A} _.
Arguments Throw {A} _.

Fixpoint mapCompletion {A B : Type} (f : A -> Completion B) (l : list A) : Completion (list B) :=
  match l with
  | [] => Normal []
  | x :: rest =>
      match f x with
      | Throw e => Throw e
      | Normal y =>
          match mapCompletion f rest with
          | Throw e => Throw e
          | Normal ys => Normal (y :: ys)
          end
      end
  end.

(** [Array.prototype.find] with a predicate that may throw: the first
    element the predicate accepts. The predicate is called on the elements
    in order, up to the one it accepts or the one it throws on. *)
Fixpoint findCompletion {A : Type} (p : A -> Completion bool) (arr : list A)
    : Completion (option A) :=
  match arr with
  | [] => Normal None
  | x :: rest =>
      match p x with
      | Throw e => Throw e
      | Normal true => Normal (Some x)
      | Normal false => findCompletion p rest
      end
  end.

(** RxJS observables as the timed notifications one subscription delivers.
    Every notification carries the delay, in milliseconds, since the one
    before it (since the subscription for the first). Nothing is delivered
    after [Error] or [Complete]; a list that ends without either is a stream
    that stays silent for ever. *)
Module Rx.

Inductive Notification (A : Type) :=
| Next (a : A)
| Error (e : string)
| Complete.
Arguments Next {A} _.
Arguments Error {A} _.
Arguments Complete {A}.

Definition Observable (A : Type) := list (Z * Notification A).

(** [of(a)] ([of] is reserved here): the value, then completion, both
    at once. *)
Definition of_ {A : Type} (a : A) : Observable A :=
  [(0%Z, Next a); (0%Z, Complete)].

(** An observable subscribed to [dt] milliseconds late. *)
Definition delay {A : Type} (dt : Z) (o : Observable A) : Observable A :=
  match o with
  | [] => []
  | (d, n) :: rest => ((dt + d)%Z, n) :: rest
  end.

(** [map(f)] *)
Fixpoint map {A B : Type} (f : A -> B) (source : Observable A) : Observable B :=
  match source with
  | [] => []
  | (dt, Next a) :: rest => (dt, Next (f a)) :: map f rest
  | (dt, Error e) :: _ => [(dt, Error e)]
  | (dt, Complete) :: _ => [(dt, Complete)]
  end.

(** [catchError(selector)]: on error, continue with [selector(error)].
    The result carries the values of the source or those of the
    replacement ([Observable<A | B>]). *)
Fixpoint catchError {A B : Type} (selector : string -> Observable B) (source : Observable A)
    : Observable (A + B) :=
  match source with
  | [] => []
  | (dt, Next a) :: rest => (dt, Next (inl a)) :: catchError selector rest
  | (dt, Error e) :: _ => delay dt (map inr (selector e))
  | (dt, Complete) :: _ => [(dt, Complete)]
  end.

(** [mapTo(b)]: every value becomes [b]. *)
Fixpoint mapTo {A B : Type} (b : B) (source : Observable A) : Observable B :=
  match source with
  | [] => []
  | (dt, Next _) :: rest => (dt, Next b) :: mapTo b rest
  | (dt, Error e) :: _ => [(dt, Error e)]
  | (dt, Complete) :: _ => [(dt, Complete)]
  end.

(** [timeoutWith(due, withObservable)] with a numeric [due]: a timer of
    [due] milliseconds is armed at subscription and armed again at every
    value. When it fires before the next notification the source is
    dropped and [withObservable] takes over. The timer is armed before the
    source can schedule anything, so it wins a tie. *)
Fixpoint timeoutWith {A : Type} (due : Z) (withObservable : Observable A) (source : Observable A) : Observable A :=
  match source with
  | [] => delay due withObservable
  | (dt, n) :: rest =>
      if (dt <? due)%Z then
        match n with
        | Next a => (dt, Next a) :: timeoutWith due withObservable rest
        | Error e => [(dt, Error e)]
        | Complete => [(dt, Complete)]
        end
      else delay due withObservable
  end.

(** [tap(f)]: run the side effect [f] on every value, pass everything on.
    The effect acts on a state [W]; the result is the stream delivered and
    the state after the last effect. *)
Fixpoint tap {A W : Type} (f : A -> W -> W) (source : Observable A) (w : W) : Observable A * W :=
  match source with
  | [] => ([], w)
  | (dt, Next a) :: rest =>
      let '(out, w') := tap f rest (f a w) in ((dt, Next a) :: out, w')
  | (dt, Error e) :: _ => ([(dt, Error e)], w)
  | (dt, Complete) :: _ => ([(dt, Complete)], w)
  end.

(** [toPromise()]: fulfilled on completion with the last value
    ([undefined] when there was none), rejected on error. *)
Fixpoint toPromise_last {A : Type} (last : option A) (source : Observable A) : Promise (option A) :=
  match source with
  | [] => Pending
  | (_, Next a) :: rest => toPromise_last (Some a) rest
  | (_, Error e) :: _ => Rejected e
  | (_, Complete) :: _ => Fulfilled last
  end.

Definition toPromise {A : Type} (source : Observable A) : Promise (option A) :=
  toPromise_last None source.

End Rx.

(** ** The world around the store *)

(** What the store does to its collaborators, in the order it does it. *)
Inductive Event :=
| Committed (m : Commit.Mutation)
| Dispatched (type : string) (args : list string)
| Emitted (event : string) (arg : string)
| OpenedChannels (address : string) (entry : SubscriptionType)
| Unsubscribed (subscription : handle)
| ListenerClosed (l : handle)
| Announced (signedTransaction : SignedTransaction)
| AnnouncedHashLockAggregateBonded (signedLock signedPartial : SignedTransaction)
| AnnouncedCosignature (cosignature : CosignatureSignedTransaction)
| FetchedMultisigGraph (address : option Address)
| FetchedAccountsInfo (addresses : list Address)
| UpdatedName (account : AccountModel) (name : string).

Record World := mkWorld {
  state : AccountState;
  trace : list Event;
  nextHandle : handle;
}.

Definition initialWorld : World :=
  {| state := accountState; trace := []; nextHandle := 0 |}.

(** The collaborators of the store, none of which is part of it: root
    getters of the other store modules, the SDK, the services, the REST
    repositories and the websocket transport. *)
Record Env := mkEnv {
  network_networkType : Z;
  profile_currentProfile : option ProfileModel;
  createFromPublicKey : string -> Z -> Completion Address;
  createFromRawAddress : string -> Completion Address;
  getKnownAccounts : list string -> list AccountModel;
  getKnownAccountsRenamed : AccountModel -> string -> list string -> list AccountModel;
  getSigners : Z -> list AccountModel -> option AccountModel -> option MultisigAccountInfo -> list Signer;
  (* the call may throw before it hands its observable back; the observable,
     mapped and awaited, delivers the multisig information or errors *)
  getMultisigAccountGraphInfo :
    option Address -> Completion (Completion (list MultisigAccountInfo));
  getAccountsInfo : list Address -> Completion (list AccountInfo);
  (* the call may throw; otherwise it hands back the observable of the
     answer of the node *)
  announce : SignedTransaction -> Completion (Rx.Observable string);
  (* the call may throw; the observable it hands back is awaited as it is
     and not looked at *)
  announceAggregateBondedCosignature : CosignatureSignedTransaction -> Completion unit;
  announceHashLockAggregateBonded : SignedTransaction -> SignedTransaction -> Rx.Observable Transaction;
  openChannels : string -> Completion nat;
  closeHandle : handle -> Completion unit;
  AGGREGATE_BROADCAST_TIMEOUT : Z;
}.

(** ** Actions: a state and error monad over the world *)

Definition Action (A : Type) := World -> Promise A * World.

Definition ret {A : Type} (a : A) : Action A := fun w => (Fulfilled a, w).

Definition bind {A B : Type} (m : Action A) (k : A -> Action B) : Action B :=
  fun w =>
    match m w with
    | (Fulfilled a, w') => k a w'
    | (Rejected e, w') => (Rejected e, w')
    | (Pending, w') => (Pending, w')
    end.

Definition throw {A : Type} (e : string) : Action A := fun w => (Rejected e, w).

(** [try { body } catch (e) { handler(e) }] *)
Definition tryCatch {A : Type} (body : Action A) (handler : string -> Action A) : Action A :=
  fun w =>
    match body w with
    | (Rejected e, w') => handler e w'
    | r => r
    end.

Definition getState : Action AccountState := fun w => (Fulfilled (state w), w).

Definition record (ev : Event) (w : World) : World :=
  {| state := state w; trace := trace w ++ [ev]; nextHandle := nextHandle w |}.

Definition emit (ev : Event) : Action unit := fun w => (Fulfilled tt, record ev w).

(** [commit(type, payload)]: apply the mutation. *)
Definition committed (m : Commit.Mutation) (w : World) : World :=
  {| state := mutate m (state w);
     trace := trace w ++ [Committed m];
     nextHandle := nextHandle w |}.

Definition commit (m : Commit.Mutation) : Action unit :=
  fun w => (Fulfilled tt, committed m w).

(** A call into a collaborator that may throw. *)
Definition call {A : Type} (c : Completion A) : Action A :=
  fun w =>
    match c with
    | Normal a => (Fulfilled a, w)
    | Throw e => (Rejected e, w)
    end.

(** [dispatch(type, payload, { root: true })] into another store module. *)
Definition dispatchRoot (type : string) (args : list string) : Action unit :=
  emit (Dispatched type args).

Declare Scope action_scope.
Delimit Scope action_scope with action.
Notation "'let!' x ':=' m 'in' k" := (bind m (fun x => k))
  (at level 10, x name, m at level 100, k at level 200) : action_scope.
Notation "'do!' m 'in' k" := (bind m (fun _ => k))
  (at level 10, m at level 100, k at level 200) : action_scope.

Definition TypeError : string := "TypeError: Cannot read property of null".

(** [this.equals(other)] where [other] comes from a getter that may still be
    [null]: [Address.equals] reads the fields of its argument, and reading a
    field of [null] throws. *)
Definition equalsNullable (this : Address) (other : option Address) : Completion bool :=
  match other with
  | Some a => Normal (equals this a)
  | None => Throw TypeError
  end.
(** [!issuer || issuer.length !== 40] *)
Definition invalidIssuer (issuer : option string) : bool :=
  match issuer with
  | None => true
  | Some i => (String.length i =? 0)%nat || negb (String.length i =? 40)%nat
  end.

Definition timedOut : string := "Aggregate transaction broadcast timed out".

Definition noPublicKey : string :=
  "Public Key must be provided when calling account/SET_CURRENT_SIGNER!".

(** ** Actions *)

Module actions.
Section WithEnv.

Variable env : Env.
Local Open Scope action_scope.

(** Modelled from the spec: [AwaitLock] (module [./AwaitLock], not part of
    the sources at hand) serialises [initialize] and [uninitialize]; in a
    sequential run of the store that is running the callback. *)
Definition Lock_initialize (callback : Action unit) : Action unit := callback.

(** Modelled from the spec: [AwaitLock.uninitialize], as above. *)
Definition Lock_uninitialize (callback : Action unit) : Action unit := callback.

Definition initialize (address : option string) : Action unit :=
  Lock_initialize
    match address with
    | None => ret tt
    | Some a =>
        if (String.length a =? 0)%nat then ret tt
        else commit (Commit.setInitialized true)
    end.

(** *** Websocket API *)

(** Modelled from the spec: [RESTService.subscribeTransactionChannels]
    (module [@/services/RESTService], not part of the sources at hand)
    opens one listener and some number of stream subscriptions for the
    address and yields their handles; every handle it opens is new. *)
Definition subscribeTransactionChannels (plainAddress : string) : Action SubscriptionType :=
  let! streams := call (openChannels env plainAddress) in
  fun w =>
    let l := nextHandle w in
    let entry := {| listener := l; sub_subscriptions := seq (S l) streams |} in
    (Fulfilled entry,
     {| state := state w;
        trace := trace w ++ [OpenedChannels plainAddress entry];
        nextHandle := S l + streams |}).

Definition SUBSCRIBE (address : option Address) : Action unit :=
  match address with
  | None => ret tt
  | Some a =>
      let plainAddress := plain a in
      let! subs := subscribeTransactionChannels plainAddress in
      commit (Commit.updateSubscriptions plainAddress (Some subs))
  end.

(** [for (const subscription of subscriptions) subscription.unsubscribe()] *)
Fixpoint unsubscribeEach (subs : list handle) : Action unit :=
  match subs with
  | [] => ret tt
  | subscription :: rest =>
      do! emit (Unsubscribed subscription) in
      do! call (closeHandle env subscription) in
      unsubscribeEach rest
  end.

(** The outer loop of [UNSUBSCRIBE]: per entry set, the stream
    subscriptions, then [listener.close()]. *)
Fixpoint closeEach (subscriptionTypes : list SubscriptionType) : Action unit :=
  match subscriptionTypes with
  | [] => ret tt
  | subscriptionType :: rest =>
      do! unsubscribeEach (sub_subscriptions subscriptionType) in
      do! emit (ListenerClosed (listener subscriptionType)) in
      do! call (closeHandle env (listener subscriptionType)) in
      closeEach rest
  end.

Definition UNSUBSCRIBE (plainAddress : string) : Action unit :=
  let! s := getState in
  let subscriptionTypes := default [] (subscriptions s !! plainAddress) in
  if (length subscriptionTypes =? 0)%nat then ret tt
  else
    do! closeEach subscriptionTypes in
    commit (Commit.updateSubscriptions plainAddress None).

Definition uninitialize (address : string) : Action unit :=
  Lock_uninitialize
    (do! UNSUBSCRIBE address in
     do! dispatchRoot "transaction/RESET_TRANSACTIONS" [] in
     commit (Commit.setInitialized false)).

(** *** Account information *)

Definition LOAD_ACCOUNT_INFO : Action unit :=
  let networkType := network_networkType env in
  let! s := getState in
  do! emit (FetchedMultisigGraph (currentAccountAddress s)) in
  let! graph := call (getMultisigAccountGraphInfo env (currentAccountAddress s)) in
  (* [catchError(() => of([]))] *)
  let multisigInfos :=
    match graph with
    | Normal l => l
    | Throw _ => []
    end in
  let! accountMultisigInfo :=
    call (findCompletion
            (fun m => equalsNullable (multisig_address m) (currentAccountAddress s))
            multisigInfos) in
  let! signerMultisigInfo :=
    call (findCompletion
            (fun m => equalsNullable (multisig_address m) (currentSignerAddress s))
            multisigInfos) in
  let resolved := getSigners env networkType (knownAccounts s) (currentAccount s) accountMultisigInfo in
  let! accountAddresses :=
    call (mapCompletion (fun w => createFromRawAddress env (account_address w)) (knownAccounts s)) in
  let addresses := JsArray.uniqBy (map signer_address resolved ++ accountAddresses) plain in
  do! commit (Commit.knownAddresses addresses) in
  let! signer :=
    call (findCompletion
            (fun sg => equalsNullable (signer_address sg) (currentSignerAddress s))
            resolved) in
  do! commit (Commit.currentSigner signer) in
  do! commit (Commit.signers resolved) in
  do! commit (Commit.multisigAccountsInfo multisigInfos) in
  do! commit (Commit.currentAccountMultisigInfo accountMultisigInfo) in
  do! commit (Commit.currentSignerMultisigInfo signerMultisigInfo) in
  do! emit (FetchedAccountsInfo addresses) in
  let! infos := call (getAccountsInfo env addresses) in
  commit (Commit.accountsInfo infos).

(** *** Current account and current signer *)

Definition SET_CURRENT_SIGNER (publicKey : string) : Action unit :=
  if (String.length publicKey =? 0)%nat then throw noPublicKey
  else
    let networkType := network_networkType env in
    let currentProfile := profile_currentProfile env in
    let! s := getState in
    let account := currentAccount s in
    let previousSignerAddress := currentSignerAddress s in
    let! signerAddress := call (createFromPublicKey env publicKey networkType) in
    if match previousSignerAddress with
       | Some previous => equals previous signerAddress
       | None => false
       end
    then ret tt
    else
      do! dispatchRoot "diagnostic/ADD_DEBUG"
            ["Store action account/SET_CURRENT_SIGNER dispatched with "; plain signerAddress] in
      do! dispatchRoot "transaction/RESET_TRANSACTIONS" [] in
      let! accountAddress :=
        match account with
        | None => throw TypeError
        | Some a => call (createFromRawAddress env (account_address a))
        end in
      let! known :=
        match currentProfile with
        | None => throw TypeError
        | Some p => ret (getKnownAccounts env (accounts p))
        end in
      do! commit (Commit.currentSignerAddress (Some signerAddress)) in
      do! commit (Commit.currentAccountAddress (Some accountAddress)) in
      do! commit (Commit.isCosignatoryMode (negb (equals signerAddress accountAddress))) in
      do! commit (Commit.knownAccounts known) in
      do! dispatchRoot "namespace/SIGNER_CHANGED" [] in
      do! dispatchRoot "mosaic/SIGNER_CHANGED" [] in
      do! dispatchRoot "transaction/SIGNER_CHANGED" [] in
      do! match previousSignerAddress with
          | Some previous => UNSUBSCRIBE (plain previous)
          | None => ret tt
          end in
      do! SUBSCRIBE (Some signerAddress) in
      do! LOAD_ACCOUNT_INFO in
      do! dispatchRoot "namespace/LOAD_NAMESPACES" [] in
      dispatchRoot "mosaic/LOAD_MOSAICS" [].

Definition SET_CURRENT_ACCOUNT (account : AccountModel) : Action unit :=
  let! s := getState in
  let previous := currentAccount s in
  if match previous with
     | Some p => String.eqb (account_address p) (account_address account)
     | None => false
     end
  then ret tt
  else
    let! accountAddress := call (createFromRawAddress env (account_address account)) in
    do! dispatchRoot "diagnostic/ADD_DEBUG"
          ["Store action account/SET_CURRENT_ACCOUNT dispatched with "; plain accountAddress] in
    do! commit (Commit.currentAccount (Some account)) in
    do! SET_CURRENT_SIGNER (account_publicKey account) in
    do! initialize (Some (plain accountAddress)) in
    emit (Emitted "onAccountChange" (plain accountAddress)).

Definition RESET_CURRENT_ACCOUNT : Action unit :=
  do! dispatchRoot "diagnostic/ADD_DEBUG" ["Store action account/RESET_CURRENT_ACCOUNT dispatched"] in
  do! commit (Commit.currentAccount None) in
  do! commit (Commit.currentAccountAddress None) in
  commit (Commit.currentSignerAddress None).

Definition NETWORK_CHANGED : Action unit :=
  do! dispatchRoot "transaction/RESET_TRANSACTIONS" [] in
  do! dispatchRoot "namespace/RESET_NAMESPACES" [] in
  do! dispatchRoot "mosaic/RESET_MOSAICS" [] in
  do! dispatchRoot "transaction/LOAD_TRANSACTIONS" [] in
  do! LOAD_ACCOUNT_INFO in
  do! dispatchRoot "namespace/LOAD_NAMESPACES" [] in
  do! dispatchRoot "mosaic/LOAD_NETWORK_CURRENCIES" [] in
  dispatchRoot "mosaic/LOAD_MOSAICS" [].

Definition UPDATE_CURRENT_ACCOUNT_NAME (name : string) : Action unit :=
  let! s := getState in
  match currentAccount s with
  | None => ret tt
  | Some account =>
      match profile_currentProfile env with
      | None => ret tt
      | Some profile =>
          do! emit (UpdatedName account name) in
          commit (Commit.knownAccounts (getKnownAccountsRenamed env account name (accounts profile)))
      end
  end.

Definition SET_KNOWN_ACCOUNTS (ids : list string) : Action unit :=
  commit (Commit.knownAccounts (getKnownAccounts env ids)).

(** *** Transaction stage *)

Definition ADD_STAGED_TRANSACTION (stagedTransaction : Transaction) : Action unit :=
  commit (Commit.addStagedTransaction stagedTransaction).
Definition CLEAR_STAGED_TRANSACTIONS : Action unit :=
  commit Commit.clearStagedTransaction.
Definition RESET_TRANSACTION_STAGE : Action unit :=
  commit (Commit.setStagedTransactions []).

(** *** Broadcast *)

(** The operators piped onto the observable of the SDK, up to [tap]. *)
Definition announcePartialPipe (signedPartial : SignedTransaction)
    (source : Rx.Observable Transaction) : Rx.Observable (BroadcastResult SignedTransaction) :=
  Rx.timeoutWith (AGGREGATE_BROADCAST_TIMEOUT env)
    (Rx.of_ (mkBroadcastResult signedPartial false (Some timedOut)))
    (Rx.mapTo (mkBroadcastResult signedPartial true None)
       (Rx.catchError
          (fun error => Rx.of_ (mkBroadcastResult signedPartial false (Some error)))
          source)).

(** The callback of [tap]. *)
Definition removeBoth (signedLock signedPartial : SignedTransaction) (w : World) : World :=
  committed (Commit.removeSignedTransaction signedPartial)
    (committed (Commit.removeSignedTransaction signedLock) w).

Definition REST_ANNOUNCE_PARTIAL (issuer : option string)
    (signedLock signedPartial : SignedTransaction)
    : Action (option (BroadcastResult SignedTransaction)) :=
  if invalidIssuer issuer then ret None
  else
    do! dispatchRoot "diagnostic/ADD_DEBUG"
          ["Store action account/REST_ANNOUNCE_PARTIAL dispatched with: ";
           default "" issuer; hash signedLock; hash signedPartial] in
    do! emit (AnnouncedHashLockAggregateBonded signedLock signedPartial) in
    fun w =>
      let piped :=
        announcePartialPipe signedPartial
          (announceHashLockAggregateBonded env signedLock signedPartial) in
      let '(out, w') := Rx.tap (fun _ => removeBoth signedLock signedPartial) piped w in
      (Rx.toPromise out, w').

(** Errors are carried as their description: [e.toString()] is [e]. The
    observable [announce] hands back is awaited as it is, without
    [toPromise()]: an observable is no promise, so that [await] gives it
    back at once, nothing subscribes to it and what it delivers, a refusal of
    the node included, is not seen. Only a throw of the call itself reaches
    [catch]. *)
Definition REST_ANNOUNCE_TRANSACTION (signedTransaction : SignedTransaction)
    : Action (BroadcastResult SignedTransaction) :=
  do! dispatchRoot "diagnostic/ADD_DEBUG"
        ["Store action account/REST_ANNOUNCE_TRANSACTION dispatched with: ";
         hash signedTransaction; payload signedTransaction] in
  tryCatch
    (do! emit (Announced signedTransaction) in
     do! call (announce env signedTransaction) in
     do! commit (Commit.removeSignedTransaction signedTransaction) in
     ret (mkBroadcastResult signedTransaction true None))
    (fun e =>
       do! commit (Commit.removeSignedTransaction signedTransaction) in
       ret (mkBroadcastResult signedTransaction false (Some e))).

Definition REST_ANNOUNCE_COSIGNATURE (cosignature : CosignatureSignedTransaction)
    : Action (BroadcastResult CosignatureSignedTransaction) :=
  do! dispatchRoot "diagnostic/ADD_DEBUG"
        ["Store action account/REST_ANNOUNCE_COSIGNATURE dispatched with: ";
         parentHash cosignature; signature cosignature; cosigner_publicKey cosignature] in
  tryCatch
    (do! emit (AnnouncedCosignature cosignature) in
     do! call (announceAggregateBondedCosignature env cosignature) in
     ret (mkBroadcastResult cosignature true None))
    (fun e => ret (mkBroadcastResult cosignature false (Some e))).

End WithEnv.
End actions.

(** ** The operations of the store and the states they reach *)

Inductive Operation :=
| Initialize (address : option string)
| Uninitialize (address : string)
| SetCurrentAccount (account : AccountModel)
| ResetCurrentAccount
| SetCurrentSigner (publicKey : string)
| NetworkChanged
| LoadAccountInfo
| UpdateCurrentAccountName (name : string)
| SetKnownAccounts (ids : list string)
| AddStagedTransaction (stagedTransaction : Transaction)
| ClearStagedTransactions
| ResetTransactionStage
| Subscribe (address : option Address)
| Unsubscribe (plainAddress : string)
| RestAnnouncePartial (issuer : option string) (signedLock signedPartial : SignedTransaction)
| RestAnnounceTransaction (signedTransaction : SignedTransaction)
| RestAnnounceCosignature (cosignature : CosignatureSignedTransaction).

(** The world an operation leaves, whether its promise is fulfilled or not. *)
Definition dispatch (env : Env) (op : Operation) (w : World) : World :=
  match op with
  | Initialize address => (actions.initialize address w).2
  | Uninitialize address => (actions.uninitialize env address w).2
  | SetCurrentAccount account => (actions.SET_CURRENT_ACCOUNT env account w).2
  | ResetCurrentAccount => (actions.RESET_CURRENT_ACCOUNT w).2
  | SetCurrentSigner publicKey => (actions.SET_CURRENT_SIGNER env publicKey w).2
  | NetworkChanged => (actions.NETWORK_CHANGED env w).2
  | LoadAccountInfo => (actions.LOAD_ACCOUNT_INFO env w).2
  | UpdateCurrentAccountName name => (actions.UPDATE_CURRENT_ACCOUNT_NAME env name w).2
  | SetKnownAccounts ids => (actions.SET_KNOWN_ACCOUNTS env ids w).2
  | AddStagedTransaction t => (actions.ADD_STAGED_TRANSACTION t w).2
  | ClearStagedTransactions => (actions.CLEAR_STAGED_TRANSACTIONS w).2
  | ResetTransactionStage => (actions.RESET_TRANSACTION_STAGE w).2
  | Subscribe address => (actions.SUBSCRIBE env address w).2
  | Unsubscribe plainAddress => (actions.UNSUBSCRIBE env plainAddress w).2
  | RestAnnouncePartial issuer signedLock signedPartial =>
      (actions.REST_ANNOUNCE_PARTIAL env issuer signedLock signedPartial w).2
  | RestAnnounceTransaction signedTransaction =>
      (actions.REST_ANNOUNCE_TRANSACTION env signedTransaction w).2
  | RestAnnounceCosignature cosignature =>
      (actions.REST_ANNOUNCE_COSIGNATURE env cosignature w).2
  end.

Inductive reachable (env : Env) : World -> Prop :=
| reachable_initial : reachable env initialWorld
| reachable_dispatch op w : reachable env w -> reachable env (dispatch env op w).

(** ** Vocabulary of the properties *)

(** [isCosignatoryMode] is true iff the signer address differs from the
    account address. *)
Definition cosignatoryInvariant (s : AccountState) : Prop :=
  isCosignatoryMode s = true <-> currentSignerAddress s <> currentAccountAddress s.

Definition invariantHolds (w : World) : Prop := cosignatoryInvariant (state w).

(** The mutations that write none of the three fields of the invariant. *)
Definition besideInvariant (m : Commit.Mutation) : Prop :=
  match m with
  | Commit.currentSignerAddress _ | Commit.currentAccountAddress _ | Commit.isCosignatoryMode _ => False
  | _ => True
  end.

(** The mutations that add nothing to the registry of subscriptions. *)
Definition besideRegistry (m : Commit.Mutation) : Prop :=
  match m with
  | Commit.setSubscriptions _ | Commit.updateSubscriptions _ (Some _) => False
  | _ => True
  end.

(** An action keeps a property of the world, however it settles. *)
Definition keeps {A : Type} (P : World -> Prop) (a : Action A) : Prop :=
  forall w, P w -> P (a w).2.

(** The three ways the observable of the SDK can go, seen from the timeout
    [due]: a confirmation followed by completion, an error, or nothing in
    time. Delays are not negative. *)
Definition confirmedWithin (due : Z) (source : Rx.Observable Transaction) : Prop :=
  exists t t' v rest,
    source = (t, Rx.Next v) :: (t', Rx.Complete) :: rest /\ (0 <= t < due)%Z /\ (0 <= t' < due)%Z.

Definition failedWithin (due : Z) (e : string) (source : Rx.Observable Transaction) : Prop :=
  exists t rest, source = (t, Rx.Error e) :: rest /\ (0 <= t < due)%Z.

Definition silentUntil (due : Z) (source : Rx.Observable Transaction) : Prop :=
  source = [] \/ exists t n rest, source = (t, n) :: rest /\ (due <= t)%Z.

(** The world after the two effects that precede the subscription of
    [REST_ANNOUNCE_PARTIAL]. *)
Definition announcing (issuer : option string) (signedLock signedPartial : SignedTransaction)
    (w : World) : World :=
  record (AnnouncedHashLockAggregateBonded signedLock signedPartial)
    (record (Dispatched "diagnostic/ADD_DEBUG"
               ["Store action account/REST_ANNOUNCE_PARTIAL dispatched with: ";
                default "" issuer; hash signedLock; hash signedPartial]) w).

(** The close calls an entry set is due, in the order of [UNSUBSCRIBE]:
    the stream subscriptions, then the listener. *)
Definition closeCallsOf (entry : SubscriptionType) : list Event :=
  map Unsubscribed (sub_subscriptions entry) ++ [ListenerClosed (listener entry)].

Definition closeCalls (entries : list SubscriptionType) : list Event :=
  concat (map closeCallsOf entries).

Definition handlesOf (entry : SubscriptionType) : list handle :=
  sub_subscriptions entry ++ [listener entry].

(** The handle a trace event closes, if it is a close call. *)
Definition closedHandle (ev : Event) : option handle :=
  match ev with
  | Unsubscribed h => Some h
  | ListenerClosed h => Some h
  | _ => None
  end.

Definition closedHandles (t : list Event) : list handle := omap closedHandle t.


Definition appendTrace (events : list Event) (w : World) : World :=
  {| state := state w; trace := trace w ++ events; nextHandle := nextHandle w |}.

(** A close call that goes through. *)
Definition closes (env : Env) (ev : Event) : Prop :=
  forall h, closedHandle ev = Some h -> closeHandle env h = Normal tt.

(** Handles are allotted in increasing order: those in the registry and
    those already closed are below the next one. *)
Definition wellFormed (w : World) : Prop :=
  (forall address entries entry h,
      subscriptions (state w) !! address = Some entries ->
      entry ∈ entries -> h ∈ handlesOf entry -> h < nextHandle w) /\
  (forall h, h ∈ closedHandles (trace w) -> h < nextHandle w).

(** The two loops of [UNSUBSCRIBE] as one run over the close calls. *)
Fixpoint runCalls (env : Env) (calls : list Event) : Action unit :=
  match calls with
  | [] => ret tt
  | ev :: rest =>
      bind (emit ev) (fun _ =>
      bind (match closedHandle ev with
            | Some h => call (closeHandle env h)
            | None => ret tt
            end) (fun _ => runCalls env rest))
  end.

(** Best-effort cleanup, in the words of the claim: whatever happens to a
    close call, every handle registered for the address gets its close call
    and the address leaves the registry. *)
Definition bestEffortCleanup (env : Env) (w : World) (plainAddress : string) : Prop :=
  (forall ev,
      ev ∈ closeCalls (default [] (subscriptions (state w) !! plainAddress)) ->
      ev ∈ trace (actions.UNSUBSCRIBE env plainAddress w).2) /\
  subscriptions (state (actions.UNSUBSCRIBE env plainAddress w).2) !! plainAddress = None.

(** ** Vocabulary of the further properties *)

(** A property of the state, as a property of the world. *)
Definition onState (P : AccountState -> Prop) (w : World) : Prop := P (state w).

(** The mutations [LOAD_ACCOUNT_INFO] commits. *)
Definition infoMutation (m : Commit.Mutation) : Prop :=
  match m with
  | Commit.knownAddresses _ | Commit.currentSigner _ | Commit.signers _
  | Commit.multisigAccountsInfo _ | Commit.currentAccountMultisigInfo _
  | Commit.currentSignerMultisigInfo _ | Commit.accountsInfo _ => True
  | _ => False
  end.

(** Those that follow the four commits of [SET_CURRENT_SIGNER]. *)
Definition lateMutation (m : Commit.Mutation) : Prop :=
  match m with
  | Commit.updateSubscriptions _ _
  | Commit.knownAddresses _ | Commit.currentSigner _ | Commit.signers _
  | Commit.multisigAccountsInfo _ | Commit.currentAccountMultisigInfo _
  | Commit.currentSignerMultisigInfo _ | Commit.accountsInfo _ => True
  | _ => False
  end.

(** All those of [SET_CURRENT_SIGNER]. *)
Definition signerMutation (m : Commit.Mutation) : Prop :=
  match m with
  | Commit.currentSignerAddress _ | Commit.currentAccountAddress _
  | Commit.isCosignatoryMode _ | Commit.knownAccounts _
  | Commit.updateSubscriptions _ _
  | Commit.knownAddresses _ | Commit.currentSigner _ | Commit.signers _
  | Commit.multisigAccountsInfo _ | Commit.currentAccountMultisigInfo _
  | Commit.currentSignerMultisigInfo _ | Commit.accountsInfo _ => True
  | _ => False
  end.

(** All those an action commits: every mutation but [setSubscriptions],
    [stageOptions] and [addSignedTransaction], which only components commit. *)
Definition actionMutation (m : Commit.Mutation) : Prop :=
  match m with
  | Commit.setSubscriptions _ | Commit.stageOptions _ | Commit.addSignedTransaction _ => False
  | _ => True
  end.

(** [SET_CURRENT_SIGNER] from its first commit to its last: the world the
    two dispatches and the four commits make of [w]. *)
Definition signerPrepared (signerAddress accountAddress : Address)
    (known : list AccountModel) (w : World) : World :=
  committed (Commit.knownAccounts known)
    (committed (Commit.isCosignatoryMode (negb (equals signerAddress accountAddress)))
       (committed (Commit.currentAccountAddress (Some accountAddress))
          (committed (Commit.currentSignerAddress (Some signerAddress))
             (record (Dispatched "transaction/RESET_TRANSACTIONS" [])
                (record (Dispatched "diagnostic/ADD_DEBUG"
                           ["Store action account/SET_CURRENT_SIGNER dispatched with ";
                            plain signerAddress]) w))))).

(** [SET_CURRENT_SIGNER] after its commits. *)
Definition signerTail (env : Env) (previousSignerAddress : option Address)
    (signerAddress : Address) : Action unit :=
  bind (dispatchRoot "namespace/SIGNER_CHANGED" []) (fun _ =>
  bind (dispatchRoot "mosaic/SIGNER_CHANGED" []) (fun _ =>
  bind (dispatchRoot "transaction/SIGNER_CHANGED" []) (fun _ =>
  bind (match previousSignerAddress with
        | Some previous => actions.UNSUBSCRIBE env (plain previous)
        | None => ret tt
        end) (fun _ =>
  bind (actions.SUBSCRIBE env (Some signerAddress)) (fun _ =>
  bind (actions.LOAD_ACCOUNT_INFO env) (fun _ =>
  bind (dispatchRoot "namespace/LOAD_NAMESPACES" []) (fun _ =>
  dispatchRoot "mosaic/LOAD_MOSAICS" []))))))).

(** The guard of [SET_CURRENT_ACCOUNT]:
    [previous && previous.address === currentAccount.address]. *)
Definition sameAccount (previous : option AccountModel) (account : AccountModel) : bool :=
  match previous with
  | Some p => String.eqb (account_address p) (account_address account)
  | None => false
  end.

(** [SET_CURRENT_ACCOUNT] up to the commit of the current account. *)
Definition accountPrepared (account : AccountModel) (accountAddress : Address) (w : World) : World :=
  committed (Commit.currentAccount (Some account))
    (record (Dispatched "diagnostic/ADD_DEBUG"
               ["Store action account/SET_CURRENT_ACCOUNT dispatched with ";
                plain accountAddress]) w).

(** [SET_CURRENT_ACCOUNT] after that commit. *)
Definition accountTail (env : Env) (account : AccountModel) (accountAddress : Address) : Action unit :=
  bind (actions.SET_CURRENT_SIGNER env (account_publicKey account)) (fun _ =>
  bind (actions.initialize (Some (plain accountAddress))) (fun _ =>
  emit (Emitted "onAccountChange" (plain accountAddress)))).

(** What the awaited pipe of the multisig graph delivers:
    [catchError(() => of([]))] turns an error of the observable into the
    empty list. *)
Definition delivered (graph : Completion (list MultisigAccountInfo)) : list MultisigAccountInfo :=
  match graph with
  | Normal l => l
  | Throw _ => []
  end.

(** The lookups of [LOAD_ACCOUNT_INFO] by an address that may be [null]. *)
Definition multisigInfoOf (address : option Address) (infos : list MultisigAccountInfo)
    : Completion (option MultisigAccountInfo) :=
  findCompletion (fun m => equalsNullable (multisig_address m) address) infos.

Definition signerOf (address : option Address) (resolved : list Signer)
    : Completion (option Signer) :=
  findCompletion (fun sg => equalsNullable (signer_address sg) address) resolved.

(** The addresses [LOAD_ACCOUNT_INFO] parses from the known accounts. *)
Definition parsedAddresses (env : Env) (s : AccountState) : Completion (list Address) :=
  mapCompletion (fun a => createFromRawAddress env (account_address a)) (knownAccounts s).

(** The world [LOAD_ACCOUNT_INFO] has made of [w] before its first commit
    and after it. *)
Definition graphFetched (w : World) : World :=
  record (FetchedMultisigGraph (currentAccountAddress (state w))) w.

Definition addressesCommitted (addresses : list Address) (w : World) : World :=
  committed (Commit.knownAddresses addresses) (graphFetched w).

(** The world [LOAD_ACCOUNT_INFO] has made of [w] when it fetches the
    accounts information. *)
Definition infoCommitted (addresses : list Address) (signer : option Signer)
    (resolved : list Signer) (infos : list MultisigAccountInfo)
    (accountInfo signerInfo : option MultisigAccountInfo) (w : World) : World :=
  record (FetchedAccountsInfo addresses)
    (committed (Commit.currentSignerMultisigInfo signerInfo)
       (committed (Commit.currentAccountMultisigInfo accountInfo)
          (committed (Commit.multisigAccountsInfo infos)
             (committed (Commit.signers resolved)
                (committed (Commit.currentSigner signer)
                   (addressesCommitted addresses w)))))).

(** The elements of a list that are the first of their key, in the order
    of the list: an element is kept exactly when no element before it has
    its key. *)
Definition firstOfEachKey {A : Type} (key : A -> string) (l : list A) : list A :=
  (filter (fun ia => key ia.2 ∉ key <$> take ia.1 l) (imap pair l)).*2.

(** The registry a fulfilled [UNSUBSCRIBE] of an address leaves: the
    address is unset when it had entry sets; an address without any is left
    as it is. *)
Definition unsubscribed (registry : gmap string (list SubscriptionType)) (plainAddress : string)
    : gmap string (list SubscriptionType) :=
  match registry !! plainAddress with
  | Some (_ :: _) => delete plainAddress registry
  | _ => registry
  end.

(** The registry a fulfilled [SUBSCRIBE] leaves. *)
Definition subscribedWith (registry : gmap string (list SubscriptionType)) (plainAddress : string)
    (entry : SubscriptionType) : gmap string (list SubscriptionType) :=
  <[plainAddress := default [] (registry !! plainAddress) ++ [entry]]> registry.

(** ** The repository of accounts

    [AccountsRepository] keeps the accounts of the wallet in a
    [Map<string, AccountsModel>] and hands the whole map to the storage
    after every change. *)

Module AccountsRepository.

(** An entity of the database, seen through the [values] the repository
    reads and writes. *)
Record AccountsModel (Value : Type) := { values : gmap string Value }.
Arguments values {Value} _.

(** What the repository takes from the classes around it: the identifier of
    a model ([primaryKeys], [hasIdentifier], [getIdentifier]) and the storage
    adapter [persist] writes the collection to, which may fail. *)
Record Database (Value : Type) := {
  primaryKeys : list string;
  hasIdentifier : AccountsModel Value -> bool;
  getIdentifier : AccountsModel Value -> string;
  write : gmap string (AccountsModel Value) -> Completion unit
}.
Arguments primaryKeys {Value} _.
Arguments hasIdentifier {Value} _ _.
Arguments getIdentifier {Value} _ _.
Arguments write {Value} _ _.

(** The repository: its collection and the collections handed to the
    storage so far, oldest first. *)
Record Repository (Value : Type) := {
  _collection : gmap string (AccountsModel Value);
  persisted : list (gmap string (AccountsModel Value))
}.
Arguments _collection {Value} _.
Arguments persisted {Value} _.

Section Methods.
Context {Value : Type}.
Variable db : Database Value.

Definition missingIdentifier : string :=
  "Missing value for mandatory identifier fields '" ++ String.concat ", " (primaryKeys db) ++ "'.".

Definition alreadyExists (identifier : string) : string :=
  "Account with name '" ++ identifier ++ "' already exists.".

Definition doesNotExist (identifier : string) : string :=
  "Account with name '" ++ identifier ++ "' does not exist.".

Definition createModel (values : gmap string Value) : AccountsModel Value :=
  {| values := values |}.

Definition find (identifier : string) (r : Repository Value) : bool :=
  bool_decide (is_Some (_collection r !! identifier)).

Definition collect (r : Repository Value) : gmap string (AccountsModel Value) :=
  _collection r.

(** [this._collection.set(identifier, model)] *)
Definition set (identifier : string) (model : AccountsModel Value) (r : Repository Value)
    : Repository Value :=
  {| _collection := <[identifier := model]> (_collection r); persisted := persisted r |}.

(** [this.persist()]: the collection goes to the storage as it is. *)
Definition persist (r : Repository Value) : Completion unit * Repository Value :=
  (write db (_collection r),
   {| _collection := _collection r; persisted := persisted r ++ [_collection r] |}).

(** The end of [create], [update] and [delete]: persist, then return. *)
Definition persistAndReturn {A : Type} (a : A) (r : Repository Value)
    : Completion A * Repository Value :=
  match persist r with
  | (Normal _, r') => (Normal a, r')
  | (Throw e, r') => (Throw e, r')
  end.

Definition create (values : gmap string Value) (r : Repository Value)
    : Completion string * Repository Value :=
  let mapped := createModel values in
  if negb (hasIdentifier db mapped) then (Throw missingIdentifier, r)
  else
    let identifier := getIdentifier db mapped in
    if find identifier r then (Throw (alreadyExists identifier), r)
    else persistAndReturn identifier (set identifier {| values := values |} r).

(** [find] and [get] look the same key up: the model is there exactly when
    the guard passes. *)
Definition read (identifier : string) (r : Repository Value) : Completion (AccountsModel Value) :=
  match _collection r !! identifier with
  | None => Throw (doesNotExist identifier)
  | Some model => Normal model
  end.

(** The loop of [update]: every key of [values], with the value it is bound
    to, is set in the values of the model. *)
Definition setEach (values : gmap string Value) (previous : AccountsModel Value)
    : AccountsModel Value :=
  {| values := foldl (fun acc '(key, value) => <[key := value]> acc)
                 (AccountsRepository.values previous) (map_to_list values) |}.

Definition update (identifier : string) (values : gmap string Value) (r : Repository Value)
    : Completion (AccountsModel Value) * Repository Value :=
  match read identifier r with
  | Throw e => (Throw e, r)
  | Normal previous =>
      let previous := setEach values previous in
      persistAndReturn previous (set identifier previous r)
  end.

Definition delete (identifier : string) (r : Repository Value)
    : Completion bool * Repository Value :=
  if negb (find identifier r) then (Throw (doesNotExist identifier), r)
  else
    (* [Map.delete] answers whether the key was there *)
    let deleted := bool_decide (is_Some (_collection r !! identifier)) in
    let r' := {| _collection := base.delete identifier (_collection r);
                 persisted := persisted r |} in
    if negb deleted then (Normal false, r')
    else persistAndReturn true r'.

End Methods.

End AccountsRepository.

(** What a method of the repository may do to it: leave it as it was and
    throw, or hand the collection it leaves to the storage as its last
    step. *)
Definition unchangedOrPersisted {Value A : Type} (r : AccountsRepository.Repository Value)
    (run : Completion A * AccountsRepository.Repository Value) : Prop :=
  (run.2 = r /\ exists e, run.1 = Throw e) \/
  AccountsRepository.persisted run.2 =
    AccountsRepository.persisted r ++ [AccountsRepository._collection run.2].

(** ** The view of a namespace registration

    [ViewNamespaceRegistrationTransaction] keeps the fields of a namespace
    registration, read from a form ([parse]) or from a transaction ([use]),
    in a [Map<string, any>] and lists them for display
    ([resolveDetailItems]). *)

Module ViewNamespaceRegistrationTransaction.

Inductive NamespaceRegistrationType := RootNamespace | SubNamespace.

(** [UInt64] of the SDK, as the integer it stands for. *)
Definition UInt64 := Z.

(** The values the view stores; [undefined] is the absence of a value. *)
Inductive FieldValue :=
| Null
| Text (s : string)
| RegistrationType (t : NamespaceRegistrationType)
| Amount (u : UInt64).

Record NamespaceRegistrationFormFieldsType := {
  form_rootNamespaceName : string;
  form_subNamespaceName : option string;
  form_registrationType : NamespaceRegistrationType;
  form_duration : option Z;
  form_maxFee : UInt64
}.

(** [NamespaceRegistrationTransaction] of the SDK; [parentId] is the
    identifier as [toHex] prints it. *)
Record NamespaceRegistrationTransaction := {
  registrationType : NamespaceRegistrationType;
  namespaceName : string;
  duration : option UInt64;
  parentId : option string
}.

Record NamespaceModel := { namespaceIdHex : string; name : option string }.

Record NetworkConfigurationModel := { blockGenerationTargetTime : Z }.

Record TransactionDetailItem := { key : string; value : option FieldValue }.

(** The view: [this.transaction] and [this.values]. *)
Record View := {
  transaction : option NamespaceRegistrationTransaction;
  values : gmap string FieldValue
}.

(** What the view takes from outside: the SDK ([fromUint], [toString]),
    [parseInt], [TimeHelpers.durationToRelativeTime], the [initialize] of the
    base class and the two getters of the store it reads. *)
Record Collaborators := {
  fromUint : Z -> Completion UInt64;
  toString : UInt64 -> string;
  parseInt : string -> Z;
  durationToRelativeTime : Z -> Z -> string;
  initialize : NamespaceRegistrationTransaction -> View -> Completion unit * View;
  namespaces : list NamespaceModel;
  networkConfiguration : option NetworkConfigurationModel
}.

(** [this.values.set(key, value)] *)
Definition set (key : string) (value : FieldValue) (view : View) : View :=
  {| transaction := transaction view; values := <[key := value]> (values view) |}.

(** [name || null] on a string *)
Definition orNull (name : option string) : FieldValue :=
  match name with
  | Some s => if String.eqb s "" then Null else Text s
  | None => Null
  end.

(** Truth of [n.name] *)
Definition named (n : NamespaceModel) : bool :=
  match name n with
  | Some s => negb (String.eqb s "")
  | None => false
  end.

(** The callback of [namespaces.find] in [use]:
    [n.namespaceIdHex === parentId.toHex() && n.name]. It is there, on the
    first namespace it is asked about, that [parentId] is read: a
    transaction without parent throws only when a namespace is known. *)
Definition sameIdAndNamed (parentId : option string) (n : NamespaceModel) : Completion bool :=
  match parentId with
  | None => Throw TypeError
  | Some parentHex => Normal (String.eqb (namespaceIdHex n) parentHex && named n)
  end.

Definition typeNumber (t : NamespaceRegistrationType) : string :=
  match t with
  | RootNamespace => "0"
  | SubNamespace => "1"
  end.

Section Methods.
Variable c : Collaborators.

Definition parse (formItems : NamespaceRegistrationFormFieldsType) (view : View)
    : Completion unit * View :=
  let view := set "rootNamespaceName" (Text (form_rootNamespaceName formItems)) view in
  let view := set "registrationType" (RegistrationType (form_registrationType formItems)) view in
  let view := set "subNamespaceName" (orNull (form_subNamespaceName formItems)) view in
  match
    match form_duration formItems with
    | Some d => if (d =? 0)%Z then Normal Null
                else match fromUint c d with
                     | Normal u => Normal (Amount u)
                     | Throw e => Throw e
                     end
    | None => Normal Null
    end
  with
  | Throw e => (Throw e, view)
  | Normal d =>
      let view := set "duration" d view in
      (Normal tt, set "maxFee" (Amount (form_maxFee formItems)) view)
  end.

(** The end of [use]: the type and the duration of the transaction. *)
Definition useTypeAndDuration (tx : NamespaceRegistrationTransaction) (view : View) : View :=
  let view := set "registrationType" (RegistrationType (registrationType tx)) view in
  set "duration" match duration tx with Some u => Amount u | None => Null end view.

Definition use (tx : NamespaceRegistrationTransaction) (view : View) : Completion unit * View :=
  let view := {| transaction := Some tx; values := values view |} in
  match initialize c tx view with
  | (Throw e, view) => (Throw e, view)
  | (Normal _, view) =>
      match registrationType tx with
      | RootNamespace =>
          (Normal tt, useTypeAndDuration tx (set "rootNamespaceName" (Text (namespaceName tx)) view))
      | SubNamespace =>
          let view := set "subNamespaceName" (Text (namespaceName tx)) view in
          let parentId := parentId tx in
          match findCompletion (sameIdAndNamed parentId) (namespaces c) with
          | Throw e => (Throw e, view)
          | Normal parent =>
              let view :=
                match parent with
                | Some n =>
                    set "rootNamespaceName"
                      match name n with Some s => Text s | None => Null end view
                | None => view
                end in
              (Normal tt, useTypeAndDuration tx view)
          end
      end
  end.

(** [duration.toString()] on whatever the view holds as duration *)
Definition printed (duration : option FieldValue) : Completion string :=
  match duration with
  | None | Some Null => Throw TypeError
  | Some (Text s) => Normal s
  | Some (RegistrationType t) => Normal (typeNumber t)
  | Some (Amount u) => Normal (toString c u)
  end.

Definition resolveDetailItems (view : View) : Completion (list TransactionDetailItem) :=
  let rootNamespaceName := values view !! "rootNamespaceName" in
  let subNamespaceName := values view !! "subNamespaceName" in
  let registrationType := values view !! "registrationType" in
  let duration := values view !! "duration" in
  match networkConfiguration c with
  | None => Throw TypeError
  | Some networkConfiguration =>
      let blockGenerationTargetTime := blockGenerationTargetTime networkConfiguration in
      match registrationType with
      | Some (RegistrationType RootNamespace) =>
          match printed duration with
          | Throw e => Throw e
          | Normal digits =>
              Normal [ {| key := "namespace_name"; value := rootNamespaceName |};
                       {| key := "duration";
                          value := Some (Text (durationToRelativeTime c (parseInt c digits)
                                                 blockGenerationTargetTime)) |} ]
          end
      | _ =>
          Normal [ {| key := "namespace_name"; value := subNamespaceName |};
                   {| key := "parent_namespace"; value := rootNamespaceName |} ]
      end
  end.

End Methods.

End ViewNamespaceRegistrationTransaction.

(** ** Sample data *)

Module Sample.

Definition T1 := mkSignedTransaction "payload-1" "HASH-1" "PK-A".
Definition T2 := mkSignedTransaction "payload-2" "HASH-2" "PK-A".
Definition T3 := mkSignedTransaction "payload-3" "HASH-3" "PK-A".

Definition signedLock := mkSignedTransaction "payload-lock" "HASH-LOCK" "PK-A".
Definition signedPartial := mkSignedTransaction "payload-partial" "HASH-PARTIAL" "PK-A".

(** A forty character issuer. *)
Definition issuer : string := "TAAAAAAAAAAAAAAAAAAAAAAAAAAAAAAAAAAAAAAA".

Definition accountA := mkAccountModel "id-a" "Account A" "TA" "A".
Definition accountB := mkAccountModel "id-b" "Account B" "TB" "B".
Definition addressA := mkAddress "TA" 152.
Definition addressB := mkAddress "TB" 152.

Definition confirmed : Transaction := mkTransaction 16961 0.

Definition withSigned (signed : list SignedTransaction) : World :=
  {| state := Assign.signedTransactions signed accountState; trace := []; nextHandle := 0 |}.

Definition withSubscriptions (subs : gmap string (list SubscriptionType)) (next : handle) : World :=
  {| state := Assign.subscriptions subs accountState; trace := []; nextHandle := next |}.

(** An environment whose network behaviour is given: the observable of the
    aggregate announce, the outcome of a single announce and the outcome of
    closing a handle. Addresses are the public key behind a [T]. *)
Definition env (source : Rx.Observable Transaction)
    (announced : Completion (Rx.Observable string))
    (closing : handle -> Completion unit) : Env :=
  {| network_networkType := 152;
     profile_currentProfile := Some (mkProfileModel "profile" ["id-a"; "id-b"]);
     createFromPublicKey := fun publicKey networkType => Normal (mkAddress ("T" ++ publicKey) networkType);
     createFromRawAddress := fun raw => Normal (mkAddress raw 152);
     getKnownAccounts := fun _ => [accountA; accountB];
     getKnownAccountsRenamed := fun _ _ _ => [accountA; accountB];
     getSigners := fun _ _ account _ =>
       match account with
       | Some a => [mkSigner (account_name a) (account_publicKey a) (mkAddress (account_address a) 152) false]
       | None => []
       end;
     getMultisigAccountGraphInfo := fun _ => Normal (Normal []);
     getAccountsInfo := fun _ => Normal [];
     announce := fun _ => announced;
     announceAggregateBondedCosignature := fun _ => Normal tt;
     announceHashLockAggregateBonded := fun _ _ => source;
     openChannels := fun _ => Normal 2;
     closeHandle := closing;
     AGGREGATE_BROADCAST_TIMEOUT := 25000 |}.

(** The node takes the transaction: the observable of the announce
    delivers its answer and completes. *)
Definition accepted : Completion (Rx.Observable string) :=
  Normal [(150%Z, Rx.Next "packet was pushed to the network"); (0%Z, Rx.Complete)].

Definition quiet : Env := env [] accepted (fun _ => Normal tt).

(** The SDK reports an error a tenth of a second into the announce. *)
Definition failing : Env :=
  env [(100%Z, Rx.Error "Failure_Core_Insufficient_Balance")] accepted (fun _ => Normal tt).

(** The node refuses the single announce: the observable of the announce
    errors a tenth of a second in. *)
Definition refusing : Env :=
  env [] (Normal [(100%Z, Rx.Error "Error: announce refused")]) (fun _ => Normal tt).

(** The call of the single announce itself throws. *)
Definition throwing : Env := env [] (Throw "Error: announce threw") (fun _ => Normal tt).

(** Closing handle [1] throws. *)
Definition stuck : Env :=
  env [] accepted (fun h => if (h =? 1)%nat then Throw "UnsubscriptionError" else Normal tt).

(** One entry set for [TA]: listener [0], streams [1] and [2]. *)
Definition subscribed : World :=
  withSubscriptions {[ "TA" := [mkSubscriptionType 0 [1; 2]] ]} 3.

End Sample.

(** An environment like [Sample.quiet] whose network is down: the fetch of
    the multisig graph and the fetch of the accounts information fail. *)
Definition offline : Env :=
  {| network_networkType := network_networkType Sample.quiet;
     profile_currentProfile := profile_currentProfile Sample.quiet;
     createFromPublicKey := createFromPublicKey Sample.quiet;
     createFromRawAddress := createFromRawAddress Sample.quiet;
     getKnownAccounts := getKnownAccounts Sample.quiet;
     getKnownAccountsRenamed := getKnownAccountsRenamed Sample.quiet;
     getSigners := getSigners Sample.quiet;
     getMultisigAccountGraphInfo := fun _ => Normal (Throw "Error: connect ECONNREFUSED");
     getAccountsInfo := fun _ => Throw "Error: connect ECONNREFUSED";
     announce := announce Sample.quiet;
     announceAggregateBondedCosignature := announceAggregateBondedCosignature Sample.quiet;
     announceHashLockAggregateBonded := announceHashLockAggregateBonded Sample.quiet;
     openChannels := openChannels Sample.quiet;
     closeHandle := closeHandle Sample.quiet;
     AGGREGATE_BROADCAST_TIMEOUT := AGGREGATE_BROADCAST_TIMEOUT Sample.quiet |}.

(** The world after selecting account A: A is the current account and the
    current signer, and accounts A and B are known. *)
Definition selected : World :=
  dispatch Sample.quiet (SetCurrentAccount Sample.accountA) initialWorld.


(** A database of accounts identified by their name, on a storage that
    accepts every write, and a repository that holds the account [alice]. *)
Module SampleAccounts.

Definition byName : AccountsRepository.Database string :=
  {| AccountsRepository.primaryKeys := ["accountName"];
     AccountsRepository.hasIdentifier :=
       fun model => bool_decide (is_Some (AccountsRepository.values model !! "accountName"));
     AccountsRepository.getIdentifier :=
       fun model => default "" (AccountsRepository.values model !! "accountName");
     AccountsRepository.write := fun _ => Normal tt |}.

Definition alice : gmap string string :=
  <["accountName" := "alice"]> (<["hint" := "first"]> ∅).

Definition bob : gmap string string :=
  <["accountName" := "bob"]> (<["hint" := "second"]> ∅).

Definition holdingAlice : AccountsRepository.Repository string :=
  {| AccountsRepository._collection := {["alice" := {| AccountsRepository.values := alice |}]};
     AccountsRepository.persisted := [] |}.

End SampleAccounts.

(** Collaborators of a view on a network with blocks every 15 seconds
    that knows the namespace [symbol], and an empty view. *)
Module SampleView.

Definition collaborators : ViewNamespaceRegistrationTransaction.Collaborators :=
  {| ViewNamespaceRegistrationTransaction.fromUint :=
       fun n => if (n <? 0)%Z then Throw "Error: Unsigned integer cannot be negative"
                else Normal n;
     ViewNamespaceRegistrationTransaction.toString :=
       fun u => NilZero.string_of_int (Z.to_int u);
     ViewNamespaceRegistrationTransaction.parseInt :=
       fun digits => from_option Z.of_int 0%Z (NilZero.int_of_string digits);
     ViewNamespaceRegistrationTransaction.durationToRelativeTime :=
       fun blocks seconds =>
         String.append (NilZero.string_of_int (Z.to_int (blocks * seconds))) " s";
     ViewNamespaceRegistrationTransaction.initialize := fun _ view => (Normal tt, view);
     ViewNamespaceRegistrationTransaction.namespaces :=
       [ {| ViewNamespaceRegistrationTransaction.namespaceIdHex := "A95F1F8A96159516";
            ViewNamespaceRegistrationTransaction.name := Some "symbol" |} ];
     ViewNamespaceRegistrationTransaction.networkConfiguration :=
       Some {| ViewNamespaceRegistrationTransaction.blockGenerationTargetTime := 15 |} |}.

Definition emptyView : ViewNamespaceRegistrationTransaction.View :=
  {| ViewNamespaceRegistrationTransaction.transaction := None;
     ViewNamespaceRegistrationTransaction.values := ∅ |}.

(** The form of the sub-namespace [symbol.xym]. *)
Definition subForm : ViewNamespaceRegistrationTransaction.NamespaceRegistrationFormFieldsType :=
  {| ViewNamespaceRegistrationTransaction.form_rootNamespaceName := "symbol";
     ViewNamespaceRegistrationTransaction.form_subNamespaceName := Some "xym";
     ViewNamespaceRegistrationTransaction.form_registrationType :=
       ViewNamespaceRegistrationTransaction.SubNamespace;
     ViewNamespaceRegistrationTransaction.form_duration := None;
     ViewNamespaceRegistrationTransaction.form_maxFee := 2000000%Z |}.

(** The form of the root namespace [symbol] left without a duration. *)
Definition rootForm : ViewNamespaceRegistrationTransaction.NamespaceRegistrationFormFieldsType :=
  {| ViewNamespaceRegistrationTransaction.form_rootNamespaceName := "symbol";
     ViewNamespaceRegistrationTransaction.form_subNamespaceName := None;
     ViewNamespaceRegistrationTransaction.form_registrationType :=
       ViewNamespaceRegistrationTransaction.RootNamespace;
     ViewNamespaceRegistrationTransaction.form_duration := Some 0%Z;
     ViewNamespaceRegistrationTransaction.form_maxFee := 2000000%Z |}.

(** The registration of [symbol.xym] as a transaction. *)
Definition subTransaction : ViewNamespaceRegistrationTransaction.NamespaceRegistrationTransaction :=
  {| ViewNamespaceRegistrationTransaction.registrationType :=
       ViewNamespaceRegistrationTransaction.SubNamespace;
     ViewNamespaceRegistrationTransaction.namespaceName := "xym";
     ViewNamespaceRegistrationTransaction.duration := None;
     ViewNamespaceRegistrationTransaction.parentId := Some "A95F1F8A96159516" |}.

End SampleView.

(** The world after selecting account A, acting as signer B and resetting
    the current account. *)
Definition afterReset : World :=
  dispatch Sample.quiet ResetCurrentAccount
    (dispatch Sample.quiet (SetCurrentSigner "B")
       (dispatch Sample.quiet (SetCurrentAccount Sample.accountA) initialWorld)).


(** * Properties *)

(** ** Array primitives *)

Section ArrayFacts.

Context {A : Type}.
Implicit Types (arr : list A) (p : A -> bool).

Lemma findIndex_from_none p arr i :
  Forall (fun x => p x = false) arr -> JsArray.findIndex_from p arr i = (-1)%Z.
Proof.
  intros H. revert i. induction H as [|x rest Hx _ IH]; intros i; simpl.
  - reflexivity.
  - rewrite Hx. apply IH.
Qed.

(** A hit: the index of the first element that satisfies the predicate. *)
Lemma findIndex_from_first p before x after i :
  Forall (fun y => p y = false) before -> p x = true ->
  JsArray.findIndex_from p (before ++ x :: after) i = (i + Z.of_nat (length before))%Z.
Proof.
  intros H Hx. revert i. induction H as [|y rest Hy _ IH]; intros i; simpl.
  - rewrite Hx. lia.
  - rewrite Hy, IH. lia.
Qed.

(** [arr.splice(0, i)] within bounds: the first [i] elements go. *)
Lemma splice_head arr (i : nat) :
  i <= length arr ->
  JsArray.splice arr 0 (Z.of_nat i) = (take i arr, drop i arr).
Proof.
  intros Hi. unfold JsArray.splice.
  destruct (Z.ltb_spec 0 0) as [Hlt|_]; [lia|].
  replace (Z.to_nat (Z.min 0 (Z.of_nat (length arr)))) with 0 by lia.
  match goal with |- context [take (Z.to_nat ?z) _] => replace (Z.to_nat z) with i by lia end.
  rewrite drop_0, take_0. reflexivity.
Qed.

(** [arr.splice(0, deleteCount)] with nothing to delete. *)
Lemma splice_nothing arr (deleteCount : Z) :
  (deleteCount <= 0)%Z ->
  JsArray.splice arr 0 deleteCount = ([], arr).
Proof.
  intros Hd. unfold JsArray.splice.
  destruct (Z.ltb_spec 0 0) as [Hlt|_]; [lia|].
  replace (Z.to_nat (Z.min 0 (Z.of_nat (length arr)))) with 0 by lia.
  match goal with |- context [take (Z.to_nat ?z) _] => replace (Z.to_nat z) with 0 by lia end.
  rewrite drop_0, take_0. reflexivity.
Qed.

(** [arr.splice(i + 1, arr.length - i - 1)]: everything after position
    [i] goes, also when there is nothing there. *)
Lemma splice_tail arr (i : nat) :
  JsArray.splice arr (Z.of_nat i + 1) (Z.of_nat (length arr) - Z.of_nat i - 1) =
    (drop (i + 1) arr, take (i + 1) arr).
Proof.
  unfold JsArray.splice.
  destruct (Z.ltb_spec (Z.of_nat i + 1) 0) as [Hlt|_]; [lia|].
  destruct (decide (i + 1 <= length arr)) as [Hle|Hgt].
  - replace (Z.to_nat (Z.min (Z.of_nat i + 1) (Z.of_nat (length arr)))) with (i + 1) by lia.
    match goal with |- context [take (Z.to_nat ?z) _] =>
      replace (Z.to_nat z) with (length arr - (i + 1)) by lia end.
    rewrite (take_ge (drop (i + 1) arr)) by (rewrite length_drop; lia).
    rewrite (drop_ge arr (i + 1 + _)) by lia.
    rewrite app_nil_r. reflexivity.
  - replace (Z.to_nat (Z.min (Z.of_nat i + 1) (Z.of_nat (length arr)))) with (length arr) by lia.
    match goal with |- context [take (Z.to_nat ?z) (drop _ _)] =>
      replace (Z.to_nat z) with 0 by lia end.
    rewrite take_0, (drop_ge arr (i + 1)) by lia.
    rewrite (drop_ge arr (length arr + 0)) by lia.
    rewrite app_nil_r, (take_ge arr (length arr)), (take_ge arr (i + 1)) by lia.
    reflexivity.
Qed.

End ArrayFacts.

(** ** removeSignedTransaction *)

Section Removal.

Implicit Types (signed : list SignedTransaction) (tx transaction : SignedTransaction).

(** Without a hit ([idx = -1]) the first [splice] removes nothing and the
    second one hands back the whole array. *)
Lemma remaining_no_hit signed :
  mutations.remaining_after_splices signed (-1) = signed.
Proof.
  unfold mutations.remaining_after_splices.
  rewrite splice_nothing by lia.
  replace (-1 + 1)%Z with 0%Z by lia.
  replace (Z.of_nat (length signed) - -1 - 1)%Z with (Z.of_nat (length signed)) by lia.
  rewrite splice_head by lia.
  rewrite take_ge by lia. reflexivity.
Qed.

(** With a hit at [i] the first [splice] shortens the array by [i]
    elements, so that the second one starts [i] elements too far: what is
    left is the elements before [i] and those from [2 * i + 1] on. *)
Lemma remaining_hit signed (i : nat) :
  i <= length signed ->
  mutations.remaining_after_splices signed (Z.of_nat i) =
    take i signed ++ drop (2 * i + 1) signed.
Proof.
  intros Hi. unfold mutations.remaining_after_splices.
  rewrite splice_head by lia.
  rewrite splice_tail.
  rewrite drop_drop. f_equal. f_equal. lia.
Qed.

Lemma signedTransactions_assign l state :
  signedTransactions (Assign.signedTransactions l state) = l.
Proof. destruct state. reflexivity. Qed.

Lemma assign_signedTransactions_same state :
  Assign.signedTransactions (signedTransactions state) state = state.
Proof. destruct state. reflexivity. Qed.

(** What the mutation leaves when the first entry with the hash of
    [transaction] is at position [length before]. *)
Lemma removeSignedTransaction_hit state transaction before tx after :
  signedTransactions state = before ++ tx :: after ->
  Forall (fun t => hash t <> hash transaction) before ->
  hash tx = hash transaction ->
  signedTransactions (mutations.removeSignedTransaction state transaction) =
    before ++ drop (length before) after.
Proof.
  intros Hs Hb Hx. unfold mutations.removeSignedTransaction.
  rewrite signedTransactions_assign, Hs.
  unfold JsArray.findIndex.
  rewrite findIndex_from_first.
  - rewrite Z.add_0_l, remaining_hit by (rewrite length_app; simpl; lia).
    rewrite take_app_length. f_equal.
    replace (2 * length before + 1) with (length before + (S (length before))) by lia.
    rewrite <- drop_drop, drop_app_length. reflexivity.
  - eapply Forall_impl; [exact Hb|]. intros t Ht. simpl.
    apply String.eqb_neq. exact Ht.
  - apply String.eqb_eq. exact Hx.
Qed.

(** The removal is the one asked for when the hit is the first entry. *)
Lemma removeSignedTransaction_first state transaction tx after :
  signedTransactions state = tx :: after ->
  hash tx = hash transaction ->
  signedTransactions (mutations.removeSignedTransaction state transaction) = after.
Proof.
  intros Hs Hx.
  rewrite (removeSignedTransaction_hit state transaction [] tx after Hs (List.Forall_nil _) Hx).
  apply drop_0.
Qed.

Lemma removeSignedTransaction_no_hit state transaction :
  Forall (fun t => hash t <> hash transaction) (signedTransactions state) ->
  mutations.removeSignedTransaction state transaction = state.
Proof.
  intros H. unfold mutations.removeSignedTransaction, JsArray.findIndex.
  rewrite findIndex_from_none.
  - rewrite remaining_no_hit. apply assign_signedTransactions_same.
  - eapply Forall_impl; [exact H|]. intros t Ht. simpl.
    apply String.eqb_neq. exact Ht.
Qed.

End Removal.

(** ** Removal and the hashes of the signed transactions *)

Section RemovalOfHashes.

Implicit Types (signed : list SignedTransaction) (transaction : SignedTransaction).

(** Either no entry carries the hash, or there is a first one. *)
Lemma first_hit signed (h : string) :
  Forall (fun t => hash t <> h) signed \/
  exists before tx after,
    signed = before ++ tx :: after /\ Forall (fun t => hash t <> h) before /\ hash tx = h.
Proof.
  induction signed as [|t rest IH].
  - left. constructor.
  - destruct (decide (hash t = h)) as [Heq|Hne].
    + right. exists [], t, rest. split; [reflexivity|]. split; [constructor|exact Heq].
    + destruct IH as [IH|(before & tx & after & -> & Hb & Hx)].
      * left. constructor; assumption.
      * right. exists (t :: before), tx, after.
        split; [reflexivity|]. split; [constructor; assumption|exact Hx].
Qed.

Lemma removeSignedTransaction_sublist state transaction :
  signedTransactions (mutations.removeSignedTransaction state transaction)
    `sublist_of` signedTransactions state.
Proof.
  destruct (first_hit (signedTransactions state) (hash transaction))
    as [Hno|(before & tx & after & Hs & Hb & Hx)].
  - rewrite removeSignedTransaction_no_hit by exact Hno. reflexivity.
  - rewrite (removeSignedTransaction_hit state transaction before tx after Hs Hb Hx), Hs.
    apply sublist_app; [reflexivity|].
    apply sublist_cons, sublist_drop.
Qed.

Lemma sublist_hashes signed1 signed2 :
  signed1 `sublist_of` signed2 -> (hash <$> signed1) `sublist_of` (hash <$> signed2).
Proof. induction 1; simpl; constructor; assumption. Qed.

(** With hashes that identify the entries, the hash is gone afterwards. *)
Lemma removeSignedTransaction_absent state transaction :
  NoDup (hash <$> signedTransactions state) ->
  Forall (fun t => hash t <> hash transaction)
    (signedTransactions (mutations.removeSignedTransaction state transaction)).
Proof.
  intros Hnd.
  destruct (first_hit (signedTransactions state) (hash transaction))
    as [Hno|(before & tx & after & Hs & Hb & Hx)].
  - rewrite removeSignedTransaction_no_hit by exact Hno. exact Hno.
  - rewrite (removeSignedTransaction_hit state transaction before tx after Hs Hb Hx).
    rewrite Hs, fmap_app, fmap_cons in Hnd.
    apply NoDup_app in Hnd. destruct Hnd as (_ & _ & Hnd).
    apply NoDup_cons in Hnd. destruct Hnd as [Hnotin _].
    apply Forall_app. split; [exact Hb|].
    apply Forall_forall. intros t Ht Heq. apply Hnotin.
    rewrite Hx, <- Heq. apply list_elem_of_fmap_2.
    eapply elem_of_sublist; [exact Ht|apply sublist_drop].
Qed.

(** Both removals of the aggregate announce, one after the other. *)
Lemma removeBoth_absent state signedLock signedPartial :
  NoDup (hash <$> signedTransactions state) ->
  Forall (fun t => hash t <> hash signedLock /\ hash t <> hash signedPartial)
    (signedTransactions
       (mutations.removeSignedTransaction
          (mutations.removeSignedTransaction state signedLock) signedPartial)).
Proof.
  intros Hnd.
  pose proof (removeSignedTransaction_absent state signedLock Hnd) as Hlock.
  pose proof (removeSignedTransaction_sublist state signedLock) as Hsub1.
  set (state1 := mutations.removeSignedTransaction state signedLock) in *.
  assert (Hnd1 : NoDup (hash <$> signedTransactions state1)).
  { eapply sublist_NoDup; [exact Hnd|apply sublist_hashes, Hsub1]. }
  pose proof (removeSignedTransaction_absent state1 signedPartial Hnd1) as Hpartial.
  pose proof (removeSignedTransaction_sublist state1 signedPartial) as Hsub2.
  apply Forall_forall. intros t Ht. split.
  - rewrite Forall_forall in Hlock. apply Hlock.
    eapply elem_of_sublist; [exact Ht|exact Hsub2].
  - rewrite Forall_forall in Hpartial. apply Hpartial. exact Ht.
Qed.

End RemovalOfHashes.

(** ** The aggregate announce *)

Section AggregateAnnounce.

Variable env : Env.
Implicit Types (w : World) (signedLock signedPartial : SignedTransaction).

Let due := AGGREGATE_BROADCAST_TIMEOUT env.

Lemma pipe_confirmed signedPartial source :
  confirmedWithin due source ->
  exists t t',
    actions.announcePartialPipe env signedPartial source =
      [(t, Rx.Next (mkBroadcastResult signedPartial true None)); (t', Rx.Complete)].
Proof.
  intros (t & t' & v & rest & -> & Ht & Ht'). exists t, t'.
  unfold actions.announcePartialPipe. simpl. fold due.
  destruct (Z.ltb_spec t due); [|lia].
  destruct (Z.ltb_spec t' due); [|lia]. reflexivity.
Qed.

(** The replacement emitted by [catchError] passes through [mapTo] like
    any other value. *)
Lemma pipe_failed signedPartial source e :
  failedWithin due e source ->
  exists t t',
    actions.announcePartialPipe env signedPartial source =
      [(t, Rx.Next (mkBroadcastResult signedPartial true None)); (t', Rx.Complete)].
Proof.
  intros (t & rest & -> & Ht). exists (t + 0)%Z, 0%Z.
  unfold actions.announcePartialPipe. simpl. fold due.
  destruct (Z.ltb_spec (t + 0) due); [|lia].
  destruct (Z.ltb_spec 0 due); [|lia]. reflexivity.
Qed.

Lemma pipe_silent signedPartial source :
  silentUntil due source ->
  exists t t',
    actions.announcePartialPipe env signedPartial source =
      [(t, Rx.Next (mkBroadcastResult signedPartial false (Some timedOut))); (t', Rx.Complete)].
Proof.
  intros H. exists (due + 0)%Z, 0%Z.
  unfold actions.announcePartialPipe. fold due.
  destruct H as [->|(t & n & rest & -> & Ht)]; [reflexivity|].
  destruct n as [v|e|]; simpl.
  - destruct (Z.ltb_spec t due); [lia|]. reflexivity.
  - destruct (Z.ltb_spec (t + 0) due); [lia|]. reflexivity.
  - destruct (Z.ltb_spec t due); [lia|]. reflexivity.
Qed.

(** One value, then completion: [tap] runs once and the promise is
    fulfilled with that value. *)
Lemma REST_ANNOUNCE_PARTIAL_single issuer signedLock signedPartial w t t' result :
  invalidIssuer issuer = false ->
  actions.announcePartialPipe env signedPartial
    (announceHashLockAggregateBonded env signedLock signedPartial) =
    [(t, Rx.Next result); (t', Rx.Complete)] ->
  actions.REST_ANNOUNCE_PARTIAL env issuer signedLock signedPartial w =
    (Fulfilled (Some result),
     actions.removeBoth signedLock signedPartial (announcing issuer signedLock signedPartial w)).
Proof.
  intros Hi Hp. unfold actions.REST_ANNOUNCE_PARTIAL. rewrite Hi.
  unfold bind, dispatchRoot, emit. rewrite Hp. reflexivity.
Qed.

(** What the promise holds in each of the three outcomes: the error
    outcome is told apart from the timeout, not from the confirmation. *)
Lemma REST_ANNOUNCE_PARTIAL_results issuer signedLock signedPartial w :
  invalidIssuer issuer = false ->
  (confirmedWithin due (announceHashLockAggregateBonded env signedLock signedPartial) ->
   (actions.REST_ANNOUNCE_PARTIAL env issuer signedLock signedPartial w).1 =
     Fulfilled (Some (mkBroadcastResult signedPartial true None))) /\
  (forall e,
     failedWithin due e (announceHashLockAggregateBonded env signedLock signedPartial) ->
     (actions.REST_ANNOUNCE_PARTIAL env issuer signedLock signedPartial w).1 =
       Fulfilled (Some (mkBroadcastResult signedPartial true None))) /\
  (silentUntil due (announceHashLockAggregateBonded env signedLock signedPartial) ->
   (actions.REST_ANNOUNCE_PARTIAL env issuer signedLock signedPartial w).1 =
     Fulfilled (Some (mkBroadcastResult signedPartial false (Some timedOut)))).
Proof.
  intros Hi. split; [|split].
  - intros H. destruct (pipe_confirmed signedPartial _ H) as (t & t' & Hp).
    rewrite (REST_ANNOUNCE_PARTIAL_single _ _ _ w _ _ _ Hi Hp). reflexivity.
  - intros e H. destruct (pipe_failed signedPartial _ e H) as (t & t' & Hp).
    rewrite (REST_ANNOUNCE_PARTIAL_single _ _ _ w _ _ _ Hi Hp). reflexivity.
  - intros H. destruct (pipe_silent signedPartial _ H) as (t & t' & Hp).
    rewrite (REST_ANNOUNCE_PARTIAL_single _ _ _ w _ _ _ Hi Hp). reflexivity.
Qed.

Lemma REST_ANNOUNCE_PARTIAL_guard issuer signedLock signedPartial w :
  invalidIssuer issuer = true ->
  actions.REST_ANNOUNCE_PARTIAL env issuer signedLock signedPartial w = (Fulfilled None, w).
Proof. intros Hi. unfold actions.REST_ANNOUNCE_PARTIAL. rewrite Hi. reflexivity. Qed.

Lemma removeBoth_state signedLock signedPartial w :
  state (actions.removeBoth signedLock signedPartial w) =
    mutations.removeSignedTransaction
      (mutations.removeSignedTransaction (state w) signedLock) signedPartial.
Proof. reflexivity. Qed.

Lemma removeBoth_trace signedLock signedPartial w :
  trace (actions.removeBoth signedLock signedPartial w) =
    trace w ++ [Committed (Commit.removeSignedTransaction signedLock);
                Committed (Commit.removeSignedTransaction signedPartial)].
Proof. unfold actions.removeBoth, committed. simpl. rewrite <- app_assoc. reflexivity. Qed.

End AggregateAnnounce.

Lemma invalidIssuer_spec (issuer : option string) :
  invalidIssuer issuer = true <->
  issuer = None \/ exists i, issuer = Some i /\ String.length i <> 40.
Proof.
  unfold invalidIssuer. destruct issuer as [i|].
  - split.
    + intros H. right. exists i. split; [reflexivity|].
      destruct (Nat.eqb_spec (String.length i) 0) as [H0|H0]; [lia|].
      destruct (Nat.eqb_spec (String.length i) 40) as [H40|H40]; [discriminate|exact H40].
    + intros [H|(j & Hj & Hlen)]; [discriminate|]. injection Hj as <-.
      destruct (Nat.eqb_spec (String.length i) 40) as [H40|H40]; [contradiction|].
      apply orb_true_r.
  - split; [left; reflexivity|reflexivity].
Qed.

(** ** Subscriptions *)

Section Subscriptions.

Variable env : Env.
Implicit Types (w : World) (entries : list SubscriptionType) (calls : list Event).

Lemma runCalls_app calls1 calls2 w :
  runCalls env (calls1 ++ calls2) w = bind (runCalls env calls1) (fun _ => runCalls env calls2) w.
Proof.
  revert w. induction calls1 as [|ev rest IH]; intros w; simpl.
  - reflexivity.
  - unfold bind. simpl.
    destruct (closedHandle ev) as [h|]; simpl.
    + destruct (closeHandle env h) as [u|e]; simpl; [|reflexivity].
      rewrite IH. reflexivity.
    + rewrite IH. reflexivity.
Qed.

Lemma unsubscribeEach_runCalls subs w :
  actions.unsubscribeEach env subs w = runCalls env (map Unsubscribed subs) w.
Proof.
  revert w. induction subs as [|h rest IH]; intros w; simpl.
  - reflexivity.
  - unfold bind. simpl. destruct (closeHandle env h) as [u|e]; simpl; [|reflexivity].
    apply IH.
Qed.

Lemma closeEach_runCalls entries w :
  actions.closeEach env entries w = runCalls env (closeCalls entries) w.
Proof.
  revert w. induction entries as [|entry rest IH]; intros w.
  - reflexivity.
  - unfold closeCalls. simpl. fold (closeCalls rest).
    unfold closeCallsOf. rewrite <- app_assoc, runCalls_app.
    unfold bind. rewrite unsubscribeEach_runCalls.
    destruct (runCalls env (map Unsubscribed (sub_subscriptions entry)) w) as [[u|e|] w'];
      try reflexivity.
    simpl. unfold bind. simpl.
    destruct (closeHandle env (listener entry)) as [u'|e']; simpl; [|reflexivity].
    apply IH.
Qed.

Lemma appendTrace_record ev events w :
  appendTrace events (record ev w) = appendTrace (ev :: events) w.
Proof. unfold appendTrace, record. simpl. rewrite <- app_assoc. reflexivity. Qed.

Lemma appendTrace_nil w : appendTrace [] w = w.
Proof. destruct w. unfold appendTrace. simpl. rewrite app_nil_r. reflexivity. Qed.

(** Every call goes through: the whole list is run. *)
Lemma runCalls_ok calls w :
  Forall (closes env) calls ->
  runCalls env calls w = (Fulfilled tt, appendTrace calls w).
Proof.
  intros H. revert w. induction H as [|ev rest Hev _ IH]; intros w; simpl.
  - rewrite appendTrace_nil. reflexivity.
  - unfold bind. simpl. unfold closes in Hev.
    destruct (closedHandle ev) as [h|].
    + rewrite (Hev h eq_refl). simpl. rewrite IH, appendTrace_record. reflexivity.
    + simpl. rewrite IH, appendTrace_record. reflexivity.
Qed.

(** The first call that throws ends the run: it is the last one made. *)
Lemma runCalls_throw calls1 ev calls2 h e w :
  Forall (closes env) calls1 ->
  closedHandle ev = Some h -> closeHandle env h = Throw e ->
  runCalls env (calls1 ++ ev :: calls2) w = (Rejected e, appendTrace (calls1 ++ [ev]) w).
Proof.
  intros H1 Hh He. rewrite runCalls_app. unfold bind at 1.
  rewrite runCalls_ok by exact H1. simpl. unfold bind. simpl.
  rewrite Hh, He. simpl.
  unfold appendTrace, record. simpl. rewrite <- app_assoc. reflexivity.
Qed.

(** A fulfilled run made every call. *)
Lemma runCalls_fulfilled calls w u w' :
  runCalls env calls w = (Fulfilled u, w') -> w' = appendTrace calls w.
Proof.
  revert w. induction calls as [|ev rest IH]; intros w; simpl.
  - intros [= _ <-]. rewrite appendTrace_nil. reflexivity.
  - unfold bind. simpl.
    destruct (closedHandle ev) as [h|].
    + destruct (closeHandle env h) as [[]|e]; simpl; [|discriminate].
      intros H. apply IH in H. rewrite H. apply appendTrace_record.
    + simpl. intros H. apply IH in H. rewrite H. apply appendTrace_record.
Qed.

Lemma subscriptions_assign v s : subscriptions (Assign.subscriptions v s) = v.
Proof. destruct s. reflexivity. Qed.

Lemma closedHandles_closeCallsOf entry :
  closedHandles (closeCallsOf entry) = handlesOf entry.
Proof.
  unfold closedHandles, closeCallsOf, handlesOf. rewrite omap_app. simpl. f_equal.
  induction (sub_subscriptions entry) as [|h rest IH]; simpl; [reflexivity|].
  f_equal. exact IH.
Qed.

Lemma closedHandles_closeCalls entries h :
  h ∈ closedHandles (closeCalls entries) ->
  exists entry, entry ∈ entries /\ h ∈ handlesOf entry.
Proof.
  induction entries as [|entry rest IH]; unfold closeCalls; simpl.
  - intros H. inversion H.
  - fold (closeCalls rest). unfold closedHandles. rewrite omap_app.
    fold (closedHandles (closeCallsOf entry)). fold (closedHandles (closeCalls rest)).
    rewrite closedHandles_closeCallsOf, elem_of_app.
    intros [H|H].
    + exists entry. split; [left|exact H].
    + destruct (IH H) as (entry' & Hin & Hh). exists entry'. split; [right; exact Hin|exact Hh].
Qed.




End Subscriptions.

Section Unsubscribe.

Variable env : Env.
Implicit Types (w : World) (entries : list SubscriptionType).

Lemma UNSUBSCRIBE_runCalls w plainAddress entries :
  subscriptions (state w) !! plainAddress = Some entries -> entries <> [] ->
  actions.UNSUBSCRIBE env plainAddress w =
    bind (runCalls env (closeCalls entries))
         (fun _ => commit (Commit.updateSubscriptions plainAddress None)) w.
Proof.
  intros Hl Hne. unfold actions.UNSUBSCRIBE, bind at 1, getState.
  rewrite Hl. cbn [default from_option id].
  destruct (Nat.eqb_spec (length entries) 0) as [H0|_].
  { destruct entries; [contradiction|discriminate]. }
  unfold bind. rewrite closeEach_runCalls. reflexivity.
Qed.

Lemma UNSUBSCRIBE_nothing w plainAddress :
  subscriptions (state w) !! plainAddress = None ->
  actions.UNSUBSCRIBE env plainAddress w = (Fulfilled tt, w).
Proof.
  intros Hl. unfold actions.UNSUBSCRIBE, bind, getState. rewrite Hl. reflexivity.
Qed.

(** No close call throws: every handle is closed, then the address is
    unset. *)
Lemma UNSUBSCRIBE_ok w plainAddress entries :
  subscriptions (state w) !! plainAddress = Some entries -> entries <> [] ->
  Forall (closes env) (closeCalls entries) ->
  actions.UNSUBSCRIBE env plainAddress w =
    (Fulfilled tt,
     committed (Commit.updateSubscriptions plainAddress None) (appendTrace (closeCalls entries) w)).
Proof.
  intros Hl Hne Hok. rewrite (UNSUBSCRIBE_runCalls _ _ _ Hl Hne).
  unfold bind. rewrite runCalls_ok by exact Hok. reflexivity.
Qed.

(** A close call throws: the action is rejected there. *)
Lemma UNSUBSCRIBE_throw w plainAddress entries calls1 ev calls2 h e :
  subscriptions (state w) !! plainAddress = Some entries ->
  closeCalls entries = calls1 ++ ev :: calls2 ->
  Forall (closes env) calls1 ->
  closedHandle ev = Some h -> closeHandle env h = Throw e ->
  actions.UNSUBSCRIBE env plainAddress w = (Rejected e, appendTrace (calls1 ++ [ev]) w).
Proof.
  intros Hl Hc H1 Hh He.
  assert (Hne : entries <> []).
  { intros ->. destruct calls1; discriminate. }
  rewrite (UNSUBSCRIBE_runCalls _ _ _ Hl Hne), Hc.
  unfold bind. rewrite (runCalls_throw env calls1 ev calls2 h e) by assumption.
  reflexivity.
Qed.

(** [SUBSCRIBE] when the transport opens the channels. *)
Lemma SUBSCRIBE_fulfilled w a u w1 :
  actions.SUBSCRIBE env (Some a) w = (Fulfilled u, w1) ->
  exists streams,
    let entry := {| listener := nextHandle w;
                    sub_subscriptions := seq (S (nextHandle w)) streams |} in
    openChannels env (plain a) = Normal streams /\
    w1 = committed (Commit.updateSubscriptions (plain a) (Some entry))
           {| state := state w;
              trace := trace w ++ [OpenedChannels (plain a) entry];
              nextHandle := S (nextHandle w) + streams |}.
Proof.
  unfold actions.SUBSCRIBE, actions.subscribeTransactionChannels, bind, call.
  destruct (openChannels env (plain a)) as [streams|e]; [|discriminate].
  simpl. intros [= _ <-]. exists streams. split; reflexivity.
Qed.

Lemma handlesOf_fresh n streams :
  NoDup (handlesOf {| listener := n; sub_subscriptions := seq (S n) streams |}) /\
  forall h, h ∈ handlesOf {| listener := n; sub_subscriptions := seq (S n) streams |} ->
            n <= h < S n + streams.
Proof.
  unfold handlesOf. simpl. split.
  - apply NoDup_app. split; [apply NoDup_seq|]. split.
    + intros h Hh Hn. apply elem_of_seq in Hh. apply list_elem_of_singleton in Hn. lia.
    + apply NoDup_singleton.
  - intros h Hh. apply elem_of_app in Hh. destruct Hh as [Hh|Hh].
    + apply elem_of_seq in Hh. lia.
    + apply list_elem_of_singleton in Hh. lia.
Qed.



End Unsubscribe.

(** ** Properties kept by the actions *)

Section Keeps.

Context (P : World -> Prop).

Lemma keeps_ret {A} (a : A) : keeps P (ret a).
Proof. intros w H. exact H. Qed.

Lemma keeps_throw {A} e : keeps P (@throw A e).
Proof. intros w H. exact H. Qed.

Lemma keeps_getState : keeps P getState.
Proof. intros w H. exact H. Qed.

Lemma keeps_call {A} (c : Completion A) : keeps P (call c).
Proof. intros w H. unfold call. destruct c; exact H. Qed.

Lemma keeps_emit ev : (forall w, P w -> P (record ev w)) -> keeps P (emit ev).
Proof. intros Hev w H. apply Hev. exact H. Qed.

Lemma keeps_commit m : (forall w, P w -> P (committed m w)) -> keeps P (commit m).
Proof. intros Hm w H. apply Hm. exact H. Qed.

Lemma keeps_bind {A B} (m : Action A) (k : A -> Action B) :
  keeps P m -> (forall a, keeps P (k a)) -> keeps P (bind m k).
Proof.
  intros Hm Hk w H. unfold bind. specialize (Hm w H).
  destruct (m w) as [[a|e|] w']; simpl in *; [apply Hk|..]; exact Hm.
Qed.

Lemma keeps_tryCatch {A} (body : Action A) (handler : string -> Action A) :
  keeps P body -> (forall e, keeps P (handler e)) -> keeps P (tryCatch body handler).
Proof.
  intros Hb Hh w H. unfold tryCatch. specialize (Hb w H).
  destruct (body w) as [[a|e|] w']; simpl in *; [|apply Hh|]; exact Hb.
Qed.

Lemma keeps_tap {A} (f : A -> World -> World) (source : Rx.Observable A) w :
  (forall a w, P w -> P (f a w)) -> P w -> P (Rx.tap f source w).2.
Proof.
  intros Hf. revert w. induction source as [|[dt n] rest IH]; intros w H; simpl.
  - exact H.
  - destruct n as [a|e|]; simpl; try exact H.
    specialize (IH (f a w) (Hf a w H)).
    destruct (Rx.tap f rest (f a w)) as [out w']. exact IH.
Qed.

End Keeps.

(** *** The invariant of the cosignatory mode *)

Lemma besideInvariant_keeps m s :
  besideInvariant m -> cosignatoryInvariant s -> cosignatoryInvariant (mutate m s).
Proof.
  intros Hm H. destruct s. destruct m; try contradiction; try exact H.
  simpl. destruct subs; exact H.
Qed.

Lemma invariantHolds_committed m w :
  besideInvariant m -> invariantHolds w -> invariantHolds (committed m w).
Proof. intros Hm H. apply besideInvariant_keeps; assumption. Qed.

Lemma invariantHolds_record ev w : invariantHolds w -> invariantHolds (record ev w).
Proof. intros H. exact H. Qed.

(** The three commits of [SET_CURRENT_SIGNER] establish the invariant
    whatever the state was. *)
Lemma signer_commits_keep signerAddress accountAddress (k : Action unit) :
  keeps invariantHolds k ->
  keeps invariantHolds
    (bind (commit (Commit.currentSignerAddress (Some signerAddress))) (fun _ =>
     bind (commit (Commit.currentAccountAddress (Some accountAddress))) (fun _ =>
     bind (commit (Commit.isCosignatoryMode (negb (equals signerAddress accountAddress))))
          (fun _ => k)))).
Proof.
  intros Hk w _. unfold bind, commit. apply Hk.
  destruct w as [s t n]. destruct s. unfold invariantHolds, cosignatoryInvariant, equals. simpl.
  destruct (bool_decide_reflect (signerAddress = accountAddress)) as [->|Hne]; simpl.
  - split; [discriminate|]. intros H. contradiction H. reflexivity.
  - split; [|reflexivity]. intros _ [= H]. contradiction.
Qed.

(** *** Handles below the next one *)

Lemma wellFormed_record ev w :
  closedHandle ev = None -> wellFormed w -> wellFormed (record ev w).
Proof.
  intros Hev [Hreg Hclosed]. split; [exact Hreg|].
  intros h Hh. apply Hclosed. unfold record, closedHandles in Hh. simpl in Hh.
  rewrite omap_app in Hh. simpl in Hh. rewrite Hev, app_nil_r in Hh. exact Hh.
Qed.

Lemma wellFormed_committed m w :
  besideRegistry m -> wellFormed w -> wellFormed (committed m w).
Proof.
  intros Hm [Hreg Hclosed]. split.
  - intros address entries entry h Hl. revert Hl.
    destruct w as [s t n]. destruct s. simpl in *.
    destruct m; try contradiction; simpl; try apply Hreg.
    destruct subs; [contradiction|]. simpl.
    destruct (decide (address0 = address)) as [->|Hne].
    + rewrite lookup_delete_eq. discriminate.
    + rewrite lookup_delete_ne by exact Hne. apply Hreg.
  - intros h Hh. apply Hclosed. unfold committed, closedHandles in Hh. simpl in Hh.
    rewrite omap_app in Hh. simpl in Hh. rewrite app_nil_r in Hh. exact Hh.
Qed.

Lemma wellFormed_appendTrace events w :
  (forall h, h ∈ closedHandles events -> h < nextHandle w) ->
  wellFormed w -> wellFormed (appendTrace events w).
Proof.
  intros Hev [Hreg Hclosed]. split; [exact Hreg|].
  intros h Hh. unfold appendTrace, closedHandles in Hh. simpl in Hh.
  rewrite omap_app in Hh. apply elem_of_app in Hh. destruct Hh as [Hh|Hh].
  - apply Hclosed. exact Hh.
  - apply Hev. exact Hh.
Qed.

Lemma wellFormed_initial : wellFormed initialWorld.
Proof.
  split.
  - intros address entries entry h Hl. simpl in Hl. rewrite lookup_empty in Hl. discriminate.
  - intros h Hh. inversion Hh.
Qed.

Create HintDb keeps.

(** One step through the syntax of an action; [side] settles what a commit
    or an event asks of the property. *)
Ltac keeps_step side :=
  lazymatch goal with
  | |- keeps _ (match ?x with _ => _ end) => destruct x
  | |- keeps _ (bind (commit (Commit.currentSignerAddress _)) _) =>
      first [apply signer_commits_keep | apply keeps_bind; [|intros]]
  | |- keeps _ (bind _ _) => apply keeps_bind; [|intros]
  | |- keeps _ (tryCatch _ _) => apply keeps_tryCatch; [|intros]
  | |- keeps _ (ret _) => apply keeps_ret
  | |- keeps _ (throw _) => apply keeps_throw
  | |- keeps _ getState => apply keeps_getState
  | |- keeps _ (call _) => apply keeps_call
  | |- keeps _ (emit _) => apply keeps_emit; intros; side
  | |- keeps _ (dispatchRoot _ _) => apply keeps_emit; intros; side
  | |- keeps _ (commit _) => apply keeps_commit; intros; side
  | |- keeps _ _ => solve [auto with keeps]
  end.

Ltac invariant_side :=
  first [ apply invariantHolds_record; assumption
        | apply invariantHolds_committed; [exact I | assumption] ].

Ltac wellFormed_side :=
  first [ apply wellFormed_record; [reflexivity | assumption]
        | apply wellFormed_committed; [exact I | assumption] ].

Section InvariantKept.

Variable env : Env.

Lemma unsubscribeEach_keeps subs : keeps invariantHolds (actions.unsubscribeEach env subs).
Proof. induction subs as [|h rest IH]; simpl; repeat keeps_step invariant_side. Qed.
#[local] Hint Resolve unsubscribeEach_keeps : keeps.

Lemma closeEach_keeps entries : keeps invariantHolds (actions.closeEach env entries).
Proof. induction entries as [|entry rest IH]; simpl; repeat keeps_step invariant_side. Qed.
#[local] Hint Resolve closeEach_keeps : keeps.

Lemma UNSUBSCRIBE_keeps plainAddress : keeps invariantHolds (actions.UNSUBSCRIBE env plainAddress).
Proof. unfold actions.UNSUBSCRIBE. repeat keeps_step invariant_side. Qed.
#[local] Hint Resolve UNSUBSCRIBE_keeps : keeps.

Lemma subscribeTransactionChannels_keeps plainAddress :
  keeps invariantHolds (actions.subscribeTransactionChannels env plainAddress).
Proof.
  unfold actions.subscribeTransactionChannels. apply keeps_bind; [keeps_step invariant_side|].
  intros streams w H. exact H.
Qed.
#[local] Hint Resolve subscribeTransactionChannels_keeps : keeps.

Lemma SUBSCRIBE_keeps address : keeps invariantHolds (actions.SUBSCRIBE env address).
Proof. unfold actions.SUBSCRIBE. repeat keeps_step invariant_side. Qed.
#[local] Hint Resolve SUBSCRIBE_keeps : keeps.

Lemma LOAD_ACCOUNT_INFO_keeps : keeps invariantHolds (actions.LOAD_ACCOUNT_INFO env).
Proof. unfold actions.LOAD_ACCOUNT_INFO. repeat keeps_step invariant_side. Qed.
#[local] Hint Resolve LOAD_ACCOUNT_INFO_keeps : keeps.

Lemma initialize_keeps address : keeps invariantHolds (actions.initialize address).
Proof. unfold actions.initialize, actions.Lock_initialize. repeat keeps_step invariant_side. Qed.
#[local] Hint Resolve initialize_keeps : keeps.

Lemma uninitialize_keeps address : keeps invariantHolds (actions.uninitialize env address).
Proof. unfold actions.uninitialize, actions.Lock_uninitialize. repeat keeps_step invariant_side. Qed.

Lemma SET_CURRENT_SIGNER_keeps publicKey :
  keeps invariantHolds (actions.SET_CURRENT_SIGNER env publicKey).
Proof. unfold actions.SET_CURRENT_SIGNER. repeat keeps_step invariant_side. Qed.
#[local] Hint Resolve SET_CURRENT_SIGNER_keeps : keeps.

Lemma SET_CURRENT_ACCOUNT_keeps account :
  keeps invariantHolds (actions.SET_CURRENT_ACCOUNT env account).
Proof. unfold actions.SET_CURRENT_ACCOUNT. repeat keeps_step invariant_side. Qed.

Lemma REST_ANNOUNCE_PARTIAL_keeps issuer signedLock signedPartial :
  keeps invariantHolds (actions.REST_ANNOUNCE_PARTIAL env issuer signedLock signedPartial).
Proof.
  unfold actions.REST_ANNOUNCE_PARTIAL.
  destruct (invalidIssuer issuer); [keeps_step invariant_side|].
  do 2 (apply keeps_bind; [keeps_step invariant_side|intros _]).
  intros w H.
  pose proof (keeps_tap invariantHolds
                (fun _ => actions.removeBoth signedLock signedPartial)
                (actions.announcePartialPipe env signedPartial
                   (announceHashLockAggregateBonded env signedLock signedPartial)) w) as Ht.
  destruct (Rx.tap _ _ w) as [out w']. simpl in *. apply Ht; [|exact H].
  intros _ w0 H0. unfold actions.removeBoth.
  do 2 (apply invariantHolds_committed; [exact I|]). exact H0.
Qed.

Lemma NETWORK_CHANGED_keeps : keeps invariantHolds (actions.NETWORK_CHANGED env).
Proof. unfold actions.NETWORK_CHANGED. repeat keeps_step invariant_side. Qed.

Lemma UPDATE_CURRENT_ACCOUNT_NAME_keeps name :
  keeps invariantHolds (actions.UPDATE_CURRENT_ACCOUNT_NAME env name).
Proof. unfold actions.UPDATE_CURRENT_ACCOUNT_NAME. repeat keeps_step invariant_side. Qed.

Lemma SET_KNOWN_ACCOUNTS_keeps ids : keeps invariantHolds (actions.SET_KNOWN_ACCOUNTS env ids).
Proof. unfold actions.SET_KNOWN_ACCOUNTS. repeat keeps_step invariant_side. Qed.

Lemma stage_keeps stagedTransaction :
  keeps invariantHolds (actions.ADD_STAGED_TRANSACTION stagedTransaction) /\
  keeps invariantHolds actions.CLEAR_STAGED_TRANSACTIONS /\
  keeps invariantHolds actions.RESET_TRANSACTION_STAGE.
Proof.
  unfold actions.ADD_STAGED_TRANSACTION, actions.CLEAR_STAGED_TRANSACTIONS,
    actions.RESET_TRANSACTION_STAGE.
  split; [|split]; keeps_step invariant_side.
Qed.

Lemma REST_ANNOUNCE_TRANSACTION_keeps signedTransaction :
  keeps invariantHolds (actions.REST_ANNOUNCE_TRANSACTION env signedTransaction).
Proof. unfold actions.REST_ANNOUNCE_TRANSACTION. repeat keeps_step invariant_side. Qed.

Lemma REST_ANNOUNCE_COSIGNATURE_keeps cosignature :
  keeps invariantHolds (actions.REST_ANNOUNCE_COSIGNATURE env cosignature).
Proof. unfold actions.REST_ANNOUNCE_COSIGNATURE. repeat keeps_step invariant_side. Qed.

(** Every operation but [RESET_CURRENT_ACCOUNT] keeps the invariant. *)
Lemma dispatch_keeps_invariant op w :
  op <> ResetCurrentAccount ->
  cosignatoryInvariant (state w) -> cosignatoryInvariant (state (dispatch env op w)).
Proof.
  intros Hop H. change (invariantHolds w) in H.
  change (invariantHolds (dispatch env op w)).
  destruct op; try contradiction; simpl.
  - apply initialize_keeps; exact H.
  - apply uninitialize_keeps; exact H.
  - apply SET_CURRENT_ACCOUNT_keeps; exact H.
  - apply SET_CURRENT_SIGNER_keeps; exact H.
  - apply NETWORK_CHANGED_keeps; exact H.
  - apply LOAD_ACCOUNT_INFO_keeps; exact H.
  - apply UPDATE_CURRENT_ACCOUNT_NAME_keeps; exact H.
  - apply SET_KNOWN_ACCOUNTS_keeps; exact H.
  - apply (stage_keeps stagedTransaction); exact H.
  - apply (stage_keeps (mkTransaction 0 0)); exact H.
  - apply (stage_keeps (mkTransaction 0 0)); exact H.
  - apply SUBSCRIBE_keeps; exact H.
  - apply UNSUBSCRIBE_keeps; exact H.
  - apply REST_ANNOUNCE_PARTIAL_keeps; exact H.
  - apply REST_ANNOUNCE_TRANSACTION_keeps; exact H.
  - apply REST_ANNOUNCE_COSIGNATURE_keeps; exact H.
Qed.

(** [RESET_CURRENT_ACCOUNT] keeps it only outside of the cosignatory
    mode. *)
Lemma RESET_CURRENT_ACCOUNT_invariant w :
  cosignatoryInvariant (state (dispatch env ResetCurrentAccount w)) <->
  isCosignatoryMode (state w) = false.
Proof.
  destruct w as [s t n]. destruct s. unfold cosignatoryInvariant. simpl.
  destruct isCosignatoryMode0; split.
  - intros [H _]. exfalso. apply H; reflexivity.
  - discriminate.
  - reflexivity.
  - intros _. split; [discriminate|]. intros H. contradiction H. reflexivity.
Qed.

End InvariantKept.

Section HandlesKept.

Variable env : Env.

(** However a run over close calls ends, it has made some of them, in
    order. *)
Lemma runCalls_done calls w :
  exists done, done `sublist_of` calls /\ (runCalls env calls w).2 = appendTrace done w.
Proof.
  revert w. induction calls as [|ev rest IH]; intros w; simpl.
  - exists []. split; [constructor|]. rewrite appendTrace_nil. reflexivity.
  - unfold bind. simpl.
    assert (Hstop : exists done, done `sublist_of` ev :: rest /\
                      record ev w = appendTrace done w).
    { exists [ev]. split; [apply sublist_skip, sublist_nil_l|reflexivity]. }
    assert (Hgo : exists done, done `sublist_of` ev :: rest /\
                    (runCalls env rest (record ev w)).2 = appendTrace done w).
    { destruct (IH (record ev w)) as (done & Hsub & Hw). exists (ev :: done).
      split; [apply sublist_skip, Hsub|]. rewrite Hw. apply appendTrace_record. }
    destruct (closedHandle ev) as [h|]; simpl; [|exact Hgo].
    destruct (closeHandle env h) as [u|e]; simpl; [exact Hgo|exact Hstop].
Qed.

Lemma UNSUBSCRIBE_wellFormed plainAddress : keeps wellFormed (actions.UNSUBSCRIBE env plainAddress).
Proof.
  intros w Hwf.
  destruct (subscriptions (state w) !! plainAddress) as [entries|] eqn:Hl.
  2:{ rewrite UNSUBSCRIBE_nothing by exact Hl. exact Hwf. }
  destruct (decide (entries = [])) as [->|Hne].
  { unfold actions.UNSUBSCRIBE, bind, getState. rewrite Hl. exact Hwf. }
  rewrite (UNSUBSCRIBE_runCalls env w plainAddress entries Hl Hne). unfold bind.
  destruct (runCalls_done (closeCalls entries) w) as (done & Hsub & Hw).
  assert (Hdone : wellFormed (appendTrace done w)).
  { apply wellFormed_appendTrace; [|exact Hwf].
    intros h Hh. unfold closedHandles in Hh. apply list_elem_of_omap in Hh.
    destruct Hh as (ev & Hev & Hclosed).
    assert (Hin : h ∈ closedHandles (closeCalls entries)).
    { unfold closedHandles. apply list_elem_of_omap. exists ev.
      split; [eapply elem_of_sublist; eassumption|exact Hclosed]. }
    apply closedHandles_closeCalls in Hin. destruct Hin as (entry & Hentry & Hh).
    destruct Hwf as [Hreg _]. exact (Hreg plainAddress entries entry h Hl Hentry Hh). }
  destruct (runCalls env (closeCalls entries) w) as [[u|e|] w']; simpl in *; subst w';
    [apply wellFormed_committed; [exact I|]|..]; exact Hdone.
Qed.
#[local] Hint Resolve UNSUBSCRIBE_wellFormed : keeps.

(** The handles of a new entry set are the next ones. *)
Lemma SUBSCRIBE_wellFormed address : keeps wellFormed (actions.SUBSCRIBE env address).
Proof.
  intros w Hwf. destruct address as [a|]; [|exact Hwf].
  destruct (actions.SUBSCRIBE env (Some a) w) as [[[]|e|] w1] eqn:Hrun.
  - destruct (SUBSCRIBE_fulfilled env w a tt w1 Hrun) as (streams & _ & ->).
    destruct Hwf as [Hreg Hclosed]. simpl. split.
    + intros address entries entry h. simpl. rewrite subscriptions_assign.
      destruct (decide (plain a = address)) as [<-|Hne].
      * rewrite lookup_insert_eq. intros [= <-] Hin Hh.
        apply elem_of_app in Hin. destruct Hin as [Hin|Hin].
        -- destruct (subscriptions (state w) !! plain a) as [old|] eqn:Hl; [|inversion Hin].
           specialize (Hreg (plain a) old entry h Hl Hin Hh). lia.
        -- apply list_elem_of_singleton in Hin. subst entry.
           apply handlesOf_fresh in Hh. lia.
      * rewrite lookup_insert_ne by exact Hne. intros Hl Hin Hh.
        specialize (Hreg address entries entry h Hl Hin Hh). lia.
    + intros h Hh. unfold closedHandles in Hh. simpl in Hh.
      rewrite !omap_app in Hh. simpl in Hh. rewrite !app_nil_r in Hh.
      apply Hclosed in Hh. simpl. lia.
  - revert Hrun. unfold actions.SUBSCRIBE, actions.subscribeTransactionChannels, bind, call.
    destruct (openChannels env (plain a)); [discriminate|]. intros [= _ <-]. exact Hwf.
  - revert Hrun. unfold actions.SUBSCRIBE, actions.subscribeTransactionChannels, bind, call.
    destruct (openChannels env (plain a)); discriminate.
Qed.
#[local] Hint Resolve SUBSCRIBE_wellFormed : keeps.

Lemma LOAD_ACCOUNT_INFO_wellFormed : keeps wellFormed (actions.LOAD_ACCOUNT_INFO env).
Proof. unfold actions.LOAD_ACCOUNT_INFO. repeat keeps_step wellFormed_side. Qed.
#[local] Hint Resolve LOAD_ACCOUNT_INFO_wellFormed : keeps.

Lemma initialize_wellFormed address : keeps wellFormed (actions.initialize address).
Proof. unfold actions.initialize, actions.Lock_initialize. repeat keeps_step wellFormed_side. Qed.
#[local] Hint Resolve initialize_wellFormed : keeps.

Lemma SET_CURRENT_SIGNER_wellFormed publicKey :
  keeps wellFormed (actions.SET_CURRENT_SIGNER env publicKey).
Proof. unfold actions.SET_CURRENT_SIGNER. repeat keeps_step wellFormed_side. Qed.
#[local] Hint Resolve SET_CURRENT_SIGNER_wellFormed : keeps.

Lemma REST_ANNOUNCE_PARTIAL_wellFormed issuer signedLock signedPartial :
  keeps wellFormed (actions.REST_ANNOUNCE_PARTIAL env issuer signedLock signedPartial).
Proof.
  unfold actions.REST_ANNOUNCE_PARTIAL.
  destruct (invalidIssuer issuer); [keeps_step wellFormed_side|].
  do 2 (apply keeps_bind; [keeps_step wellFormed_side|intros _]).
  intros w H.
  pose proof (keeps_tap wellFormed
                (fun _ => actions.removeBoth signedLock signedPartial)
                (actions.announcePartialPipe env signedPartial
                   (announceHashLockAggregateBonded env signedLock signedPartial)) w) as Ht.
  destruct (Rx.tap _ _ w) as [out w']. simpl in *. apply Ht; [|exact H].
  intros _ w0 H0. unfold actions.removeBoth.
  do 2 (apply wellFormed_committed; [exact I|]). exact H0.
Qed.

Lemma dispatch_wellFormed op : keeps wellFormed (fun w => (Fulfilled tt, dispatch env op w)).
Proof.
  assert (Hk : forall A (a : Action A), keeps wellFormed a ->
                 forall w, wellFormed w -> wellFormed (a w).2) by (intros A a H; exact H).
  intros w Hwf. cbn [snd]. destruct op; cbn [dispatch]; apply Hk; try exact Hwf.
  - apply initialize_wellFormed.
  - unfold actions.uninitialize, actions.Lock_uninitialize. repeat keeps_step wellFormed_side.
  - unfold actions.SET_CURRENT_ACCOUNT. repeat keeps_step wellFormed_side.
  - unfold actions.RESET_CURRENT_ACCOUNT. repeat keeps_step wellFormed_side.
  - apply SET_CURRENT_SIGNER_wellFormed.
  - unfold actions.NETWORK_CHANGED. repeat keeps_step wellFormed_side.
  - apply LOAD_ACCOUNT_INFO_wellFormed.
  - unfold actions.UPDATE_CURRENT_ACCOUNT_NAME. repeat keeps_step wellFormed_side.
  - unfold actions.SET_KNOWN_ACCOUNTS. repeat keeps_step wellFormed_side.
  - unfold actions.ADD_STAGED_TRANSACTION. repeat keeps_step wellFormed_side.
  - unfold actions.CLEAR_STAGED_TRANSACTIONS. repeat keeps_step wellFormed_side.
  - unfold actions.RESET_TRANSACTION_STAGE. repeat keeps_step wellFormed_side.
  - apply SUBSCRIBE_wellFormed.
  - apply UNSUBSCRIBE_wellFormed.
  - apply REST_ANNOUNCE_PARTIAL_wellFormed.
  - unfold actions.REST_ANNOUNCE_TRANSACTION. repeat keeps_step wellFormed_side.
  - unfold actions.REST_ANNOUNCE_COSIGNATURE. repeat keeps_step wellFormed_side.
Qed.

(** Every world the operations reach from the initial one is well formed. *)
Lemma reachable_wellFormed w : reachable env w -> wellFormed w.
Proof.
  induction 1 as [|op w _ IH].
  - apply wellFormed_initial.
  - apply (dispatch_wellFormed op w IH).
Qed.

End HandlesKept.

(** ** The single announce *)

(** Whatever observable the call hands back, the action removes the
    transaction and answers success: the observable is not subscribed to. *)
Lemma REST_ANNOUNCE_TRANSACTION_returned
    (env : Env) (w : World) (signedTransaction : SignedTransaction)
    (observable : Rx.Observable string) :
  announce env signedTransaction = Normal observable ->
  actions.REST_ANNOUNCE_TRANSACTION env signedTransaction w =
    (Fulfilled (mkBroadcastResult signedTransaction true None),
     committed (Commit.removeSignedTransaction signedTransaction)
       (record (Announced signedTransaction)
          (record (Dispatched "diagnostic/ADD_DEBUG"
                     ["Store action account/REST_ANNOUNCE_TRANSACTION dispatched with: ";
                      hash signedTransaction; payload signedTransaction]) w))).
Proof.
  intros Hok.
  unfold actions.REST_ANNOUNCE_TRANSACTION, bind, tryCatch, dispatchRoot, emit, call, commit, ret.
  rewrite Hok. reflexivity.
Qed.

(** When the call itself throws, the action removes the transaction all the
    same and answers a failure that carries the error. *)
Lemma REST_ANNOUNCE_TRANSACTION_thrown
    (env : Env) (w : World) (signedTransaction : SignedTransaction) (e : string) :
  announce env signedTransaction = Throw e ->
  actions.REST_ANNOUNCE_TRANSACTION env signedTransaction w =
    (Fulfilled (mkBroadcastResult signedTransaction false (Some e)),
     committed (Commit.removeSignedTransaction signedTransaction)
       (record (Announced signedTransaction)
          (record (Dispatched "diagnostic/ADD_DEBUG"
                     ["Store action account/REST_ANNOUNCE_TRANSACTION dispatched with: ";
                      hash signedTransaction; payload signedTransaction]) w))).
Proof.
  intros He.
  unfold actions.REST_ANNOUNCE_TRANSACTION, bind, tryCatch, dispatchRoot, emit, call, commit, ret.
  rewrite He. reflexivity.
Qed.

(** ** Subscribing, then unsubscribing *)

Lemma runCalls_settles (env : Env) (calls : list Event) (w : World) :
  (exists w', runCalls env calls w = (Fulfilled tt, w')) \/
  (exists e done,
     runCalls env calls w = (Rejected e, appendTrace done w) /\ done `sublist_of` calls /\
     exists ev h, last done = Some ev /\ closedHandle ev = Some h /\ closeHandle env h = Throw e).
Proof.
  revert w. induction calls as [|ev rest IH]; intros w; simpl.
  - left. exists w. reflexivity.
  - unfold bind. simpl.
    assert (Hrest :
      (exists w', runCalls env rest (record ev w) = (Fulfilled tt, w')) \/
      (exists e done,
         runCalls env rest (record ev w) = (Rejected e, appendTrace done w) /\
         done `sublist_of` ev :: rest /\
         exists ev' h,
           last done = Some ev' /\ closedHandle ev' = Some h /\ closeHandle env h = Throw e)).
    { destruct (IH (record ev w)) as [Hok|(e & done & Hrun & Hsub & ev' & h & Hlast & Hh & He)];
        [left; exact Hok|].
      right. exists e, (ev :: done). rewrite Hrun, appendTrace_record.
      split; [reflexivity|]. split; [apply sublist_skip, Hsub|].
      exists ev', h. rewrite last_cons, Hlast. split; [reflexivity|]. split; assumption. }
    destruct (closedHandle ev) as [h|] eqn:Hev; simpl; [|exact Hrest].
    destruct (closeHandle env h) as [[]|e] eqn:He; simpl; [exact Hrest|].
    right. exists e, [ev]. split; [reflexivity|]. split; [apply sublist_skip, sublist_nil_l|].
    exists ev, h. split; [reflexivity|]. split; assumption.
Qed.

Lemma UNSUBSCRIBE_settles (env : Env) (plainAddress : string) (w : World) :
  (exists w', actions.UNSUBSCRIBE env plainAddress w = (Fulfilled tt, w')) \/
  (exists e done,
     actions.UNSUBSCRIBE env plainAddress w = (Rejected e, appendTrace done w) /\
     done `sublist_of` closeCalls (default [] (subscriptions (state w) !! plainAddress)) /\
     exists ev h, last done = Some ev /\ closedHandle ev = Some h /\ closeHandle env h = Throw e).
Proof.
  destruct (subscriptions (state w) !! plainAddress) as [entries|] eqn:Hl.
  2:{ left. exists w. apply UNSUBSCRIBE_nothing. exact Hl. }
  destruct (decide (entries = [])) as [->|Hne].
  { left. exists w. unfold actions.UNSUBSCRIBE, bind, getState. rewrite Hl. reflexivity. }
  rewrite (UNSUBSCRIBE_runCalls env w plainAddress entries Hl Hne). unfold bind.
  destruct (runCalls_settles env (closeCalls entries) w)
    as [(w' & ->)|(e & done & -> & Hsub & Hlast)].
  - left. eexists. reflexivity.
  - right. exists e, done. split; [reflexivity|]. split; [exact Hsub|exact Hlast].
Qed.


(** * The claims *)

(** C1, evaluated on the code. Unsigning [T2] from the signed transactions
    [T1; T2; T3], whose hashes are distinct, leaves [T1] alone: the entry
    after the removed one is lost as well, where the claim has [T1; T3].
    ([removeSignedTransaction_hit] gives the general shape of the result,
    [removeSignedTransaction_first] the case in which it is the right one.) *)
Theorem unsign_middle_loses_successor :
  signedTransactions
    (mutations.removeSignedTransaction
       (Assign.signedTransactions [Sample.T1; Sample.T2; Sample.T3] accountState)
       Sample.T2)
  = [Sample.T1].
Proof. vm_compute. reflexivity. Qed.

(** C2, evaluated on the code. When the observable of the SDK fails before
    the timeout, the action is fulfilled with a result whose [success] is
    [true] and which carries no error: the failure result built by
    [catchError] is replaced by [mapTo]. The claim has [success = false]
    with the error. ([REST_ANNOUNCE_PARTIAL_results] has the three outcomes
    for every environment.) *)
Theorem announce_partial_error_reported_as_success :
  (actions.REST_ANNOUNCE_PARTIAL Sample.failing (Some Sample.issuer)
     Sample.signedLock Sample.signedPartial
     (Sample.withSigned [Sample.signedLock; Sample.signedPartial])).1
  = Fulfilled (Some (mkBroadcastResult Sample.signedPartial true None)).
Proof. vm_compute. reflexivity. Qed.

(** C3. For an issuer of forty characters, in each of the three outcomes
    (confirmation within the timeout, error within the timeout, nothing
    until the timeout) the action commits [removeSignedTransaction] exactly
    once for the lock and once for the partial transaction, in that order
    and after the announce; the state is the one these two removals leave;
    and when hashes identify the signed transactions, no entry with the hash
    of the lock or of the partial transaction remains. *)
Theorem announce_partial_removes_both
    (env : Env) (w : World) (issuer : string) (signedLock signedPartial : SignedTransaction) :
  String.length issuer = 40 ->
  confirmedWithin (AGGREGATE_BROADCAST_TIMEOUT env)
    (announceHashLockAggregateBonded env signedLock signedPartial) \/
  (exists e, failedWithin (AGGREGATE_BROADCAST_TIMEOUT env) e
     (announceHashLockAggregateBonded env signedLock signedPartial)) \/
  silentUntil (AGGREGATE_BROADCAST_TIMEOUT env)
    (announceHashLockAggregateBonded env signedLock signedPartial) ->
  trace (actions.REST_ANNOUNCE_PARTIAL env (Some issuer) signedLock signedPartial w).2 =
    trace w ++
      [Dispatched "diagnostic/ADD_DEBUG"
         ["Store action account/REST_ANNOUNCE_PARTIAL dispatched with: ";
          issuer; hash signedLock; hash signedPartial];
       AnnouncedHashLockAggregateBonded signedLock signedPartial;
       Committed (Commit.removeSignedTransaction signedLock);
       Committed (Commit.removeSignedTransaction signedPartial)] /\
  state (actions.REST_ANNOUNCE_PARTIAL env (Some issuer) signedLock signedPartial w).2 =
    mutations.removeSignedTransaction
      (mutations.removeSignedTransaction (state w) signedLock) signedPartial /\
  (NoDup (hash <$> signedTransactions (state w)) ->
   Forall (fun t => hash t <> hash signedLock /\ hash t <> hash signedPartial)
     (signedTransactions
        (state (actions.REST_ANNOUNCE_PARTIAL env (Some issuer) signedLock signedPartial w).2))).
Proof.
  intros Hlen Hout.
  assert (Hi : invalidIssuer (Some issuer) = false).
  { unfold invalidIssuer. rewrite Hlen. reflexivity. }
  assert (Hp : exists t t' result,
             actions.announcePartialPipe env signedPartial
               (announceHashLockAggregateBonded env signedLock signedPartial) =
             [(t, Rx.Next result); (t', Rx.Complete)]).
  { destruct Hout as [H|[[e H]|H]].
    - destruct (pipe_confirmed env signedPartial _ H) as (t & t' & Hp). eauto.
    - destruct (pipe_failed env signedPartial _ e H) as (t & t' & Hp). eauto.
    - destruct (pipe_silent env signedPartial _ H) as (t & t' & Hp). eauto. }
  destruct Hp as (t & t' & result & Hp).
  rewrite (REST_ANNOUNCE_PARTIAL_single env (Some issuer) signedLock signedPartial w t t' result Hi Hp).
  cbn [snd]. rewrite removeBoth_trace, removeBoth_state.
  split; [|split].
  - unfold announcing, record. simpl. rewrite <- !app_assoc. reflexivity.
  - reflexivity.
  - intros Hnd. apply removeBoth_absent. exact Hnd.
Qed.

Lemma announce_partial_removes_both_witness :
  String.length Sample.issuer = 40 /\
  silentUntil (AGGREGATE_BROADCAST_TIMEOUT Sample.quiet)
    (announceHashLockAggregateBonded Sample.quiet Sample.signedLock Sample.signedPartial) /\
  state (actions.REST_ANNOUNCE_PARTIAL Sample.quiet (Some Sample.issuer)
           Sample.signedLock Sample.signedPartial
           (Sample.withSigned [Sample.T1; Sample.signedLock; Sample.signedPartial])).2 =
    mutations.removeSignedTransaction
      (mutations.removeSignedTransaction
         (state (Sample.withSigned [Sample.T1; Sample.signedLock; Sample.signedPartial]))
         Sample.signedLock) Sample.signedPartial.
Proof.
  split; [reflexivity|]. split; [left; reflexivity|].
  apply (announce_partial_removes_both Sample.quiet
           (Sample.withSigned [Sample.T1; Sample.signedLock; Sample.signedPartial])
           Sample.issuer Sample.signedLock Sample.signedPartial).
  - reflexivity.
  - right. right. left. reflexivity.
Defined.

(** C4, the claim as stated fails. With one entry set for [TA] (streams [1]
    and [2], listener [0]) and a stream [1] whose [unsubscribe] throws,
    [UNSUBSCRIBE] stops at that call: stream [2] and the listener are never
    closed and [TA] stays registered. *)
Lemma unsubscribe_is_not_best_effort :
  ~ bestEffortCleanup Sample.stuck Sample.subscribed "TA".
Proof.
  intros [Hall _].
  specialize (Hall (ListenerClosed 0)).
  assert (Hin : ListenerClosed 0 ∈
            closeCalls (default [] (subscriptions (state Sample.subscribed) !! "TA"))).
  { vm_compute. right. right. left. }
  apply Hall in Hin.
  assert (Ht : trace (actions.UNSUBSCRIBE Sample.stuck "TA" Sample.subscribed).2 = [Unsubscribed 1])
    by (vm_compute; reflexivity).
  rewrite Ht in Hin. apply list_elem_of_singleton in Hin. discriminate.
Qed.

(** C4, amended. [UNSUBSCRIBE] of an address with registered entry sets
    makes the close calls in order (per entry set the streams, then the
    listener). When none of them throws, all are made, the action is
    fulfilled and the address is removed from the registry. When one
    throws, the action is rejected with that error right there: the calls
    after it are not made and the state, registry included, is unchanged. *)
Theorem unsubscribe_fails_fast
    (env : Env) (w : World) (plainAddress : string) (entries : list SubscriptionType) :
  subscriptions (state w) !! plainAddress = Some entries -> entries <> [] ->
  (Forall (closes env) (closeCalls entries) ->
   exists w',
     actions.UNSUBSCRIBE env plainAddress w = (Fulfilled tt, w') /\
     trace w' = trace w ++ closeCalls entries ++
                  [Committed (Commit.updateSubscriptions plainAddress None)] /\
     subscriptions (state w') = delete plainAddress (subscriptions (state w))) /\
  (forall calls1 ev calls2 h e,
     closeCalls entries = calls1 ++ ev :: calls2 ->
     Forall (closes env) calls1 ->
     closedHandle ev = Some h -> closeHandle env h = Throw e ->
     exists w',
       actions.UNSUBSCRIBE env plainAddress w = (Rejected e, w') /\
       trace w' = trace w ++ calls1 ++ [ev] /\
       state w' = state w).
Proof.
  intros Hl Hne. split.
  - intros Hok. eexists. split; [apply (UNSUBSCRIBE_ok env w plainAddress entries Hl Hne Hok)|].
    split.
    + simpl. rewrite <- app_assoc. reflexivity.
    + simpl. apply subscriptions_assign.
  - intros calls1 ev calls2 h e Hc H1 Hh He. eexists.
    split; [apply (UNSUBSCRIBE_throw env w plainAddress entries calls1 ev calls2 h e Hl Hc H1 Hh He)|].
    split; reflexivity.
Qed.

Lemma unsubscribe_fails_fast_witness :
  subscriptions (state Sample.subscribed) !! "TA" = Some [mkSubscriptionType 0 [1; 2]] /\
  [mkSubscriptionType 0 [1; 2]] <> [] /\
  (exists w',
     actions.UNSUBSCRIBE Sample.stuck "TA" Sample.subscribed = (Rejected "UnsubscriptionError", w') /\
     trace w' = trace Sample.subscribed ++ [] ++ [Unsubscribed 1] /\
     state w' = state Sample.subscribed) /\
  (exists w',
     actions.UNSUBSCRIBE Sample.quiet "TA" Sample.subscribed = (Fulfilled tt, w') /\
     trace w' = trace Sample.subscribed ++ closeCalls [mkSubscriptionType 0 [1; 2]] ++
                  [Committed (Commit.updateSubscriptions "TA" None)] /\
     subscriptions (state w') = delete "TA" (subscriptions (state Sample.subscribed))).
Proof.
  assert (Hl : subscriptions (state Sample.subscribed) !! "TA" = Some [mkSubscriptionType 0 [1; 2]])
    by (vm_compute; reflexivity).
  assert (Hne : [mkSubscriptionType 0 [1; 2]] <> []) by discriminate.
  split; [exact Hl|]. split; [exact Hne|]. split.
  - apply (proj2 (unsubscribe_fails_fast Sample.stuck Sample.subscribed "TA" _ Hl Hne)
             [] (Unsubscribed 1) [Unsubscribed 2; ListenerClosed 0] 1 "UnsubscriptionError").
    + reflexivity.
    + constructor.
    + reflexivity.
    + reflexivity.
  - apply (proj1 (unsubscribe_fails_fast Sample.quiet Sample.subscribed "TA" _ Hl Hne)).
    repeat constructor.
Defined.




(** C6, evaluated on the code. Selecting account A, acting as signer B and
    resetting the current account reaches a state in which
    [isCosignatoryMode] is still [true] although the signer address and the
    account address are both unset, hence equal. Every other operation keeps
    the invariant ([dispatch_keeps_invariant]); [RESET_CURRENT_ACCOUNT]
    clears the two addresses and leaves the flag as it was. *)
Theorem reset_leaves_cosignatory_mode :
  reachable Sample.quiet afterReset /\
  isCosignatoryMode (state afterReset) = true /\
  currentSignerAddress (state afterReset) = None /\
  currentAccountAddress (state afterReset) = None /\
  ~ cosignatoryInvariant (state afterReset).
Proof.
  assert (Hflag : isCosignatoryMode (state afterReset) = true) by (vm_compute; reflexivity).
  assert (Hsigner : currentSignerAddress (state afterReset) = None) by (vm_compute; reflexivity).
  assert (Haccount : currentAccountAddress (state afterReset) = None) by (vm_compute; reflexivity).
  split; [|repeat split; try assumption].
  - unfold afterReset. repeat apply reachable_dispatch. apply reachable_initial.
  - intros [H _]. apply H in Hflag. apply Hflag. rewrite Hsigner, Haccount. reflexivity.
Qed.

(** C7, evaluated on the code. A node that refuses the transaction makes
    the observable of [announce] error. [REST_ANNOUNCE_TRANSACTION] awaits
    that observable without [toPromise()], so the refusal is never seen: the
    action is fulfilled with [success = true] and no error. The transaction
    is removed and the announce is made once, as after a success; what the
    code does not give is the failure result. Only a throw of the call
    itself is reported as a failure, as the last line shows
    ([REST_ANNOUNCE_TRANSACTION_thrown]); whatever the observable delivers,
    the result says success ([REST_ANNOUNCE_TRANSACTION_returned]). *)
Theorem announce_single_refusal_reported_as_success :
  announce Sample.refusing Sample.T2 = Normal [(100%Z, Rx.Error "Error: announce refused")] /\
  (actions.REST_ANNOUNCE_TRANSACTION Sample.refusing Sample.T2
     (Sample.withSigned [Sample.T2; Sample.T3])).1 =
    Fulfilled (mkBroadcastResult Sample.T2 true None) /\
  signedTransactions
    (state (actions.REST_ANNOUNCE_TRANSACTION Sample.refusing Sample.T2
              (Sample.withSigned [Sample.T2; Sample.T3])).2) = [Sample.T3] /\
  trace (actions.REST_ANNOUNCE_TRANSACTION Sample.refusing Sample.T2
           (Sample.withSigned [Sample.T2; Sample.T3])).2 =
    [Dispatched "diagnostic/ADD_DEBUG"
       ["Store action account/REST_ANNOUNCE_TRANSACTION dispatched with: ";
        hash Sample.T2; payload Sample.T2];
     Announced Sample.T2;
     Committed (Commit.removeSignedTransaction Sample.T2)] /\
  (actions.REST_ANNOUNCE_TRANSACTION Sample.throwing Sample.T2
     (Sample.withSigned [Sample.T2; Sample.T3])).1 =
    Fulfilled (mkBroadcastResult Sample.T2 false (Some "Error: announce threw")).
Proof.
  split; [reflexivity|].
  rewrite (REST_ANNOUNCE_TRANSACTION_returned Sample.refusing
             (Sample.withSigned [Sample.T2; Sample.T3]) Sample.T2 _ eq_refl).
  rewrite (REST_ANNOUNCE_TRANSACTION_thrown Sample.throwing
             (Sample.withSigned [Sample.T2; Sample.T3]) Sample.T2 _ eq_refl).
  split; [reflexivity|]. split; [vm_compute; reflexivity|].
  split; [vm_compute; reflexivity|reflexivity].
Qed.

(** C8. [SET_CURRENT_SIGNER] with an empty public key is rejected with the
    error of the guard and leaves the world as it was: no field of the
    state is written and nothing is dispatched. *)
Theorem set_current_signer_empty_publicKey (env : Env) (w : World) :
  actions.SET_CURRENT_SIGNER env "" w = (Rejected noPublicKey, w).
Proof. reflexivity. Qed.

(** C9. Unsigning a transaction whose hash is the hash of no signed
    transaction leaves the state, the signed transactions included, as it
    was, and the commit is fulfilled. *)
Theorem unsign_absent_is_noop (w : World) (transaction : SignedTransaction) :
  Forall (fun t => hash t <> hash transaction) (signedTransactions (state w)) ->
  mutations.removeSignedTransaction (state w) transaction = state w /\
  exists w',
    commit (Commit.removeSignedTransaction transaction) w = (Fulfilled tt, w') /\
    state w' = state w.
Proof.
  intros H. pose proof (removeSignedTransaction_no_hit (state w) transaction H) as Hs.
  split; [exact Hs|]. eexists. split; [reflexivity|]. exact Hs.
Qed.

Lemma unsign_absent_is_noop_witness :
  Forall (fun t => hash t <> hash Sample.T2)
    (signedTransactions (state (Sample.withSigned [Sample.T1; Sample.T3]))) /\
  mutations.removeSignedTransaction (state (Sample.withSigned [Sample.T1; Sample.T3])) Sample.T2 =
    state (Sample.withSigned [Sample.T1; Sample.T3]).
Proof.
  assert (H : Forall (fun t => hash t <> hash Sample.T2)
                (signedTransactions (state (Sample.withSigned [Sample.T1; Sample.T3])))).
  { repeat constructor; discriminate. }
  split; [exact H|].
  exact (proj1 (unsign_absent_is_noop (Sample.withSigned [Sample.T1; Sample.T3]) Sample.T2 H)).
Defined.

(** C10. When the issuer is missing, empty or not forty characters long,
    [REST_ANNOUNCE_PARTIAL] is fulfilled with [undefined], no
    [BroadcastResult], and leaves the world as it was: nothing is dispatched
    or announced and the signed transactions are untouched. *)
Theorem announce_partial_invalid_issuer
    (env : Env) (w : World) (issuer : option string) (signedLock signedPartial : SignedTransaction) :
  issuer = None \/ (exists i, issuer = Some i /\ String.length i <> 40) ->
  actions.REST_ANNOUNCE_PARTIAL env issuer signedLock signedPartial w = (Fulfilled None, w).
Proof.
  intros H. apply REST_ANNOUNCE_PARTIAL_guard. apply invalidIssuer_spec. exact H.
Qed.

Lemma announce_partial_invalid_issuer_witness :
  (exists i, Some "TA" = Some i /\ String.length i <> 40) /\
  actions.REST_ANNOUNCE_PARTIAL Sample.quiet (Some "TA") Sample.signedLock Sample.signedPartial
    (Sample.withSigned [Sample.signedLock; Sample.signedPartial]) =
    (Fulfilled None, Sample.withSigned [Sample.signedLock; Sample.signedPartial]).
Proof.
  assert (H : exists i, Some "TA" = Some i /\ String.length i <> 40).
  { exists "TA". split; [reflexivity|discriminate]. }
  split; [exact H|].
  apply (announce_partial_invalid_issuer Sample.quiet _ (Some "TA")). right. exact H.
Defined.

(** * Further properties of the store *)

(** ** Signed transactions and subscriptions, mutation by mutation *)

Lemma removeSignedTransaction_frame (state : AccountState) (transaction : SignedTransaction) :
  mutations.removeSignedTransaction state transaction =
    Assign.signedTransactions
      (signedTransactions (mutations.removeSignedTransaction state transaction)) state.
Proof.
  unfold mutations.removeSignedTransaction. rewrite signedTransactions_assign. reflexivity.
Qed.

(** X1. Signing a transaction whose hash no signed transaction carries and
    unsigning it again gives the state back: the entry is the last one, which
    is a position at which the removal takes nothing else along. *)
Theorem sign_then_unsign (state : AccountState) (transaction : SignedTransaction) :
  Forall (fun t => hash t <> hash transaction) (signedTransactions state) ->
  mutations.removeSignedTransaction (mutations.addSignedTransaction state transaction) transaction
    = state.
Proof.
  intros Hfresh. rewrite removeSignedTransaction_frame.
  rewrite (removeSignedTransaction_hit _ transaction (signedTransactions state) transaction []).
  - rewrite drop_nil, app_nil_r. unfold mutations.addSignedTransaction.
    destruct state. reflexivity.
  - unfold mutations.addSignedTransaction, JsArray.push.
    rewrite signedTransactions_assign. reflexivity.
  - exact Hfresh.
  - reflexivity.
Qed.

Lemma sign_then_unsign_witness :
  Forall (fun t => hash t <> hash Sample.T3)
    (signedTransactions (state (Sample.withSigned [Sample.T1; Sample.T2]))) /\
  mutations.removeSignedTransaction
    (mutations.addSignedTransaction (state (Sample.withSigned [Sample.T1; Sample.T2])) Sample.T3)
    Sample.T3 = state (Sample.withSigned [Sample.T1; Sample.T2]).
Proof.
  assert (H : Forall (fun t => hash t <> hash Sample.T3)
                (signedTransactions (state (Sample.withSigned [Sample.T1; Sample.T2])))).
  { repeat constructor; discriminate. }
  split; [exact H|]. exact (sign_then_unsign _ Sample.T3 H).
Defined.

(** X2. Unsigning only takes entries away: what is left is a subsequence of
    the signed transactions (nothing added, nothing reordered), every other
    field of the state is as before, and when the hash is present the
    sequence gets shorter. *)
Theorem unsign_only_removes (state : AccountState) (transaction : SignedTransaction) :
  signedTransactions (mutations.removeSignedTransaction state transaction)
    `sublist_of` signedTransactions state /\
  mutations.removeSignedTransaction state transaction =
    Assign.signedTransactions
      (signedTransactions (mutations.removeSignedTransaction state transaction)) state /\
  (Exists (fun t => hash t = hash transaction) (signedTransactions state) ->
   length (signedTransactions (mutations.removeSignedTransaction state transaction)) <
     length (signedTransactions state)).
Proof.
  split; [apply removeSignedTransaction_sublist|].
  split; [apply removeSignedTransaction_frame|].
  intros Hex.
  destruct (first_hit (signedTransactions state) (hash transaction))
    as [Hno|(before & tx & after & Hs & Hb & Hx)].
  - exfalso. apply Exists_exists in Hex. destruct Hex as (t & Hin & Ht).
    rewrite Forall_forall in Hno. exact (Hno t Hin Ht).
  - rewrite (removeSignedTransaction_hit state transaction before tx after Hs Hb Hx), Hs.
    rewrite !length_app, length_drop. simpl. lia.
Qed.

Lemma unsign_only_removes_witness :
  Exists (fun t => hash t = hash Sample.T2)
    (signedTransactions (state (Sample.withSigned [Sample.T1; Sample.T2; Sample.T3]))) /\
  length (signedTransactions
            (mutations.removeSignedTransaction
               (state (Sample.withSigned [Sample.T1; Sample.T2; Sample.T3])) Sample.T2)) <
    length (signedTransactions (state (Sample.withSigned [Sample.T1; Sample.T2; Sample.T3]))).
Proof.
  assert (H : Exists (fun t => hash t = hash Sample.T2)
                (signedTransactions (state (Sample.withSigned [Sample.T1; Sample.T2; Sample.T3])))).
  { right. left. reflexivity. }
  split; [exact H|].
  exact (proj2 (proj2 (unsign_only_removes _ Sample.T2)) H).
Defined.

(** X3. Registering a second entry set for an address that has one already
    appends it: both are kept, in the order they came, after the ones that
    were there; the entries of every other address are as before. *)
Theorem resubscribing_appends
    (state : AccountState) (address : string) (first second : SubscriptionType) :
  subscriptions
    (mutations.updateSubscriptions
       (mutations.updateSubscriptions state address (Some first)) address (Some second))
    !! address
  = Some (default [] (subscriptions state !! address) ++ [first; second]) /\
  forall other, other <> address ->
    subscriptions
      (mutations.updateSubscriptions
         (mutations.updateSubscriptions state address (Some first)) address (Some second))
      !! other
    = subscriptions state !! other.
Proof.
  unfold mutations.updateSubscriptions. rewrite !subscriptions_assign. split.
  - rewrite !lookup_insert_eq. simpl. rewrite <- app_assoc. reflexivity.
  - intros other Hne. rewrite !lookup_insert_ne by congruence. reflexivity.
Qed.

(** X4. Registering an entry set for an address that has none and unsetting
    the address gives the state back. Whatever was registered, after the
    unset the address has no entry and the other addresses keep theirs. *)
Theorem register_then_unset
    (state : AccountState) (address : string) (entry : SubscriptionType) :
  (subscriptions state !! address = None ->
   mutations.updateSubscriptions
     (mutations.updateSubscriptions state address (Some entry)) address None = state) /\
  subscriptions (mutations.updateSubscriptions state address None) !! address = None /\
  forall other, other <> address ->
    subscriptions (mutations.updateSubscriptions state address None) !! other
    = subscriptions state !! other.
Proof.
  unfold mutations.updateSubscriptions. rewrite !subscriptions_assign. split; [|split].
  - intros Hnone. rewrite delete_insert_id by exact Hnone.
    destruct state. reflexivity.
  - apply lookup_delete_eq.
  - intros other Hne. apply lookup_delete_ne. congruence.
Qed.

Lemma register_then_unset_witness :
  subscriptions accountState !! "TA" = None /\
  mutations.updateSubscriptions
    (mutations.updateSubscriptions accountState "TA" (Some (mkSubscriptionType 0 [1; 2])))
    "TA" None = accountState.
Proof.
  assert (H : subscriptions accountState !! "TA" = None) by reflexivity.
  split; [exact H|].
  exact (proj1 (register_then_unset accountState "TA" (mkSubscriptionType 0 [1; 2])) H).
Defined.

(** ** Unsubscribing *)

(** What [UNSUBSCRIBE] does to the trace and to the state, however it
    settles. *)
Lemma UNSUBSCRIBE_effect (env : Env) (w : World) (plainAddress : string) :
  (exists events,
     trace (actions.UNSUBSCRIBE env plainAddress w).2 = trace w ++ events /\
     forall h, h ∈ closedHandles events ->
       exists entry,
         entry ∈ default [] (subscriptions (state w) !! plainAddress) /\ h ∈ handlesOf entry) /\
  (state (actions.UNSUBSCRIBE env plainAddress w).2 = state w \/
   state (actions.UNSUBSCRIBE env plainAddress w).2 =
     mutations.updateSubscriptions (state w) plainAddress None).
Proof.
  destruct (subscriptions (state w) !! plainAddress) as [entries|] eqn:Hl.
  2:{ rewrite UNSUBSCRIBE_nothing by exact Hl. split; [|left; reflexivity].
      exists []. split; [symmetry; apply app_nil_r|]. intros h Hh. inversion Hh. }
  destruct (decide (entries = [])) as [->|Hne].
  { assert (Hrun : actions.UNSUBSCRIBE env plainAddress w = (Fulfilled tt, w)).
    { unfold actions.UNSUBSCRIBE, bind, getState. rewrite Hl. reflexivity. }
    rewrite Hrun. split; [|left; reflexivity].
    exists []. split; [symmetry; apply app_nil_r|]. intros h Hh. inversion Hh. }
  rewrite (UNSUBSCRIBE_runCalls env w plainAddress entries Hl Hne). unfold bind.
  destruct (runCalls_done env (closeCalls entries) w) as (done & Hsub & Hw).
  assert (Hdone : forall h, h ∈ closedHandles done ->
            exists entry, entry ∈ entries /\ h ∈ handlesOf entry).
  { intros h Hh. apply closedHandles_closeCalls.
    unfold closedHandles in *. apply list_elem_of_omap in Hh.
    destruct Hh as (ev & Hev & Hclosed). apply list_elem_of_omap. exists ev.
    split; [eapply elem_of_sublist; eassumption|exact Hclosed]. }
  destruct (runCalls env (closeCalls entries) w) as [[u|e|] w']; simpl in Hw; subst w'; simpl.
  - split; [|right; reflexivity].
    exists (done ++ [Committed (Commit.updateSubscriptions plainAddress None)]).
    split; [symmetry; apply app_assoc|].
    intros h Hh. apply Hdone. unfold closedHandles in *.
    rewrite omap_app in Hh. simpl in Hh. rewrite app_nil_r in Hh. exact Hh.
  - split; [|left; reflexivity]. exists done. split; [reflexivity|exact Hdone].
  - split; [|left; reflexivity]. exists done. split; [reflexivity|exact Hdone].
Qed.

(** X5. However [UNSUBSCRIBE] of an address settles, the only handles it
    closes are handles of the entry sets registered for that address, and the
    state is either untouched or the one in which just that address is
    unset: the entries of other addresses and all other fields stay. *)
Theorem unsubscribe_touches_one_address (env : Env) (w : World) (plainAddress : string) :
  (exists events,
     trace (actions.UNSUBSCRIBE env plainAddress w).2 = trace w ++ events /\
     forall h, h ∈ closedHandles events ->
       exists entry,
         entry ∈ default [] (subscriptions (state w) !! plainAddress) /\ h ∈ handlesOf entry) /\
  (state (actions.UNSUBSCRIBE env plainAddress w).2 = state w \/
   state (actions.UNSUBSCRIBE env plainAddress w).2 =
     mutations.updateSubscriptions (state w) plainAddress None) /\
  forall other, other <> plainAddress ->
    subscriptions (state (actions.UNSUBSCRIBE env plainAddress w).2) !! other =
    subscriptions (state w) !! other.
Proof.
  destruct (UNSUBSCRIBE_effect env w plainAddress) as [Htrace Hstate].
  split; [exact Htrace|]. split; [exact Hstate|].
  intros other Hne. destruct Hstate as [-> | ->]; [reflexivity|].
  unfold mutations.updateSubscriptions. rewrite subscriptions_assign.
  apply lookup_delete_ne. congruence.
Qed.

(** X6. [UNSUBSCRIBE] is idempotent: once it has been fulfilled for an
    address, unsubscribing that address again is fulfilled without closing
    anything and without committing anything. *)
Theorem unsubscribe_twice (env : Env) (w w1 : World) (plainAddress : string) :
  actions.UNSUBSCRIBE env plainAddress w = (Fulfilled tt, w1) ->
  actions.UNSUBSCRIBE env plainAddress w1 = (Fulfilled tt, w1).
Proof.
  intros Hrun.
  destruct (subscriptions (state w) !! plainAddress) as [entries|] eqn:Hl.
  2:{ rewrite UNSUBSCRIBE_nothing in Hrun by exact Hl. injection Hrun as <-.
      apply UNSUBSCRIBE_nothing. exact Hl. }
  destruct (decide (entries = [])) as [->|Hne].
  { assert (H0 : actions.UNSUBSCRIBE env plainAddress w = (Fulfilled tt, w)).
    { unfold actions.UNSUBSCRIBE, bind, getState. rewrite Hl. reflexivity. }
    rewrite H0 in Hrun. injection Hrun as <-. exact H0. }
  rewrite (UNSUBSCRIBE_runCalls env w plainAddress entries Hl Hne) in Hrun.
  unfold bind in Hrun.
  destruct (runCalls env (closeCalls entries) w) as [[u|e|] w']; try discriminate.
  injection Hrun as <-. apply UNSUBSCRIBE_nothing.
  simpl. rewrite subscriptions_assign. apply lookup_delete_eq.
Qed.

Lemma unsubscribe_twice_witness :
  actions.UNSUBSCRIBE Sample.quiet "TA" Sample.subscribed =
    (Fulfilled tt, (actions.UNSUBSCRIBE Sample.quiet "TA" Sample.subscribed).2) /\
  actions.UNSUBSCRIBE Sample.quiet "TA" (actions.UNSUBSCRIBE Sample.quiet "TA" Sample.subscribed).2 =
    (Fulfilled tt, (actions.UNSUBSCRIBE Sample.quiet "TA" Sample.subscribed).2).
Proof.
  assert (H : actions.UNSUBSCRIBE Sample.quiet "TA" Sample.subscribed =
                (Fulfilled tt, (actions.UNSUBSCRIBE Sample.quiet "TA" Sample.subscribed).2))
    by (vm_compute; reflexivity).
  split; [exact H|]. exact (unsubscribe_twice Sample.quiet _ _ "TA" H).
Defined.

(** ** The aggregate announce, whatever the observable does *)

Lemma pipe_settles (env : Env) (signedLock signedPartial : SignedTransaction)
    (source : Rx.Observable Transaction) (last : option (BroadcastResult SignedTransaction))
    (w : World) :
  exists r,
    Rx.toPromise_last last
      (Rx.tap (fun _ => actions.removeBoth signedLock signedPartial)
         (actions.announcePartialPipe env signedPartial source) w).1 = Fulfilled r /\
    (r = last \/ exists b, r = Some b /\ transaction b = signedPartial).
Proof.
  unfold actions.announcePartialPipe.
  set (due := AGGREGATE_BROADCAST_TIMEOUT env).
  revert last w. induction source as [|[dt n] rest IH]; intros last w.
  - simpl. eexists. split; [reflexivity|]. right. eexists. split; reflexivity.
  - destruct n as [v|e|]; simpl.
    + destruct (dt <? due)%Z; simpl.
      * specialize (IH (Some (mkBroadcastResult signedPartial true None))
                      (actions.removeBoth signedLock signedPartial w)).
        destruct (Rx.tap _ _ (actions.removeBoth signedLock signedPartial w)) as [out w'].
        simpl in *. destruct IH as (r & Hr & Hcase). exists r. split; [exact Hr|].
        right. destruct Hcase as [->|Hb]; [|exact Hb]. eexists. split; reflexivity.
      * eexists. split; [reflexivity|]. right. eexists. split; reflexivity.
    + destruct (dt + 0 <? due)%Z; simpl.
      * destruct (0 <? due)%Z; simpl;
          (eexists; split; [reflexivity|]; right; eexists; split; reflexivity).
      * eexists. split; [reflexivity|]. right. eexists. split; reflexivity.
    + destruct (dt <? due)%Z; simpl.
      * eexists. split; [reflexivity|]. left. reflexivity.
      * eexists. split; [reflexivity|]. right. eexists. split; reflexivity.
Qed.

(** X7. Whatever the issuer and whatever the observable of the SDK does
    (values, error, completion or silence, at any time), the promise of
    [REST_ANNOUNCE_PARTIAL] is fulfilled: it is never rejected and never left
    pending; and a result it holds is a result about the partial
    transaction. *)
Theorem announce_partial_always_fulfilled
    (env : Env) (w : World) (issuer : option string) (signedLock signedPartial : SignedTransaction) :
  exists r,
    (actions.REST_ANNOUNCE_PARTIAL env issuer signedLock signedPartial w).1 = Fulfilled r /\
    forall b, r = Some b -> transaction b = signedPartial.
Proof.
  unfold actions.REST_ANNOUNCE_PARTIAL. destruct (invalidIssuer issuer).
  - exists None. split; [reflexivity|]. discriminate.
  - unfold bind, dispatchRoot, emit.
    match goal with |- context [Rx.tap ?f ?p ?w0] =>
      destruct (pipe_settles env signedLock signedPartial
                  (announceHashLockAggregateBonded env signedLock signedPartial) None w0)
        as (r & Hr & Hcase);
      destruct (Rx.tap f p w0) as [out w'] eqn:Htap
    end.
    simpl in *. exists r. split; [exact Hr|].
    intros b ->. destruct Hcase as [H|(b' & [= ->] & Hb)]; [discriminate|exact Hb].
Qed.

(** ** What the actions leave alone *)

Lemma info_late m : infoMutation m -> lateMutation m.
Proof. destruct m; simpl; tauto. Qed.

Lemma late_signer m : lateMutation m -> signerMutation m.
Proof. destruct m; simpl; tauto. Qed.

Lemma signer_action m : signerMutation m -> actionMutation m.
Proof. destruct m; simpl; tauto. Qed.

Section Stability.

Variable env : Env.
Variable P : AccountState -> Prop.

Lemma onState_record ev w : onState P w -> onState P (record ev w).
Proof. intros H. exact H. Qed.

Lemma onState_committed m w :
  (forall s, P s -> P (mutate m s)) -> onState P w -> onState P (committed m w).
Proof. intros Hm H. apply Hm. exact H. Qed.

(** The state [UNSUBSCRIBE] leaves is the old one, or the old one with the
    address unset. *)
Lemma UNSUBSCRIBE_onState plainAddress :
  (forall s, P s -> P (mutations.updateSubscriptions s plainAddress None)) ->
  keeps (onState P) (actions.UNSUBSCRIBE env plainAddress).
Proof.
  intros Hm w H. unfold onState in *.
  destruct (UNSUBSCRIBE_effect env w plainAddress) as [_ [-> | ->]].
  - exact H.
  - apply Hm. exact H.
Qed.

Lemma SUBSCRIBE_onState address :
  (forall s a entry, P s -> P (mutations.updateSubscriptions s a (Some entry))) ->
  keeps (onState P) (actions.SUBSCRIBE env address).
Proof.
  intros Hm w H. destruct address as [a|]; [|exact H].
  unfold actions.SUBSCRIBE, actions.subscribeTransactionChannels, bind, call.
  destruct (openChannels env (plain a)) as [streams|e]; [|exact H].
  apply Hm. exact H.
Qed.

Lemma initialize_onState address :
  (forall s, P s -> P (mutate (Commit.setInitialized true) s)) ->
  keeps (onState P) (actions.initialize address).
Proof.
  intros Hm. unfold actions.initialize, actions.Lock_initialize.
  destruct address as [a|]; [|apply keeps_ret].
  destruct (String.length a =? 0)%nat; [apply keeps_ret|].
  apply keeps_commit. intros w H. apply onState_committed; assumption.
Qed.

Section Info.

Hypothesis HP : forall m s, infoMutation m -> P s -> P (mutate m s).

Lemma LOAD_ACCOUNT_INFO_onState : keeps (onState P) (actions.LOAD_ACCOUNT_INFO env).
Proof.
  unfold actions.LOAD_ACCOUNT_INFO.
  repeat keeps_step
    ltac:(first [ apply onState_record; assumption
                | apply onState_committed; [intros; apply HP; [exact I|assumption]|assumption] ]).
Qed.

End Info.

Section Late.

Hypothesis HP : forall m s, lateMutation m -> P s -> P (mutate m s).

Lemma signerTail_onState previous signerAddress :
  keeps (onState P) (signerTail env previous signerAddress).
Proof.
  pose proof (fun a => UNSUBSCRIBE_onState a (fun s => HP (Commit.updateSubscriptions a None) s I))
    as Hunsub.
  pose proof (fun a => SUBSCRIBE_onState a
                (fun s x entry => HP (Commit.updateSubscriptions x (Some entry)) s I)) as Hsub.
  pose proof (LOAD_ACCOUNT_INFO_onState (fun m s Hm => HP m s (info_late m Hm))) as Hload.
  unfold signerTail.
  repeat keeps_step ltac:(apply onState_record; assumption).
Qed.

End Late.

Section Signer.

Hypothesis HP : forall m s, signerMutation m -> P s -> P (mutate m s).

Lemma SET_CURRENT_SIGNER_onState publicKey :
  keeps (onState P) (actions.SET_CURRENT_SIGNER env publicKey).
Proof.
  pose proof (fun a => UNSUBSCRIBE_onState a (fun s => HP (Commit.updateSubscriptions a None) s I))
    as Hunsub.
  pose proof (fun a => SUBSCRIBE_onState a
                (fun s x entry => HP (Commit.updateSubscriptions x (Some entry)) s I)) as Hsub.
  pose proof (LOAD_ACCOUNT_INFO_onState
                (fun m s Hm => HP m s (late_signer m (info_late m Hm)))) as Hload.
  unfold actions.SET_CURRENT_SIGNER.
  repeat keeps_step
    ltac:(first [ apply onState_record; assumption
                | apply onState_committed; [intros; apply HP; [exact I|assumption]|assumption] ]).
Qed.

End Signer.

Section AllActions.

Hypothesis HP : forall m s, actionMutation m -> P s -> P (mutate m s).

(** A property of the state that every mutation committed by an action
    keeps is kept by every operation, however it settles. *)
Lemma dispatch_onState op w : P (state w) -> P (state (dispatch env op w)).
Proof.
  pose proof (fun a => UNSUBSCRIBE_onState a (fun s => HP (Commit.updateSubscriptions a None) s I))
    as Hunsub.
  pose proof (fun a => SUBSCRIBE_onState a
                (fun s x entry => HP (Commit.updateSubscriptions x (Some entry)) s I)) as Hsub.
  pose proof (LOAD_ACCOUNT_INFO_onState
                (fun m s Hm => HP m s (signer_action m (late_signer m (info_late m Hm))))) as Hload.
  pose proof (SET_CURRENT_SIGNER_onState (fun m s Hm => HP m s (signer_action m Hm))) as Hsigner.
  pose proof (fun a => initialize_onState a (fun s => HP (Commit.setInitialized true) s I)) as Hinit.
  assert (Hk : forall A (a : Action A), keeps (onState P) a ->
                 forall w, P (state w) -> P (state (a w).2)) by (intros A a H; exact H).
  intros H. destruct op; cbn [dispatch]; apply Hk; try exact H; clear w H.
  - apply Hinit.
  - unfold actions.uninitialize, actions.Lock_uninitialize.
    repeat keeps_step
      ltac:(first [ apply onState_record; assumption
                  | apply onState_committed; [intros; apply HP; [exact I|assumption]|assumption] ]).
  - unfold actions.SET_CURRENT_ACCOUNT.
    repeat keeps_step
      ltac:(first [ apply onState_record; assumption
                  | apply onState_committed; [intros; apply HP; [exact I|assumption]|assumption] ]).
  - unfold actions.RESET_CURRENT_ACCOUNT.
    repeat keeps_step
      ltac:(first [ apply onState_record; assumption
                  | apply onState_committed; [intros; apply HP; [exact I|assumption]|assumption] ]).
  - apply Hsigner.
  - unfold actions.NETWORK_CHANGED. repeat keeps_step ltac:(apply onState_record; assumption).
  - apply Hload.
  - unfold actions.UPDATE_CURRENT_ACCOUNT_NAME.
    repeat keeps_step
      ltac:(first [ apply onState_record; assumption
                  | apply onState_committed; [intros; apply HP; [exact I|assumption]|assumption] ]).
  - unfold actions.SET_KNOWN_ACCOUNTS.
    repeat keeps_step
      ltac:(apply onState_committed; [intros; apply HP; [exact I|assumption]|assumption]).
  - unfold actions.ADD_STAGED_TRANSACTION.
    repeat keeps_step
      ltac:(apply onState_committed; [intros; apply HP; [exact I|assumption]|assumption]).
  - unfold actions.CLEAR_STAGED_TRANSACTIONS.
    repeat keeps_step
      ltac:(apply onState_committed; [intros; apply HP; [exact I|assumption]|assumption]).
  - unfold actions.RESET_TRANSACTION_STAGE.
    repeat keeps_step
      ltac:(apply onState_committed; [intros; apply HP; [exact I|assumption]|assumption]).
  - apply Hsub.
  - apply Hunsub.
  - unfold actions.REST_ANNOUNCE_PARTIAL.
    destruct (invalidIssuer issuer); [apply keeps_ret|].
    do 2 (apply keeps_bind; [apply keeps_emit; intros; apply onState_record; assumption|intros _]).
    intros w H.
    pose proof (keeps_tap (onState P)
                  (fun _ => actions.removeBoth signedLock signedPartial)
                  (actions.announcePartialPipe env signedPartial
                     (announceHashLockAggregateBonded env signedLock signedPartial)) w) as Ht.
    destruct (Rx.tap _ _ w) as [out w']. simpl in *. apply Ht; [|exact H].
    intros _ w0 H0. unfold actions.removeBoth.
    do 2 (apply onState_committed; [intros; apply HP; [exact I|assumption]|]). exact H0.
  - unfold actions.REST_ANNOUNCE_TRANSACTION.
    repeat keeps_step
      ltac:(first [ apply onState_record; assumption
                  | apply onState_committed; [intros; apply HP; [exact I|assumption]|assumption] ]).
  - unfold actions.REST_ANNOUNCE_COSIGNATURE.
    repeat keeps_step ltac:(apply onState_record; assumption).
Qed.

End AllActions.

End Stability.

(** Settles a stability hypothesis for a property that reads fields the
    mutations at hand do not write. *)
Ltac by_fields :=
  let m := fresh "m" in
  let s := fresh "s" in
  let Hm := fresh "Hm" in
  let Hs := fresh "Hs" in
  intros m s Hm Hs; destruct m; try contradiction;
  try match goal with |- context [Commit.updateSubscriptions _ ?x] => destruct x end;
  try (destruct s; exact Hs).

(** X8. No operation of the store signs: after any action, however it
    settles, the signed transactions are a subsequence of what they were. Only
    a component that commits [addSignedTransaction] itself adds one. *)
Theorem operations_never_sign (env : Env) (op : Operation) (w : World) :
  signedTransactions (state (dispatch env op w)) `sublist_of` signedTransactions (state w).
Proof.
  apply (dispatch_onState env (fun s => signedTransactions s `sublist_of` signedTransactions (state w)));
    [|reflexivity].
  by_fields.
  etransitivity; [apply removeSignedTransaction_sublist|exact Hs].
Qed.

(** ** The current signer *)

Section CurrentSigner.

Variable env : Env.

Lemma SET_CURRENT_SIGNER_same publicKey signerAddress w :
  String.length publicKey <> 0 ->
  createFromPublicKey env publicKey (network_networkType env) = Normal signerAddress ->
  currentSignerAddress (state w) = Some signerAddress ->
  actions.SET_CURRENT_SIGNER env publicKey w = (Fulfilled tt, w).
Proof.
  intros Hpk Hcreate Hsame. unfold actions.SET_CURRENT_SIGNER.
  destruct (Nat.eqb_spec (String.length publicKey) 0) as [H0|_]; [contradiction|].
  unfold bind, getState, call. rewrite Hcreate, Hsame. simpl. unfold equals.
  rewrite bool_decide_eq_true_2 by reflexivity. reflexivity.
Qed.

Lemma SET_CURRENT_SIGNER_run publicKey signerAddress account accountAddress profile w :
  String.length publicKey <> 0 ->
  createFromPublicKey env publicKey (network_networkType env) = Normal signerAddress ->
  currentSignerAddress (state w) <> Some signerAddress ->
  currentAccount (state w) = Some account ->
  createFromRawAddress env (account_address account) = Normal accountAddress ->
  profile_currentProfile env = Some profile ->
  actions.SET_CURRENT_SIGNER env publicKey w =
    signerTail env (currentSignerAddress (state w)) signerAddress
      (signerPrepared signerAddress accountAddress (getKnownAccounts env (accounts profile)) w).
Proof.
  intros Hpk Hcreate Hother Haccount Hraw Hprofile. unfold actions.SET_CURRENT_SIGNER.
  destruct (Nat.eqb_spec (String.length publicKey) 0) as [H0|_]; [contradiction|].
  unfold bind at 1, getState. unfold bind at 1, call at 1. rewrite Hcreate.
  assert (Hnot : match currentSignerAddress (state w) with
                 | Some previous => equals previous signerAddress
                 | None => false
                 end = false).
  { destruct (currentSignerAddress (state w)) as [previous|]; [|reflexivity].
    simpl. apply bool_decide_eq_false_2. congruence. }
  rewrite Hnot, Haccount, Hprofile.
  unfold bind at 1. unfold bind at 1. unfold bind at 1, call. simpl. rewrite Hraw.
  reflexivity.
Qed.

(** What a fulfilled [SET_CURRENT_SIGNER] went through. *)
Lemma SET_CURRENT_SIGNER_fulfilled publicKey w u w' :
  actions.SET_CURRENT_SIGNER env publicKey w = (Fulfilled u, w') ->
  String.length publicKey <> 0 /\
  exists signerAddress,
    createFromPublicKey env publicKey (network_networkType env) = Normal signerAddress /\
    ((currentSignerAddress (state w) = Some signerAddress /\ w' = w) \/
     (currentSignerAddress (state w) <> Some signerAddress /\
      exists account accountAddress profile,
        currentAccount (state w) = Some account /\
        createFromRawAddress env (account_address account) = Normal accountAddress /\
        profile_currentProfile env = Some profile /\
        signerTail env (currentSignerAddress (state w)) signerAddress
          (signerPrepared signerAddress accountAddress (getKnownAccounts env (accounts profile)) w)
        = (Fulfilled u, w'))).
Proof.
  intros Hrun.
  destruct (Nat.eqb_spec (String.length publicKey) 0) as [H0|Hpk].
  { unfold actions.SET_CURRENT_SIGNER in Hrun.
    destruct (Nat.eqb_spec (String.length publicKey) 0); [discriminate|contradiction]. }
  split; [exact Hpk|].
  destruct (createFromPublicKey env publicKey (network_networkType env))
    as [signerAddress|e] eqn:Hcreate.
  2:{ unfold actions.SET_CURRENT_SIGNER in Hrun.
      destruct (Nat.eqb_spec (String.length publicKey) 0); [contradiction|].
      unfold bind, getState, call in Hrun. rewrite Hcreate in Hrun. discriminate. }
  exists signerAddress. split; [reflexivity|].
  destruct (decide (currentSignerAddress (state w) = Some signerAddress)) as [Hsame|Hother].
  { left. split; [exact Hsame|].
    rewrite (SET_CURRENT_SIGNER_same publicKey signerAddress w Hpk Hcreate Hsame) in Hrun.
    injection Hrun as _ <-. reflexivity. }
  right. split; [exact Hother|].
  assert (Hnot : match currentSignerAddress (state w) with
                 | Some previous => equals previous signerAddress
                 | None => false
                 end = false).
  { destruct (currentSignerAddress (state w)) as [previous|]; [|reflexivity].
    simpl. apply bool_decide_eq_false_2. congruence. }
  destruct (currentAccount (state w)) as [account|] eqn:Haccount.
  2:{ unfold actions.SET_CURRENT_SIGNER in Hrun.
      destruct (Nat.eqb_spec (String.length publicKey) 0); [contradiction|].
      unfold bind, getState, call in Hrun. rewrite Hcreate, Hnot, Haccount in Hrun.
      discriminate. }
  destruct (createFromRawAddress env (account_address account)) as [accountAddress|e] eqn:Hraw.
  2:{ unfold actions.SET_CURRENT_SIGNER in Hrun.
      destruct (Nat.eqb_spec (String.length publicKey) 0); [contradiction|].
      unfold bind, getState, call in Hrun. rewrite Hcreate, Hnot, Haccount in Hrun.
      simpl in Hrun. rewrite Hraw in Hrun. discriminate. }
  destruct (profile_currentProfile env) as [profile|] eqn:Hprofile.
  2:{ unfold actions.SET_CURRENT_SIGNER in Hrun.
      destruct (Nat.eqb_spec (String.length publicKey) 0); [contradiction|].
      unfold bind, getState, call in Hrun. rewrite Hcreate, Hnot, Haccount, Hprofile in Hrun.
      simpl in Hrun. rewrite Hraw in Hrun. discriminate. }
  exists account, accountAddress, profile.
  split; [reflexivity|]. split; [exact Hraw|]. split; [reflexivity|].
  rewrite <- Hrun. symmetry.
  apply (SET_CURRENT_SIGNER_run publicKey signerAddress account accountAddress profile w);
    assumption.
Qed.

End CurrentSigner.

(** X9. A fulfilled [SET_CURRENT_SIGNER] leaves the address of the public
    key as the current signer address, whether it changed the signer or found
    it current already. When it changed it, the account address is the one of
    the current account, the cosignatory mode says whether the two differ and
    the known accounts are those of the current profile, whatever the
    subscriptions and the account information did afterwards. *)
Theorem signer_after_set (env : Env) (publicKey : string) (w w' : World) :
  actions.SET_CURRENT_SIGNER env publicKey w = (Fulfilled tt, w') ->
  exists signerAddress,
    createFromPublicKey env publicKey (network_networkType env) = Normal signerAddress /\
    currentSignerAddress (state w') = Some signerAddress /\
    (currentSignerAddress (state w) <> Some signerAddress ->
     exists account accountAddress profile,
       currentAccount (state w) = Some account /\
       createFromRawAddress env (account_address account) = Normal accountAddress /\
       profile_currentProfile env = Some profile /\
       currentAccountAddress (state w') = Some accountAddress /\
       isCosignatoryMode (state w') = negb (bool_decide (signerAddress = accountAddress)) /\
       knownAccounts (state w') = getKnownAccounts env (accounts profile)).
Proof.
  intros Hrun.
  destruct (SET_CURRENT_SIGNER_fulfilled env publicKey w tt w' Hrun)
    as (_ & signerAddress & Hcreate & Hcase).
  exists signerAddress. split; [exact Hcreate|].
  destruct Hcase as [[Hsame ->]|(Hother & account & accountAddress & profile & Ha & Hraw & Hp & Htail)].
  - split; [exact Hsame|]. intros H. contradiction.
  - set (wp := signerPrepared signerAddress accountAddress
                 (getKnownAccounts env (accounts profile)) w) in *.
    pose proof (signerTail_onState env
                  (fun s => currentSignerAddress s = Some signerAddress /\
                            currentAccountAddress s = Some accountAddress /\
                            isCosignatoryMode s = negb (bool_decide (signerAddress = accountAddress)) /\
                            knownAccounts s = getKnownAccounts env (accounts profile))
                  ltac:(by_fields)
                  (currentSignerAddress (state w)) signerAddress wp) as Hkeep.
    rewrite Htail in Hkeep. unfold onState in Hkeep. simpl in Hkeep.
    assert (Hwp : currentSignerAddress (state wp) = Some signerAddress /\
                  currentAccountAddress (state wp) = Some accountAddress /\
                  isCosignatoryMode (state wp) = negb (bool_decide (signerAddress = accountAddress)) /\
                  knownAccounts (state wp) = getKnownAccounts env (accounts profile)).
    { subst wp. destruct w as [s t n]. destruct s. repeat split. }
    destruct (Hkeep Hwp) as (H1 & H2 & H3 & H4).
    split; [exact H1|]. intros _. exists account, accountAddress, profile.
    repeat split; assumption.
Qed.

Lemma signer_after_set_witness :
  actions.SET_CURRENT_SIGNER Sample.quiet "A"
    (committed (Commit.currentAccount (Some Sample.accountA)) initialWorld) =
    (Fulfilled tt,
     (actions.SET_CURRENT_SIGNER Sample.quiet "A"
        (committed (Commit.currentAccount (Some Sample.accountA)) initialWorld)).2) /\
  exists signerAddress,
    createFromPublicKey Sample.quiet "A" (network_networkType Sample.quiet) = Normal signerAddress /\
    currentSignerAddress
      (state (actions.SET_CURRENT_SIGNER Sample.quiet "A"
                (committed (Commit.currentAccount (Some Sample.accountA)) initialWorld)).2)
    = Some signerAddress.
Proof.
  assert (H : actions.SET_CURRENT_SIGNER Sample.quiet "A"
                (committed (Commit.currentAccount (Some Sample.accountA)) initialWorld) =
              (Fulfilled tt,
               (actions.SET_CURRENT_SIGNER Sample.quiet "A"
                  (committed (Commit.currentAccount (Some Sample.accountA)) initialWorld)).2))
    by (vm_compute; reflexivity).
  split; [exact H|].
  destruct (signer_after_set Sample.quiet "A" _ _ H) as (a & Hcreate & Hsigner & _).
  exists a. split; [exact Hcreate|exact Hsigner].
Defined.

Lemma SET_CURRENT_SIGNER_signer (env : Env) (publicKey : string) (w w' : World) (u : unit) :
  actions.SET_CURRENT_SIGNER env publicKey w = (Fulfilled u, w') ->
  String.length publicKey <> 0 /\
  exists signerAddress,
    createFromPublicKey env publicKey (network_networkType env) = Normal signerAddress /\
    currentSignerAddress (state w') = Some signerAddress.
Proof.
  intros Hrun.
  destruct (SET_CURRENT_SIGNER_fulfilled env publicKey w u w' Hrun)
    as (Hpk & signerAddress & Hcreate & Hcase).
  split; [exact Hpk|]. exists signerAddress. split; [exact Hcreate|].
  destruct Hcase as [[Hsame ->]|(Hother & account & accountAddress & profile & Ha & Hraw & Hp & Htail)].
  - exact Hsame.
  - pose proof (signerTail_onState env (fun s => currentSignerAddress s = Some signerAddress)
                  ltac:(by_fields) (currentSignerAddress (state w)) signerAddress
                  (signerPrepared signerAddress accountAddress
                     (getKnownAccounts env (accounts profile)) w)) as Hkeep.
    rewrite Htail in Hkeep. apply Hkeep.
    destruct w as [s t n]. destruct s. reflexivity.
Qed.

(** X10. [SET_CURRENT_SIGNER] is idempotent: once it has been fulfilled for
    a public key, calling it again with that key is fulfilled and changes
    nothing, neither the state nor the trace: no reset of the transactions, no
    closing or opening of subscriptions, no reload. *)
Theorem signer_twice (env : Env) (publicKey : string) (w w' : World) :
  actions.SET_CURRENT_SIGNER env publicKey w = (Fulfilled tt, w') ->
  actions.SET_CURRENT_SIGNER env publicKey w' = (Fulfilled tt, w').
Proof.
  intros Hrun.
  destruct (SET_CURRENT_SIGNER_signer env publicKey w w' tt Hrun)
    as (Hpk & signerAddress & Hcreate & Hsigner).
  exact (SET_CURRENT_SIGNER_same env publicKey signerAddress w' Hpk Hcreate Hsigner).
Qed.

Lemma signer_twice_witness :
  actions.SET_CURRENT_SIGNER Sample.quiet "A"
    (committed (Commit.currentAccount (Some Sample.accountA)) initialWorld) =
    (Fulfilled tt,
     (actions.SET_CURRENT_SIGNER Sample.quiet "A"
        (committed (Commit.currentAccount (Some Sample.accountA)) initialWorld)).2) /\
  actions.SET_CURRENT_SIGNER Sample.quiet "A"
    (actions.SET_CURRENT_SIGNER Sample.quiet "A"
       (committed (Commit.currentAccount (Some Sample.accountA)) initialWorld)).2 =
    (Fulfilled tt,
     (actions.SET_CURRENT_SIGNER Sample.quiet "A"
        (committed (Commit.currentAccount (Some Sample.accountA)) initialWorld)).2).
Proof.
  assert (H : actions.SET_CURRENT_SIGNER Sample.quiet "A"
                (committed (Commit.currentAccount (Some Sample.accountA)) initialWorld) =
              (Fulfilled tt,
               (actions.SET_CURRENT_SIGNER Sample.quiet "A"
                  (committed (Commit.currentAccount (Some Sample.accountA)) initialWorld)).2))
    by (vm_compute; reflexivity).
  split; [exact H|]. exact (signer_twice Sample.quiet "A" _ _ H).
Defined.

(** X11. Without a current account, or without a current profile,
    [SET_CURRENT_SIGNER] writes nothing to the state, whatever the public
    key; and it is fulfilled only when the key is the current signer's
    already. *)
Theorem signer_needs_account_and_profile (env : Env) (publicKey : string) (w : World) :
  currentAccount (state w) = None \/ profile_currentProfile env = None ->
  state (actions.SET_CURRENT_SIGNER env publicKey w).2 = state w /\
  ((actions.SET_CURRENT_SIGNER env publicKey w).1 = Fulfilled tt ->
   exists signerAddress,
     createFromPublicKey env publicKey (network_networkType env) = Normal signerAddress /\
     currentSignerAddress (state w) = Some signerAddress).
Proof.
  intros Hmissing. split.
  - unfold actions.SET_CURRENT_SIGNER.
    destruct (String.length publicKey =? 0)%nat; [reflexivity|].
    unfold bind, getState, call.
    destruct (createFromPublicKey env publicKey (network_networkType env)) as [a|e];
      [|reflexivity].
    destruct (match currentSignerAddress (state w) with
              | Some previous => equals previous a
              | None => false
              end); [reflexivity|].
    simpl.
    destruct (currentAccount (state w)) as [account|]; [|reflexivity].
    destruct (createFromRawAddress env (account_address account)); [|reflexivity].
    destruct (profile_currentProfile env); [|reflexivity].
    destruct Hmissing; discriminate.
  - intros Hfst.
    destruct (actions.SET_CURRENT_SIGNER env publicKey w) as [p w'] eqn:Hrun.
    simpl in Hfst. subst p.
    destruct (SET_CURRENT_SIGNER_fulfilled env publicKey w tt w' Hrun)
      as (_ & signerAddress & Hcreate & Hcase).
    exists signerAddress. split; [exact Hcreate|].
    destruct Hcase as [[Hsame _]|(_ & account & accountAddress & profile & Ha & _ & Hp & _)].
    + exact Hsame.
    + destruct Hmissing as [H|H]; congruence.
Qed.

Lemma signer_needs_account_and_profile_witness :
  currentAccount (state initialWorld) = None /\
  state (actions.SET_CURRENT_SIGNER Sample.quiet "A" initialWorld).2 = state initialWorld.
Proof.
  split; [reflexivity|].
  exact (proj1 (signer_needs_account_and_profile Sample.quiet "A" initialWorld
                  (or_introl eq_refl))).
Defined.

(** ** The current account *)

Section CurrentAccount.

Variable env : Env.

Lemma SET_CURRENT_ACCOUNT_same account w :
  sameAccount (currentAccount (state w)) account = true ->
  actions.SET_CURRENT_ACCOUNT env account w = (Fulfilled tt, w).
Proof.
  intros Hsame. unfold sameAccount in Hsame.
  unfold actions.SET_CURRENT_ACCOUNT, bind, getState. rewrite Hsame. reflexivity.
Qed.

Lemma SET_CURRENT_ACCOUNT_throw account e w :
  sameAccount (currentAccount (state w)) account = false ->
  createFromRawAddress env (account_address account) = Throw e ->
  actions.SET_CURRENT_ACCOUNT env account w = (Rejected e, w).
Proof.
  intros Hother Hraw. unfold sameAccount in Hother.
  unfold actions.SET_CURRENT_ACCOUNT, bind, getState, call. rewrite Hother, Hraw. reflexivity.
Qed.

Lemma SET_CURRENT_ACCOUNT_run account accountAddress w :
  sameAccount (currentAccount (state w)) account = false ->
  createFromRawAddress env (account_address account) = Normal accountAddress ->
  actions.SET_CURRENT_ACCOUNT env account w =
    accountTail env account accountAddress (accountPrepared account accountAddress w).
Proof.
  intros Hother Hraw. unfold sameAccount in Hother.
  unfold actions.SET_CURRENT_ACCOUNT, accountTail, accountPrepared.
  unfold bind at 1, getState. rewrite Hother.
  unfold bind at 1, call. rewrite Hraw. reflexivity.
Qed.

(** What follows the commit of the current account keeps it. *)
Lemma accountTail_account account accountAddress :
  keeps (onState (fun s => currentAccount s = Some account))
    (accountTail env account accountAddress).
Proof.
  unfold accountTail.
  apply keeps_bind; [apply SET_CURRENT_SIGNER_onState; by_fields|intros _].
  apply keeps_bind; [apply initialize_onState; intros s Hs; destruct s; exact Hs|intros _].
  apply keeps_emit. intros w0 H0. exact H0.
Qed.

(** After a fulfilled [SET_CURRENT_ACCOUNT] the guard holds. *)
Lemma SET_CURRENT_ACCOUNT_fulfilled account w u w' :
  actions.SET_CURRENT_ACCOUNT env account w = (Fulfilled u, w') ->
  sameAccount (currentAccount (state w')) account = true.
Proof.
  intros Hrun.
  destruct (sameAccount (currentAccount (state w)) account) eqn:Hguard.
  - rewrite (SET_CURRENT_ACCOUNT_same account w Hguard) in Hrun.
    injection Hrun as _ <-. exact Hguard.
  - destruct (createFromRawAddress env (account_address account)) as [accountAddress|e] eqn:Hraw.
    + rewrite (SET_CURRENT_ACCOUNT_run account accountAddress w Hguard Hraw) in Hrun.
      pose proof (accountTail_account account accountAddress
                    (accountPrepared account accountAddress w)) as Hkeep.
      rewrite Hrun in Hkeep. unfold onState in Hkeep. simpl in Hkeep.
      rewrite Hkeep.
      * unfold sameAccount. apply String.eqb_refl.
      * destruct w as [s t n]. destruct s. reflexivity.
    + rewrite (SET_CURRENT_ACCOUNT_throw account e w Hguard Hraw) in Hrun. discriminate.
Qed.

End CurrentAccount.

(** X12. [SET_CURRENT_ACCOUNT] is idempotent: once it has been fulfilled
    for an account, calling it again with that account is fulfilled and
    changes neither the state nor the trace, so that no subscription is
    closed or opened by the second call. *)
Theorem account_twice (env : Env) (account : AccountModel) (w w' : World) :
  actions.SET_CURRENT_ACCOUNT env account w = (Fulfilled tt, w') ->
  actions.SET_CURRENT_ACCOUNT env account w' = (Fulfilled tt, w').
Proof.
  intros Hrun. apply SET_CURRENT_ACCOUNT_same.
  exact (SET_CURRENT_ACCOUNT_fulfilled env account w tt w' Hrun).
Qed.

Lemma account_twice_witness :
  actions.SET_CURRENT_ACCOUNT Sample.quiet Sample.accountA initialWorld =
    (Fulfilled tt, (actions.SET_CURRENT_ACCOUNT Sample.quiet Sample.accountA initialWorld).2) /\
  actions.SET_CURRENT_ACCOUNT Sample.quiet Sample.accountA
    (actions.SET_CURRENT_ACCOUNT Sample.quiet Sample.accountA initialWorld).2 =
    (Fulfilled tt, (actions.SET_CURRENT_ACCOUNT Sample.quiet Sample.accountA initialWorld).2).
Proof.
  assert (H : actions.SET_CURRENT_ACCOUNT Sample.quiet Sample.accountA initialWorld =
              (Fulfilled tt, (actions.SET_CURRENT_ACCOUNT Sample.quiet Sample.accountA initialWorld).2))
    by (vm_compute; reflexivity).
  split; [exact H|]. exact (account_twice Sample.quiet Sample.accountA _ _ H).
Defined.

(** X13. Selecting an account whose own address is the current signer
    address already (the account one was signing for) replaces the current
    account and nothing else of the identity: [SET_CURRENT_SIGNER] finds the
    signer current and returns, so that [currentAccountAddress],
    [isCosignatoryMode] and the subscriptions stay those of the account left
    behind; the session is marked initialized and the change is emitted. *)
Theorem account_switch_to_signer
    (env : Env) (account : AccountModel) (accountAddress signerAddress : Address) (w : World) :
  sameAccount (currentAccount (state w)) account = false ->
  createFromRawAddress env (account_address account) = Normal accountAddress ->
  String.length (account_publicKey account) <> 0 ->
  createFromPublicKey env (account_publicKey account) (network_networkType env)
    = Normal signerAddress ->
  currentSignerAddress (state w) = Some signerAddress ->
  exists w',
    actions.SET_CURRENT_ACCOUNT env account w = (Fulfilled tt, w') /\
    currentAccount (state w') = Some account /\
    currentSignerAddress (state w') = currentSignerAddress (state w) /\
    currentAccountAddress (state w') = currentAccountAddress (state w) /\
    isCosignatoryMode (state w') = isCosignatoryMode (state w) /\
    subscriptions (state w') = subscriptions (state w) /\
    trace w' = trace w ++
      [Dispatched "diagnostic/ADD_DEBUG"
         ["Store action account/SET_CURRENT_ACCOUNT dispatched with "; plain accountAddress];
       Committed (Commit.currentAccount (Some account))] ++
      (if (String.length (plain accountAddress) =? 0)%nat then []
       else [Committed (Commit.setInitialized true)]) ++
      [Emitted "onAccountChange" (plain accountAddress)].
Proof.
  intros Hguard Hraw Hpk Hcreate Hsigner.
  rewrite (SET_CURRENT_ACCOUNT_run env account accountAddress w Hguard Hraw).
  unfold accountTail. unfold bind at 1.
  rewrite (SET_CURRENT_SIGNER_same env (account_publicKey account) signerAddress
             (accountPrepared account accountAddress w) Hpk Hcreate)
    by (destruct w as [s t n]; destruct s; exact Hsigner).
  unfold actions.initialize, actions.Lock_initialize, bind, emit, commit.
  destruct (String.length (plain accountAddress) =? 0)%nat; simpl;
    (eexists; split; [reflexivity|]);
    destruct w as [s t n]; destruct s; simpl;
    repeat (split; [reflexivity|]); rewrite <- !app_assoc; reflexivity.
Qed.

Lemma account_switch_to_signer_witness :
  exists w',
    actions.SET_CURRENT_ACCOUNT Sample.quiet Sample.accountB
      (dispatch Sample.quiet (SetCurrentSigner "B")
         (dispatch Sample.quiet (SetCurrentAccount Sample.accountA) initialWorld))
    = (Fulfilled tt, w') /\
    currentAccount (state w') = Some Sample.accountB /\
    currentAccountAddress (state w') = Some Sample.addressA /\
    isCosignatoryMode (state w') = true.
Proof.
  destruct (account_switch_to_signer Sample.quiet Sample.accountB Sample.addressB Sample.addressB
              (dispatch Sample.quiet (SetCurrentSigner "B")
                 (dispatch Sample.quiet (SetCurrentAccount Sample.accountA) initialWorld)))
    as (w' & Hrun & Haccount & _ & Haddress & Hmode & _).
  - vm_compute. reflexivity.
  - reflexivity.
  - discriminate.
  - reflexivity.
  - vm_compute. reflexivity.
  - exists w'. split; [exact Hrun|]. split; [exact Haccount|].
    split; [rewrite Haddress; vm_compute; reflexivity|rewrite Hmode; vm_compute; reflexivity].
Defined.

(** X14. From a state in which the invariant of the cosignatory mode holds
    (the flag is set iff signer address and account address differ), an
    operation leaves it holding, however it settles, unless it is
    [RESET_CURRENT_ACCOUNT] met in cosignatory mode; that one breaks it. *)
Theorem operations_and_cosignatory_invariant (env : Env) (op : Operation) (w : World) :
  cosignatoryInvariant (state w) ->
  (cosignatoryInvariant (state (dispatch env op w)) <->
   op <> ResetCurrentAccount \/ isCosignatoryMode (state w) = false).
Proof.
  intros Hinv. split.
  - intros Hafter. destruct op; try (left; discriminate).
    right. apply (RESET_CURRENT_ACCOUNT_invariant env w). exact Hafter.
  - intros [Hop|Hflag].
    + apply dispatch_keeps_invariant; assumption.
    + destruct op; try (apply dispatch_keeps_invariant; [discriminate|assumption]).
      apply (RESET_CURRENT_ACCOUNT_invariant env w). exact Hflag.
Qed.

Lemma operations_and_cosignatory_invariant_witness :
  cosignatoryInvariant (state initialWorld) /\
  cosignatoryInvariant
    (state (dispatch Sample.quiet (SetCurrentAccount Sample.accountA) initialWorld)).
Proof.
  assert (H : cosignatoryInvariant (state initialWorld)).
  { split; [discriminate|]. intros Hne. contradiction Hne. reflexivity. }
  split; [exact H|].
  apply (operations_and_cosignatory_invariant Sample.quiet
           (SetCurrentAccount Sample.accountA) initialWorld H).
  left. discriminate.
Defined.

(** X15. [REST_ANNOUNCE_COSIGNATURE] is always fulfilled: the result says
    [success] when the announce went through and carries the error when it
    did not. It announces once and leaves the state, signed and staged
    transactions included, as it was. *)
Theorem cosignature_announce (env : Env) (cosignature : CosignatureSignedTransaction) (w : World) :
  exists w',
    actions.REST_ANNOUNCE_COSIGNATURE env cosignature w =
      (Fulfilled
         match announceAggregateBondedCosignature env cosignature with
         | Normal _ => mkBroadcastResult cosignature true None
         | Throw e => mkBroadcastResult cosignature false (Some e)
         end, w') /\
    state w' = state w /\
    trace w' = trace w ++
      [Dispatched "diagnostic/ADD_DEBUG"
         ["Store action account/REST_ANNOUNCE_COSIGNATURE dispatched with: ";
          parentHash cosignature; signature cosignature; cosigner_publicKey cosignature];
       AnnouncedCosignature cosignature].
Proof.
  unfold actions.REST_ANNOUNCE_COSIGNATURE, bind, tryCatch, dispatchRoot, emit, call, ret.
  destruct (announceAggregateBondedCosignature env cosignature) as [u|e]; simpl;
    (eexists; split; [reflexivity|]; split; [reflexivity|]);
    simpl; rewrite <- app_assoc; reflexivity.
Qed.

(** ** Loading the account information *)

Section UniqBy.

Context {A : Type} (key : A -> string).

Lemma existsb_seen (k : string) (seen : list string) :
  existsb (String.eqb k) seen = true <-> k ∈ seen.
Proof.
  rewrite existsb_exists. split.
  - intros (x & Hin & Heq). apply String.eqb_eq in Heq. subst x.
    apply list_elem_of_In. exact Hin.
  - intros Hin. exists k. split; [apply list_elem_of_In; exact Hin|apply String.eqb_refl].
Qed.

Lemma uniqBy_seen_spec (seen : list string) (arr : list A) :
  JsArray.uniqBy_seen key seen arr `sublist_of` arr /\
  NoDup (key <$> JsArray.uniqBy_seen key seen arr) /\
  (forall x, x ∈ JsArray.uniqBy_seen key seen arr -> key x ∉ seen) /\
  (forall x, x ∈ arr -> key x ∈ seen \/ key x ∈ key <$> JsArray.uniqBy_seen key seen arr).
Proof.
  revert seen. induction arr as [|x rest IH]; intros seen; simpl.
  - split; [constructor|]. split; [constructor|].
    split; intros x Hx; inversion Hx.
  - destruct (existsb (String.eqb (key x)) seen) eqn:Hseen.
    + apply existsb_seen in Hseen.
      destruct (IH seen) as (Hsub & Hnd & Hnot & Hall).
      split; [apply sublist_cons, Hsub|]. split; [exact Hnd|]. split; [exact Hnot|].
      intros y Hy. apply elem_of_cons in Hy. destruct Hy as [->|Hy].
      * left. exact Hseen.
      * apply Hall. exact Hy.
    + assert (Hfresh : key x ∉ seen).
      { intros Hin. apply existsb_seen in Hin. congruence. }
      destruct (IH (key x :: seen)) as (Hsub & Hnd & Hnot & Hall).
      split; [apply sublist_skip, Hsub|]. split; [|split].
      * rewrite fmap_cons. apply NoDup_cons. split; [|exact Hnd].
        intros Hin. apply list_elem_of_fmap in Hin. destruct Hin as (y & Hk & Hy).
        apply (Hnot y Hy). rewrite <- Hk. left.
      * intros y Hy. apply elem_of_cons in Hy. destruct Hy as [->|Hy]; [exact Hfresh|].
        intros Hin. apply (Hnot y Hy). right. exact Hin.
      * intros y Hy. rewrite fmap_cons. apply elem_of_cons in Hy. destruct Hy as [->|Hy].
        -- right. left.
        -- destruct (Hall y Hy) as [Hin|Hin].
           ++ apply elem_of_cons in Hin. destruct Hin as [->|Hin]; [right; left|left; exact Hin].
           ++ right. right. exact Hin.
Qed.

(** [uniqBy]: a subsequence with one element, the first, for every key. *)
Lemma uniqBy_spec (arr : list A) :
  JsArray.uniqBy arr key `sublist_of` arr /\
  NoDup (key <$> JsArray.uniqBy arr key) /\
  (forall x, x ∈ arr -> key x ∈ key <$> JsArray.uniqBy arr key).
Proof.
  unfold JsArray.uniqBy. destruct (uniqBy_seen_spec [] arr) as (Hsub & Hnd & _ & Hall).
  split; [exact Hsub|]. split; [exact Hnd|].
  intros x Hx. destruct (Hall x Hx) as [Hin|Hin]; [inversion Hin|exact Hin].
Qed.

End UniqBy.

Section FirstOfEachKey.

Context {A : Type} (key : A -> string).

Lemma uniqBy_seen_first (pre rest : list A) (seen : list string) :
  (forall k, k ∈ seen <-> k ∈ key <$> pre) ->
  JsArray.uniqBy_seen key seen rest =
  (filter (fun ia => key ia.2 ∉ key <$> take ia.1 (pre ++ rest))
     (imap (fun i x => (length pre + i, x)) rest)).*2.
Proof.
  revert pre seen. induction rest as [|x rest IH]; intros pre seen Hseen; [reflexivity|].
  assert (Hshift :
    (filter (fun ia => key ia.2 ∉ key <$> take ia.1 (pre ++ x :: rest))
       (imap ((fun i y => (length pre + i, y)) ∘ S) rest)).*2 =
    (filter (fun ia => key ia.2 ∉ key <$> take ia.1 ((pre ++ [x]) ++ rest))
       (imap (fun i y => (length (pre ++ [x]) + i, y)) rest)).*2).
  { rewrite <- app_assoc. simpl. f_equal. f_equal. apply imap_ext.
    intros i y _. simpl. rewrite length_app. simpl. f_equal. lia. }
  cbn [JsArray.uniqBy_seen imap]. rewrite filter_cons. cbn [fst snd].
  rewrite Nat.add_0_r, take_app_length.
  destruct (existsb (String.eqb (key x)) seen) eqn:Hx.
  - apply existsb_seen in Hx.
    rewrite decide_False by (intros Hnot; apply Hnot, Hseen, Hx).
    rewrite Hshift.
    apply IH. intros k. rewrite fmap_app, elem_of_app. split.
    + intros Hk. left. apply Hseen, Hk.
    + intros [Hk|Hk]; [apply Hseen, Hk|].
      apply list_elem_of_singleton in Hk. subst k. exact Hx.
  - assert (Hfresh : key x ∉ key <$> pre).
    { intros Hin. apply Hseen, existsb_seen in Hin. congruence. }
    rewrite decide_True by exact Hfresh. rewrite fmap_cons. cbn [snd]. f_equal.
    rewrite Hshift.
    apply IH. intros k. rewrite fmap_app, elem_of_app, elem_of_cons. split.
    + intros [->|Hk]; [right; left|left; apply Hseen, Hk].
    + intros [Hk|Hk]; [right; apply Hseen, Hk|].
      apply list_elem_of_singleton in Hk. left. exact Hk.
Qed.

(** [uniqBy] keeps an element exactly when no element before it has its
    key, and keeps the order. *)
Lemma uniqBy_first (arr : list A) : JsArray.uniqBy arr key = firstOfEachKey key arr.
Proof.
  unfold JsArray.uniqBy, firstOfEachKey.
  rewrite (uniqBy_seen_first [] arr []).
  - reflexivity.
  - intros k. split; intros H; inversion H.
Qed.

End FirstOfEachKey.

Section LoadAccountInfo.

Variable env : Env.



Lemma findCompletion_nil {A : Type} (p : A -> Completion bool) :
  findCompletion p [] = Normal None.
Proof. reflexivity. Qed.

(** [LOAD_ACCOUNT_INFO], path by path. *)
Lemma LOAD_ACCOUNT_INFO_run w :
  actions.LOAD_ACCOUNT_INFO env w =
  match getMultisigAccountGraphInfo env (currentAccountAddress (state w)) with
  | Throw e => (Rejected e, graphFetched w)
  | Normal graph =>
      match multisigInfoOf (currentAccountAddress (state w)) (delivered graph) with
      | Throw e => (Rejected e, graphFetched w)
      | Normal accountInfo =>
          match multisigInfoOf (currentSignerAddress (state w)) (delivered graph) with
          | Throw e => (Rejected e, graphFetched w)
          | Normal signerInfo =>
              match parsedAddresses env (state w) with
              | Throw e => (Rejected e, graphFetched w)
              | Normal accountAddresses =>
                  let resolved :=
                    getSigners env (network_networkType env) (knownAccounts (state w))
                      (currentAccount (state w)) accountInfo in
                  let addresses :=
                    JsArray.uniqBy (map signer_address resolved ++ accountAddresses) plain in
                  match signerOf (currentSignerAddress (state w)) resolved with
                  | Throw e => (Rejected e, addressesCommitted addresses w)
                  | Normal signer =>
                      match getAccountsInfo env addresses with
                      | Throw e =>
                          (Rejected e,
                           infoCommitted addresses signer resolved (delivered graph)
                             accountInfo signerInfo w)
                      | Normal infos =>
                          (Fulfilled tt,
                           committed (Commit.accountsInfo infos)
                             (infoCommitted addresses signer resolved (delivered graph)
                                accountInfo signerInfo w))
                      end
                  end
              end
          end
      end
  end.
Proof.
  unfold actions.LOAD_ACCOUNT_INFO, multisigInfoOf, signerOf, parsedAddresses, delivered.
  unfold bind at 1, getState. unfold bind at 1, emit. unfold bind at 1, call.
  cbn [state record].
  destruct (getMultisigAccountGraphInfo env (currentAccountAddress (state w))) as [graph|e];
    [|reflexivity].
  unfold bind at 1.
  destruct (findCompletion _ _) as [accountInfo|e]; [|reflexivity].
  unfold bind at 1.
  destruct (findCompletion _ _) as [signerInfo|e]; [|reflexivity].
  unfold bind at 1.
  destruct (mapCompletion _ _) as [accountAddresses|e]; [|reflexivity].
  cbv zeta. unfold bind at 1, commit. unfold bind at 1.
  destruct (findCompletion _ _) as [signer|e]; [|reflexivity].
  unfold bind, commit, emit, call.
  destruct (getAccountsInfo env _) as [infos|e]; reflexivity.
Qed.

End LoadAccountInfo.

Lemma addressesCommitted_state (addresses : list Address) (w : World) :
  state (addressesCommitted addresses w) = Assign.knownAddresses addresses (state w).
Proof. reflexivity. Qed.

Lemma infoCommitted_fields (addresses : list Address) (signer : option Signer)
    (resolved : list Signer) (infos : list MultisigAccountInfo)
    (accountInfo signerInfo : option MultisigAccountInfo) (w : World) :
  let w' := infoCommitted addresses signer resolved infos accountInfo signerInfo w in
  knownAddresses (state w') = addresses /\
  currentSigner (state w') = signer /\
  signers (state w') = resolved /\
  multisigAccountsInfo (state w') = infos /\
  currentAccountMultisigInfo (state w') = accountInfo /\
  currentSignerMultisigInfo (state w') = signerInfo /\
  accountsInfo (state w') = accountsInfo (state w).
Proof. destruct w as [s t n]. destruct s. repeat split; reflexivity. Qed.

Lemma accountsInfo_committed_fields (infos : list AccountInfo) (w : World) :
  let w' := committed (Commit.accountsInfo infos) w in
  knownAddresses (state w') = knownAddresses (state w) /\
  currentSigner (state w') = currentSigner (state w) /\
  signers (state w') = signers (state w) /\
  multisigAccountsInfo (state w') = multisigAccountsInfo (state w) /\
  currentAccountMultisigInfo (state w') = currentAccountMultisigInfo (state w) /\
  currentSignerMultisigInfo (state w') = currentSignerMultisigInfo (state w).
Proof. destruct w as [s t n]. destruct s. repeat split; reflexivity. Qed.

(** X16. Whenever [LOAD_ACCOUNT_INFO] gets as far as its first commit (the
    call for the multisig graph returns, the two lookups in the multisig
    information do not throw and the addresses of the known accounts parse),
    it leaves, however it settles afterwards, known addresses that are the
    signer addresses followed by the account addresses with the later
    duplicates taken out: an address of that list is kept exactly when no
    address before it has its plain form, and the kept ones stay in the
    order of the list. Hence no two have the same plain form and every
    signer and every known account is represented by an address of its
    plain form. *)
Theorem known_addresses_deduplicated
    (env : Env) (w : World) (graph : Completion (list MultisigAccountInfo))
    (accountInfo signerInfo : option MultisigAccountInfo) (accountAddresses : list Address) :
  let all :=
    map signer_address
      (getSigners env (network_networkType env) (knownAccounts (state w))
         (currentAccount (state w)) accountInfo) ++ accountAddresses in
  let known := knownAddresses (state (actions.LOAD_ACCOUNT_INFO env w).2) in
  getMultisigAccountGraphInfo env (currentAccountAddress (state w)) = Normal graph ->
  multisigInfoOf (currentAccountAddress (state w)) (delivered graph) = Normal accountInfo ->
  multisigInfoOf (currentSignerAddress (state w)) (delivered graph) = Normal signerInfo ->
  parsedAddresses env (state w) = Normal accountAddresses ->
  known = firstOfEachKey plain all /\
  known `sublist_of` all /\
  NoDup (plain <$> known) /\
  (forall a, a ∈ all -> plain a ∈ plain <$> known).
Proof.
  intros all known Hgraph Haccount Hsigner Hparsed.
  assert (Hknown : known = JsArray.uniqBy all plain).
  { subst known. rewrite LOAD_ACCOUNT_INFO_run, Hgraph, Haccount, Hsigner, Hparsed. cbv zeta.
    fold all.
    destruct (signerOf (currentSignerAddress (state w)) _) as [signer|e].
    2:{ cbn [snd]. rewrite addressesCommitted_state. destruct (state w); reflexivity. }
    destruct (getAccountsInfo env (JsArray.uniqBy all plain)) as [infos|e]; cbn [snd].
    - destruct (accountsInfo_committed_fields infos
                  (infoCommitted (JsArray.uniqBy all plain) signer
                     (getSigners env (network_networkType env) (knownAccounts (state w))
                        (currentAccount (state w)) accountInfo)
                     (delivered graph) accountInfo signerInfo w)) as (-> & _).
      apply infoCommitted_fields.
    - apply infoCommitted_fields. }
  rewrite Hknown. destruct (uniqBy_spec plain all) as (Hsub & Hnd & Hall).
  split; [apply uniqBy_first|]. split; [exact Hsub|]. split; [exact Hnd|exact Hall].
Qed.

Lemma known_addresses_deduplicated_witness :
  knownAddresses (state (actions.LOAD_ACCOUNT_INFO Sample.quiet selected).2) =
    firstOfEachKey plain [Sample.addressA; Sample.addressA; Sample.addressB] /\
  firstOfEachKey plain [Sample.addressA; Sample.addressA; Sample.addressB] =
    [Sample.addressA; Sample.addressB].
Proof.
  split; [|vm_compute; reflexivity].
  apply (known_addresses_deduplicated Sample.quiet selected (Normal []) None None
           [Sample.addressA; Sample.addressB]); reflexivity.
Defined.

(** X17. When the observable of the multisig graph errors,
    [LOAD_ACCOUNT_INFO] goes on as with an empty graph: the lookups in the
    multisig information have nothing to look through, so that they find
    nothing and do not throw even when an address is unset, and the signers
    are resolved without multisig information. The action is then rejected
    with the state untouched when an address of a known account does not
    parse; rejected after the commit of the known addresses alone when the
    lookup of the current signer throws; and otherwise it commits an empty
    multisig information, none for the current account and none for the
    current signer, and settles as the fetch of the accounts information
    does. *)
Theorem multisig_failure_degrades (env : Env) (w : World) (e : string) :
  let resolved :=
    getSigners env (network_networkType env) (knownAccounts (state w))
      (currentAccount (state w)) None in
  let run := actions.LOAD_ACCOUNT_INFO env w in
  getMultisigAccountGraphInfo env (currentAccountAddress (state w)) = Normal (Throw e) ->
  match parsedAddresses env (state w) with
  | Throw e' => run = (Rejected e', graphFetched w)
  | Normal accountAddresses =>
      let addresses := JsArray.uniqBy (map signer_address resolved ++ accountAddresses) plain in
      match signerOf (currentSignerAddress (state w)) resolved with
      | Throw e' => run = (Rejected e', addressesCommitted addresses w)
      | Normal signer =>
          run.1 = match getAccountsInfo env addresses with
                  | Normal _ => Fulfilled tt
                  | Throw e' => Rejected e'
                  end /\
          multisigAccountsInfo (state run.2) = [] /\
          currentAccountMultisigInfo (state run.2) = None /\
          currentSignerMultisigInfo (state run.2) = None /\
          signers (state run.2) = resolved /\
          currentSigner (state run.2) = signer /\
          knownAddresses (state run.2) = addresses
      end
  end.
Proof.
  intros resolved run Hgraph. subst run.
  rewrite LOAD_ACCOUNT_INFO_run, Hgraph. cbn [delivered].
  unfold multisigInfoOf. rewrite !findCompletion_nil.
  destruct (parsedAddresses env (state w)) as [accountAddresses|e']; [|reflexivity].
  cbv zeta. fold resolved.
  destruct (signerOf (currentSignerAddress (state w)) resolved) as [signer|e']; [|reflexivity].
  set (addresses := JsArray.uniqBy (map signer_address resolved ++ accountAddresses) plain).
  destruct (infoCommitted_fields addresses signer resolved [] None None w)
    as (Hk & Hc & Hs & Hm & Ha & Hg & _).
  destruct (getAccountsInfo env addresses) as [infos|e']; cbn [fst snd].
  - destruct (accountsInfo_committed_fields infos
                (infoCommitted addresses signer resolved [] None None w))
      as (-> & -> & -> & -> & -> & ->).
    repeat split; assumption.
  - repeat split; assumption.
Qed.

Lemma multisig_failure_degrades_witness :
  (actions.LOAD_ACCOUNT_INFO offline selected).1 = Rejected "Error: connect ECONNREFUSED" /\
  multisigAccountsInfo (state (actions.LOAD_ACCOUNT_INFO offline selected).2) = [] /\
  currentAccountMultisigInfo (state (actions.LOAD_ACCOUNT_INFO offline selected).2) = None /\
  currentSignerMultisigInfo (state (actions.LOAD_ACCOUNT_INFO offline selected).2) = None /\
  signers (state (actions.LOAD_ACCOUNT_INFO offline selected).2) =
    [mkSigner "Account A" "A" Sample.addressA false] /\
  currentSigner (state (actions.LOAD_ACCOUNT_INFO offline selected).2) =
    Some (mkSigner "Account A" "A" Sample.addressA false) /\
  knownAddresses (state (actions.LOAD_ACCOUNT_INFO offline selected).2) =
    [Sample.addressA; Sample.addressB].
Proof.
  exact (multisig_failure_degrades offline selected "Error: connect ECONNREFUSED" eq_refl).
Defined.



(** ** Subscriptions follow the signer *)

Lemma bind_fulfilled {A B : Type} (m : Action A) (k : A -> Action B) (w w' : World) (b : B) :
  bind m k w = (Fulfilled b, w') ->
  exists a w1, m w = (Fulfilled a, w1) /\ k a w1 = (Fulfilled b, w').
Proof.
  unfold bind. destruct (m w) as [[a|e|] w1]; try discriminate.
  intros H. exists a, w1. split; [reflexivity|exact H].
Qed.

Lemma UNSUBSCRIBE_fulfilled (env : Env) (plainAddress : string) (w w1 : World) (u : unit) :
  actions.UNSUBSCRIBE env plainAddress w = (Fulfilled u, w1) ->
  subscriptions (state w1) = unsubscribed (subscriptions (state w)) plainAddress /\
  nextHandle w1 = nextHandle w.
Proof.
  intros Hrun. unfold unsubscribed.
  destruct (subscriptions (state w) !! plainAddress) as [entries|] eqn:Hl.
  2:{ rewrite UNSUBSCRIBE_nothing in Hrun by exact Hl. injection Hrun as _ <-.
      split; reflexivity. }
  destruct entries as [|entry rest].
  { assert (H0 : actions.UNSUBSCRIBE env plainAddress w = (Fulfilled tt, w)).
    { unfold actions.UNSUBSCRIBE, bind, getState. rewrite Hl. reflexivity. }
    rewrite H0 in Hrun. injection Hrun as _ <-. split; reflexivity. }
  rewrite (UNSUBSCRIBE_runCalls env w plainAddress (entry :: rest) Hl) in Hrun by discriminate.
  unfold bind in Hrun.
  destruct (runCalls env (closeCalls (entry :: rest)) w) as [[u'|e|] w2] eqn:Hcalls;
    try discriminate.
  apply runCalls_fulfilled in Hcalls. subst w2.
  injection Hrun as _ <-. simpl. rewrite subscriptions_assign. split; reflexivity.
Qed.

(** X19. A fulfilled [SET_CURRENT_SIGNER] that changes the signer leaves
    the registry of subscriptions as follows: the entry sets of the previous
    signer address are unset, then one new entry set, the one the transport
    has just opened, is appended to those of the new signer address; the
    other addresses keep theirs. *)
Theorem subscriptions_follow_signer
    (env : Env) (publicKey : string) (w w' : World) (signerAddress : Address) :
  actions.SET_CURRENT_SIGNER env publicKey w = (Fulfilled tt, w') ->
  createFromPublicKey env publicKey (network_networkType env) = Normal signerAddress ->
  currentSignerAddress (state w) <> Some signerAddress ->
  exists streams,
    openChannels env (plain signerAddress) = Normal streams /\
    subscriptions (state w') =
      subscribedWith
        match currentSignerAddress (state w) with
        | Some previous => unsubscribed (subscriptions (state w)) (plain previous)
        | None => subscriptions (state w)
        end
        (plain signerAddress)
        {| listener := nextHandle w; sub_subscriptions := seq (S (nextHandle w)) streams |}.
Proof.
  intros Hrun Hcreate Hother.
  destruct (SET_CURRENT_SIGNER_fulfilled env publicKey w tt w' Hrun)
    as (_ & a & Hcreate' & Hcase).
  rewrite Hcreate in Hcreate'. injection Hcreate' as <-.
  destruct Hcase as [[Hsame _]|(_ & account & accountAddress & profile & _ & _ & _ & Htail)];
    [contradiction|].
  set (wp := signerPrepared signerAddress accountAddress
               (getKnownAccounts env (accounts profile)) w) in *.
  assert (Hwp : subscriptions (state wp) = subscriptions (state w) /\ nextHandle wp = nextHandle w).
  { subst wp. destruct w as [s t n]. destruct s. split; reflexivity. }
  destruct Hwp as [Hreg Hnext].
  unfold signerTail in Htail.
  do 3 (apply bind_fulfilled in Htail; destruct Htail as (? & ? & [= <- <-] & Htail)).
  apply bind_fulfilled in Htail. destruct Htail as ([] & w1 & Hunsub & Htail).
  match type of Hunsub with _ ?w3 = _ =>
    change (subscriptions (state wp)) with (subscriptions (state w3)) in Hreg;
    change (nextHandle wp) with (nextHandle w3) in Hnext
  end.
  apply bind_fulfilled in Htail. destruct Htail as ([] & w2 & Hsub & Htail).
  assert (Hw1 : subscriptions (state w1) =
                match currentSignerAddress (state w) with
                | Some previous => unsubscribed (subscriptions (state w)) (plain previous)
                | None => subscriptions (state w)
                end /\ nextHandle w1 = nextHandle w).
  { destruct (currentSignerAddress (state w)) as [previous|].
    - apply UNSUBSCRIBE_fulfilled in Hunsub. destruct Hunsub as [-> ->].
      rewrite Hreg, Hnext. split; reflexivity.
    - injection Hunsub as <-. rewrite Hreg, Hnext. split; reflexivity. }
  destruct Hw1 as [Hreg1 Hnext1].
  destruct (SUBSCRIBE_fulfilled env w1 signerAddress tt w2 Hsub) as (streams & Hopen & Hw2).
  cbv zeta in Hw2. exists streams. split; [exact Hopen|].
  assert (Hreg2 : subscriptions (state w2) =
            subscribedWith (subscriptions (state w1)) (plain signerAddress)
              {| listener := nextHandle w1;
                 sub_subscriptions := seq (S (nextHandle w1)) streams |}).
  { rewrite Hw2. simpl. apply subscriptions_assign. }
  rewrite Hreg1, Hnext1 in Hreg2. rewrite <- Hreg2.
  match type of Htail with ?k ?x w2 = _ =>
    assert (Hkeep : keeps (onState (fun s => subscriptions s = subscriptions (state w2))) (k x))
  end.
  { apply keeps_bind; [apply LOAD_ACCOUNT_INFO_onState; by_fields|intros _].
    apply keeps_bind; [apply keeps_emit; intros w0 H0; exact H0|intros _].
    apply keeps_emit. intros w0 H0. exact H0. }
  specialize (Hkeep w2 eq_refl). rewrite Htail in Hkeep. exact Hkeep.
Qed.

Lemma subscriptions_follow_signer_witness :
  actions.SET_CURRENT_SIGNER Sample.quiet "B"
    (dispatch Sample.quiet (SetCurrentAccount Sample.accountA) initialWorld) =
    (Fulfilled tt,
     (actions.SET_CURRENT_SIGNER Sample.quiet "B"
        (dispatch Sample.quiet (SetCurrentAccount Sample.accountA) initialWorld)).2) /\
  exists streams,
    openChannels Sample.quiet (plain Sample.addressB) = Normal streams /\
    subscriptions
      (state (actions.SET_CURRENT_SIGNER Sample.quiet "B"
                (dispatch Sample.quiet (SetCurrentAccount Sample.accountA) initialWorld)).2)
      !! "TA" = None.
Proof.
  assert (H : actions.SET_CURRENT_SIGNER Sample.quiet "B"
                (dispatch Sample.quiet (SetCurrentAccount Sample.accountA) initialWorld) =
              (Fulfilled tt,
               (actions.SET_CURRENT_SIGNER Sample.quiet "B"
                  (dispatch Sample.quiet (SetCurrentAccount Sample.accountA) initialWorld)).2))
    by (vm_compute; reflexivity).
  split; [exact H|].
  destruct (subscriptions_follow_signer Sample.quiet "B" _ _ Sample.addressB H eq_refl)
    as (streams & Hopen & Hreg).
  - vm_compute. discriminate.
  - exists streams. split; [exact Hopen|]. rewrite Hreg. vm_compute. reflexivity.
Defined.

(** * The repository of accounts *)

Section Accounts.
Context {Value : Type}.
Variable db : AccountsRepository.Database Value.

Lemma find_lookup (identifier : string) (r : AccountsRepository.Repository Value) :
  AccountsRepository.find identifier r = true <->
  is_Some (AccountsRepository._collection r !! identifier).
Proof. unfold AccountsRepository.find. apply bool_decide_eq_true. Qed.

Lemma find_absent (identifier : string) (r : AccountsRepository.Repository Value) :
  AccountsRepository.find identifier r = false <->
  AccountsRepository._collection r !! identifier = None.
Proof.
  unfold AccountsRepository.find. rewrite bool_decide_eq_false.
  rewrite eq_None_not_Some. reflexivity.
Qed.

Lemma foldl_insert_union (l : list (string * Value)) (acc : gmap string Value) :
  NoDup l.*1 ->
  foldl (fun acc '(key, value) => <[key := value]> acc) acc l = list_to_map l ∪ acc.
Proof.
  revert acc. induction l as [|[key value] l IH]; intros acc Hnd.
  - simpl. symmetry. apply (left_id ∅ (∪)).
  - simpl in *. apply NoDup_cons in Hnd. destruct Hnd as [Hkey Hnd].
    rewrite IH by exact Hnd.
    rewrite <- insert_union_l.
    symmetry. apply insert_union_r. apply not_elem_of_list_to_map_1. exact Hkey.
Qed.

Lemma setEach_union (values : gmap string Value) (previous : AccountsRepository.AccountsModel Value) :
  AccountsRepository.setEach values previous =
  {| AccountsRepository.values := values ∪ AccountsRepository.values previous |}.
Proof.
  unfold AccountsRepository.setEach. f_equal.
  rewrite foldl_insert_union by apply NoDup_fst_map_to_list.
  rewrite list_to_map_to_list. reflexivity.
Qed.

Lemma persistAndReturn_repository {A : Type} (a : A) (r : AccountsRepository.Repository Value) :
  (AccountsRepository.persistAndReturn db a r).2 =
  {| AccountsRepository._collection := AccountsRepository._collection r;
     AccountsRepository.persisted :=
       AccountsRepository.persisted r ++ [AccountsRepository._collection r] |}.
Proof.
  unfold AccountsRepository.persistAndReturn, AccountsRepository.persist.
  destruct (AccountsRepository.write db _); reflexivity.
Qed.

Lemma persistAndReturn_completion {A : Type} (a : A) (r : AccountsRepository.Repository Value) :
  (AccountsRepository.persistAndReturn db a r).1 =
  match AccountsRepository.write db (AccountsRepository._collection r) with
  | Normal _ => Normal a
  | Throw e => Throw e
  end.
Proof.
  unfold AccountsRepository.persistAndReturn, AccountsRepository.persist.
  destruct (AccountsRepository.write db _); reflexivity.
Qed.

Lemma create_fresh (values : gmap string Value) (r : AccountsRepository.Repository Value) :
  AccountsRepository.hasIdentifier db (AccountsRepository.createModel values) = true ->
  AccountsRepository.find
    (AccountsRepository.getIdentifier db (AccountsRepository.createModel values)) r = false ->
  AccountsRepository.create db values r =
  AccountsRepository.persistAndReturn db
    (AccountsRepository.getIdentifier db (AccountsRepository.createModel values))
    (AccountsRepository.set
       (AccountsRepository.getIdentifier db (AccountsRepository.createModel values))
       (AccountsRepository.createModel values) r).
Proof.
  intros Hid Hfresh. unfold AccountsRepository.create. cbv zeta.
  rewrite Hid, Hfresh. reflexivity.
Qed.

Lemma update_present (identifier : string) (values : gmap string Value)
    (previous : AccountsRepository.AccountsModel Value) (r : AccountsRepository.Repository Value) :
  AccountsRepository._collection r !! identifier = Some previous ->
  AccountsRepository.update db identifier values r =
  AccountsRepository.persistAndReturn db
    {| AccountsRepository.values := values ∪ AccountsRepository.values previous |}
    (AccountsRepository.set identifier
       {| AccountsRepository.values := values ∪ AccountsRepository.values previous |} r).
Proof.
  intros Hl. unfold AccountsRepository.update, AccountsRepository.read. rewrite Hl.
  cbv zeta. rewrite setEach_union. reflexivity.
Qed.

Lemma delete_present (identifier : string) (r : AccountsRepository.Repository Value) :
  AccountsRepository.find identifier r = true ->
  AccountsRepository.delete db identifier r =
  AccountsRepository.persistAndReturn db true
    {| AccountsRepository._collection := base.delete identifier (AccountsRepository._collection r);
       AccountsRepository.persisted := AccountsRepository.persisted r |}.
Proof.
  intros Hfind. unfold AccountsRepository.delete. rewrite Hfind. cbv zeta.
  unfold AccountsRepository.find in Hfind. rewrite Hfind. reflexivity.
Qed.

Lemma delete_absent (identifier : string) (r : AccountsRepository.Repository Value) :
  AccountsRepository.find identifier r = false ->
  AccountsRepository.delete db identifier r =
  (Throw (AccountsRepository.doesNotExist identifier), r).
Proof. intros Hfind. unfold AccountsRepository.delete. rewrite Hfind. reflexivity. Qed.

End Accounts.

(** X20. Creating an account whose values carry an identifier that is
    not in the repository yet puts the values under that identifier: reading
    the identifier gives them back, the other identifiers keep their models,
    and the new collection is handed to the storage once. The call returns
    the identifier unless the storage fails, and the account stays in the
    collection even then. *)
Theorem account_created_is_read {Value : Type} (db : AccountsRepository.Database Value)
    (values : gmap string Value) (r : AccountsRepository.Repository Value) :
  let identifier := AccountsRepository.getIdentifier db (AccountsRepository.createModel values) in
  let r' := (AccountsRepository.create db values r).2 in
  AccountsRepository.hasIdentifier db (AccountsRepository.createModel values) = true ->
  AccountsRepository.find identifier r = false ->
  AccountsRepository.read identifier r' = Normal (AccountsRepository.createModel values) /\
  AccountsRepository.find identifier r' = true /\
  (forall other, other <> identifier ->
     AccountsRepository._collection r' !! other = AccountsRepository._collection r !! other) /\
  AccountsRepository.persisted r' =
    AccountsRepository.persisted r ++ [AccountsRepository._collection r'] /\
  (AccountsRepository.create db values r).1 =
    match AccountsRepository.write db (AccountsRepository._collection r') with
    | Normal _ => Normal identifier
    | Throw e => Throw e
    end.
Proof.
  intros identifier r' Hid Hfresh. subst r'.
  rewrite (create_fresh db values r Hid Hfresh).
  rewrite persistAndReturn_completion, persistAndReturn_repository.
  fold identifier. unfold AccountsRepository.read, AccountsRepository.find. simpl.
  rewrite lookup_insert_eq.
  split; [reflexivity|]. split; [apply bool_decide_eq_true; eexists; reflexivity|].
  split; [|split; reflexivity].
  intros other Hother. apply lookup_insert_ne. congruence.
Qed.

Lemma account_created_is_read_witness :
  AccountsRepository.read "bob"
    (AccountsRepository.create SampleAccounts.byName SampleAccounts.bob
       SampleAccounts.holdingAlice).2 =
  Normal (AccountsRepository.createModel SampleAccounts.bob).
Proof.
  apply (account_created_is_read SampleAccounts.byName SampleAccounts.bob
           SampleAccounts.holdingAlice); vm_compute; reflexivity.
Defined.

(** X21. Creating the same values a second time is always refused and
    leaves the repository as the first call left it: with "already exists"
    when the values carry an identifier, whether the first call created the
    account or found it, with "missing value" when they carry none. Nothing
    goes to the storage on a refusal. *)
Theorem account_created_once {Value : Type} (db : AccountsRepository.Database Value)
    (values : gmap string Value) (r : AccountsRepository.Repository Value) :
  let r' := (AccountsRepository.create db values r).2 in
  AccountsRepository.create db values r' =
  (Throw (if AccountsRepository.hasIdentifier db (AccountsRepository.createModel values)
          then AccountsRepository.alreadyExists
                 (AccountsRepository.getIdentifier db (AccountsRepository.createModel values))
          else AccountsRepository.missingIdentifier db),
   r').
Proof.
  intros r'. subst r'.
  destruct (AccountsRepository.hasIdentifier db (AccountsRepository.createModel values)) eqn:Hid.
  2:{ unfold AccountsRepository.create. cbv zeta. rewrite Hid. reflexivity. }
  set (identifier := AccountsRepository.getIdentifier db (AccountsRepository.createModel values)).
  assert (Hthere : AccountsRepository.find identifier (AccountsRepository.create db values r).2 = true).
  { destruct (AccountsRepository.find identifier r) eqn:Hfind.
    - unfold AccountsRepository.create. cbv zeta. rewrite Hid. fold identifier.
      rewrite Hfind. exact Hfind.
    - rewrite (create_fresh db values r Hid Hfind), persistAndReturn_repository.
      fold identifier. apply find_lookup. simpl. rewrite lookup_insert_eq. eexists; reflexivity. }
  unfold AccountsRepository.create at 1. cbv zeta. rewrite Hid. fold identifier.
  rewrite Hthere. reflexivity.
Qed.

(** X22. Updating an account that exists merges the given values into
    its own: a key of the given values takes the given value, every other key
    keeps the one it had. The model stays under the identifier it was stored
    under, whatever the new values say, the other identifiers keep their
    models, the new collection is handed to the storage once, and updating
    with the same values again does not change the collection. *)
Theorem account_updated_merges {Value : Type} (db : AccountsRepository.Database Value)
    (identifier : string) (values : gmap string Value)
    (previous : AccountsRepository.AccountsModel Value)
    (r : AccountsRepository.Repository Value) :
  let r' := (AccountsRepository.update db identifier values r).2 in
  AccountsRepository._collection r !! identifier = Some previous ->
  (exists updated,
     AccountsRepository.read identifier r' = Normal updated /\
     forall key,
       AccountsRepository.values updated !! key =
       match values !! key with
       | Some value => Some value
       | None => AccountsRepository.values previous !! key
       end) /\
  (forall other, AccountsRepository.find other r' = AccountsRepository.find other r) /\
  (forall other, other <> identifier ->
     AccountsRepository._collection r' !! other = AccountsRepository._collection r !! other) /\
  AccountsRepository.persisted r' =
    AccountsRepository.persisted r ++ [AccountsRepository._collection r'] /\
  AccountsRepository._collection (AccountsRepository.update db identifier values r').2 =
    AccountsRepository._collection r'.
Proof.
  intros r' Hprevious. subst r'.
  rewrite (update_present db identifier values previous r Hprevious).
  rewrite persistAndReturn_repository. simpl.
  split.
  { exists {| AccountsRepository.values := values ∪ AccountsRepository.values previous |}.
    unfold AccountsRepository.read. simpl. rewrite lookup_insert_eq.
    split; [reflexivity|]. intros key. simpl.
    destruct (values !! key) as [value|] eqn:Hkey.
    - apply lookup_union_Some_l. exact Hkey.
    - rewrite lookup_union_r by exact Hkey. reflexivity. }
  split.
  { intros other. unfold AccountsRepository.find. simpl.
    destruct (decide (other = identifier)) as [->|Hother].
    - rewrite lookup_insert_eq, Hprevious.
      rewrite !bool_decide_eq_true_2 by (eexists; reflexivity). reflexivity.
    - rewrite lookup_insert_ne by congruence. reflexivity. }
  split.
  { intros other Hother. apply lookup_insert_ne. congruence. }
  split; [reflexivity|].
  erewrite update_present by (simpl; apply lookup_insert_eq).
  rewrite persistAndReturn_repository. simpl.
  rewrite insert_insert_eq. f_equal. f_equal.
  rewrite (assoc_L (∪)). rewrite (idemp_L (∪)). reflexivity.
Qed.

Lemma account_updated_merges_witness :
  AccountsRepository.find "bob"
    (AccountsRepository.update SampleAccounts.byName "alice" SampleAccounts.bob
       SampleAccounts.holdingAlice).2 =
  AccountsRepository.find "bob" SampleAccounts.holdingAlice.
Proof.
  apply (account_updated_merges SampleAccounts.byName "alice" SampleAccounts.bob
           {| AccountsRepository.values := SampleAccounts.alice |}
           SampleAccounts.holdingAlice).
  vm_compute. reflexivity.
Defined.

(** X23. For an identifier the repository does not hold, [read],
    [update] and [delete] all throw the same "does not exist" error; [update]
    and [delete] leave the repository as it was and hand nothing to the
    storage. *)
Theorem account_missing {Value : Type} (db : AccountsRepository.Database Value)
    (identifier : string) (values : gmap string Value)
    (r : AccountsRepository.Repository Value) :
  AccountsRepository.find identifier r = false ->
  AccountsRepository.read identifier r = Throw (AccountsRepository.doesNotExist identifier) /\
  AccountsRepository.update db identifier values r =
    (Throw (AccountsRepository.doesNotExist identifier), r) /\
  AccountsRepository.delete db identifier r =
    (Throw (AccountsRepository.doesNotExist identifier), r).
Proof.
  intros Hfind. pose proof (proj1 (find_absent identifier r) Hfind) as Hnone.
  assert (Hread : AccountsRepository.read identifier r =
                  Throw (AccountsRepository.doesNotExist identifier)).
  { unfold AccountsRepository.read. rewrite Hnone. reflexivity. }
  split; [exact Hread|]. split.
  - unfold AccountsRepository.update. rewrite Hread. reflexivity.
  - apply delete_absent. exact Hfind.
Qed.

Lemma account_missing_witness :
  AccountsRepository.update SampleAccounts.byName "bob" SampleAccounts.bob
    SampleAccounts.holdingAlice =
  (Throw "Account with name 'bob' does not exist.", SampleAccounts.holdingAlice).
Proof.
  apply (account_missing SampleAccounts.byName "bob" SampleAccounts.bob
           SampleAccounts.holdingAlice).
  vm_compute. reflexivity.
Defined.

(** X24. Creating an account and deleting the identifier it was given
    restores the collection the repository had before; the storage has been
    handed two collections meanwhile, the one with the account and then the
    one without. *)
Theorem account_created_then_deleted {Value : Type} (db : AccountsRepository.Database Value)
    (values : gmap string Value) (r : AccountsRepository.Repository Value) :
  let identifier := AccountsRepository.getIdentifier db (AccountsRepository.createModel values) in
  let r' := (AccountsRepository.delete db identifier (AccountsRepository.create db values r).2).2 in
  AccountsRepository.hasIdentifier db (AccountsRepository.createModel values) = true ->
  AccountsRepository.find identifier r = false ->
  AccountsRepository._collection r' = AccountsRepository._collection r /\
  AccountsRepository.persisted r' =
    AccountsRepository.persisted r ++
    [<[identifier := AccountsRepository.createModel values]> (AccountsRepository._collection r);
     AccountsRepository._collection r].
Proof.
  intros identifier r' Hid Hfresh. subst r'.
  rewrite (create_fresh db values r Hid Hfresh), persistAndReturn_repository.
  fold identifier. simpl.
  rewrite delete_present
    by (apply find_lookup; simpl; rewrite lookup_insert_eq; eexists; reflexivity).
  rewrite persistAndReturn_repository. simpl.
  rewrite delete_insert_id by (apply find_absent; exact Hfresh).
  rewrite <- app_assoc. split; reflexivity.
Qed.

Lemma account_created_then_deleted_witness :
  AccountsRepository._collection
    (AccountsRepository.delete SampleAccounts.byName "bob"
       (AccountsRepository.create SampleAccounts.byName SampleAccounts.bob
          SampleAccounts.holdingAlice).2).2 =
  AccountsRepository._collection SampleAccounts.holdingAlice.
Proof.
  apply (account_created_then_deleted SampleAccounts.byName SampleAccounts.bob
           SampleAccounts.holdingAlice); vm_compute; reflexivity.
Defined.

(** X25. [delete] never answers [false]: when it returns, the
    identifier was in the repository, it is no longer, the answer is [true]
    and the collection without it has been handed to the storage. The branch
    that returns [false] is never taken. *)
Theorem account_delete_answers_true {Value : Type} (db : AccountsRepository.Database Value)
    (identifier : string) (r r' : AccountsRepository.Repository Value) (answer : bool) :
  AccountsRepository.delete db identifier r = (Normal answer, r') ->
  answer = true /\
  AccountsRepository.find identifier r = true /\
  AccountsRepository.find identifier r' = false /\
  AccountsRepository._collection r' = base.delete identifier (AccountsRepository._collection r) /\
  AccountsRepository.persisted r' =
    AccountsRepository.persisted r ++ [AccountsRepository._collection r'].
Proof.
  intros Hrun.
  destruct (AccountsRepository.find identifier r) eqn:Hfind.
  2:{ rewrite delete_absent in Hrun by exact Hfind. discriminate. }
  rewrite delete_present in Hrun by exact Hfind.
  pose proof (persistAndReturn_repository db true
                {| AccountsRepository._collection :=
                     base.delete identifier (AccountsRepository._collection r);
                   AccountsRepository.persisted := AccountsRepository.persisted r |}) as Hrepo.
  pose proof (persistAndReturn_completion db true
                {| AccountsRepository._collection :=
                     base.delete identifier (AccountsRepository._collection r);
                   AccountsRepository.persisted := AccountsRepository.persisted r |}) as Hdone.
  rewrite Hrun in Hrepo, Hdone. simpl in Hrepo, Hdone. subst r'.
  split.
  { destruct (AccountsRepository.write db _); [congruence|discriminate]. }
  split; [reflexivity|]. split; [|split; reflexivity].
  apply find_absent. simpl. apply lookup_delete_eq.
Qed.

Lemma account_delete_answers_true_witness :
  AccountsRepository.find "alice"
    (AccountsRepository.delete SampleAccounts.byName "alice" SampleAccounts.holdingAlice).2 =
  false.
Proof.
  apply (account_delete_answers_true SampleAccounts.byName "alice"
           SampleAccounts.holdingAlice _ true).
  vm_compute. reflexivity.
Defined.

(** X26. The repository never changes its collection behind the back
    of the storage: [create], [update] and [delete] either leave the
    repository exactly as it was, and then they throw, or hand the collection
    they leave to the storage, once, as their last step. *)
Theorem account_changes_are_persisted {Value : Type} (db : AccountsRepository.Database Value)
    (r : AccountsRepository.Repository Value) :
  (forall values, unchangedOrPersisted r (AccountsRepository.create db values r)) /\
  (forall identifier values,
     unchangedOrPersisted r (AccountsRepository.update db identifier values r)) /\
  (forall identifier, unchangedOrPersisted r (AccountsRepository.delete db identifier r)).
Proof.
  unfold unchangedOrPersisted. split; [|split].
  - intros values. unfold AccountsRepository.create. cbv zeta.
    destruct (AccountsRepository.hasIdentifier db _); simpl;
      [|left; split; [reflexivity|eexists; reflexivity]].
    destruct (AccountsRepository.find _ r);
      [left; split; [reflexivity|eexists; reflexivity]|].
    right. rewrite persistAndReturn_repository. reflexivity.
  - intros identifier values.
    destruct (AccountsRepository._collection r !! identifier) as [previous|] eqn:Hl.
    + right. rewrite (update_present db identifier values previous r Hl).
      rewrite persistAndReturn_repository. reflexivity.
    + left. unfold AccountsRepository.update, AccountsRepository.read. rewrite Hl.
      split; [reflexivity|eexists; reflexivity].
  - intros identifier.
    destruct (AccountsRepository.find identifier r) eqn:Hfind.
    + right. rewrite delete_present by exact Hfind.
      rewrite persistAndReturn_repository. reflexivity.
    + left. rewrite delete_absent by exact Hfind.
      split; [reflexivity|eexists; reflexivity].
Qed.

(** * The view of a namespace registration *)

Section RegistrationView.
Variable c : ViewNamespaceRegistrationTransaction.Collaborators.

Lemma parse_fulfilled formItems view :
  (ViewNamespaceRegistrationTransaction.parse c formItems view).1 = Normal tt ->
  exists d,
    match ViewNamespaceRegistrationTransaction.form_duration formItems with
    | Some n => if (n =? 0)%Z then d = ViewNamespaceRegistrationTransaction.Null
                else exists u, ViewNamespaceRegistrationTransaction.fromUint c n = Normal u /\
                               d = ViewNamespaceRegistrationTransaction.Amount u
    | None => d = ViewNamespaceRegistrationTransaction.Null
    end /\
    ViewNamespaceRegistrationTransaction.values
      (ViewNamespaceRegistrationTransaction.parse c formItems view).2 =
    <["maxFee" := ViewNamespaceRegistrationTransaction.Amount
                    (ViewNamespaceRegistrationTransaction.form_maxFee formItems)]>
      (<["duration" := d]>
         (<["subNamespaceName" :=
              ViewNamespaceRegistrationTransaction.orNull
                (ViewNamespaceRegistrationTransaction.form_subNamespaceName formItems)]>
            (<["registrationType" :=
                 ViewNamespaceRegistrationTransaction.RegistrationType
                   (ViewNamespaceRegistrationTransaction.form_registrationType formItems)]>
               (<["rootNamespaceName" :=
                    ViewNamespaceRegistrationTransaction.Text
                      (ViewNamespaceRegistrationTransaction.form_rootNamespaceName formItems)]>
                  (ViewNamespaceRegistrationTransaction.values view))))).
Proof.
  unfold ViewNamespaceRegistrationTransaction.parse. cbv zeta.
  destruct (ViewNamespaceRegistrationTransaction.form_duration formItems) as [n|].
  - destruct (n =? 0)%Z.
    + intros _. eexists. split; reflexivity.
    + destruct (ViewNamespaceRegistrationTransaction.fromUint c n) as [u|e]; [|discriminate].
      intros _. eexists. split; [exists u; split; reflexivity|reflexivity].
  - intros _. eexists. split; reflexivity.
Qed.

Lemma useTypeAndDuration_values tx view :
  ViewNamespaceRegistrationTransaction.values
    (ViewNamespaceRegistrationTransaction.useTypeAndDuration tx view) =
  <["duration" := match ViewNamespaceRegistrationTransaction.duration tx with
                  | Some u => ViewNamespaceRegistrationTransaction.Amount u
                  | None => ViewNamespaceRegistrationTransaction.Null
                  end]>
    (<["registrationType" :=
         ViewNamespaceRegistrationTransaction.RegistrationType
           (ViewNamespaceRegistrationTransaction.registrationType tx)]>
       (ViewNamespaceRegistrationTransaction.values view)).
Proof. reflexivity. Qed.

End RegistrationView.

Ltac view_lookup :=
  repeat first
    [ rewrite lookup_insert_eq
    | rewrite lookup_insert_ne by discriminate ].

(** X27. A form that [parse] accepts is displayed as it was filled in,
    provided the store has a network configuration: a sub-namespace as its
    name ([null] when the name was left empty) and the name of its parent,
    without its duration; a root namespace with a duration other than zero as
    its name and the relative time of the duration the SDK made of the
    number. *)
Theorem registration_form_displayed
    (c : ViewNamespaceRegistrationTransaction.Collaborators)
    (formItems : ViewNamespaceRegistrationTransaction.NamespaceRegistrationFormFieldsType)
    (view : ViewNamespaceRegistrationTransaction.View)
    (configuration : ViewNamespaceRegistrationTransaction.NetworkConfigurationModel) :
  let view' := (ViewNamespaceRegistrationTransaction.parse c formItems view).2 in
  ViewNamespaceRegistrationTransaction.networkConfiguration c = Some configuration ->
  (ViewNamespaceRegistrationTransaction.parse c formItems view).1 = Normal tt ->
  match ViewNamespaceRegistrationTransaction.form_registrationType formItems with
  | ViewNamespaceRegistrationTransaction.SubNamespace =>
      ViewNamespaceRegistrationTransaction.resolveDetailItems c view' =
      Normal
        [ {| ViewNamespaceRegistrationTransaction.key := "namespace_name";
             ViewNamespaceRegistrationTransaction.value :=
               Some (ViewNamespaceRegistrationTransaction.orNull
                       (ViewNamespaceRegistrationTransaction.form_subNamespaceName formItems)) |};
          {| ViewNamespaceRegistrationTransaction.key := "parent_namespace";
             ViewNamespaceRegistrationTransaction.value :=
               Some (ViewNamespaceRegistrationTransaction.Text
                       (ViewNamespaceRegistrationTransaction.form_rootNamespaceName formItems)) |} ]
  | ViewNamespaceRegistrationTransaction.RootNamespace =>
      forall n, ViewNamespaceRegistrationTransaction.form_duration formItems = Some n ->
      n <> 0%Z ->
      exists u,
        ViewNamespaceRegistrationTransaction.fromUint c n = Normal u /\
        ViewNamespaceRegistrationTransaction.resolveDetailItems c view' =
        Normal
          [ {| ViewNamespaceRegistrationTransaction.key := "namespace_name";
               ViewNamespaceRegistrationTransaction.value :=
                 Some (ViewNamespaceRegistrationTransaction.Text
                         (ViewNamespaceRegistrationTransaction.form_rootNamespaceName formItems)) |};
            {| ViewNamespaceRegistrationTransaction.key := "duration";
               ViewNamespaceRegistrationTransaction.value :=
                 Some (ViewNamespaceRegistrationTransaction.Text
                         (ViewNamespaceRegistrationTransaction.durationToRelativeTime c
                            (ViewNamespaceRegistrationTransaction.parseInt c
                               (ViewNamespaceRegistrationTransaction.toString c u))
                            (ViewNamespaceRegistrationTransaction.blockGenerationTargetTime
                               configuration))) |} ]
  end.
Proof.
  intros view' Hconfiguration Hparse. subst view'.
  destruct (parse_fulfilled c formItems view Hparse) as (d & Hd & Hvalues).
  unfold ViewNamespaceRegistrationTransaction.resolveDetailItems. cbv zeta.
  rewrite Hconfiguration, Hvalues. view_lookup.
  destruct (ViewNamespaceRegistrationTransaction.form_registrationType formItems).
  - intros n Hn Hn0. rewrite Hn in Hd.
    destruct (Z.eqb_spec n 0) as [|_]; [contradiction|].
    destruct Hd as (u & Hu & ->). exists u. split; [exact Hu|reflexivity].
  - reflexivity.
Qed.

Lemma registration_form_displayed_witness :
  ViewNamespaceRegistrationTransaction.resolveDetailItems SampleView.collaborators
    (ViewNamespaceRegistrationTransaction.parse SampleView.collaborators SampleView.subForm
       SampleView.emptyView).2 =
  Normal
    [ {| ViewNamespaceRegistrationTransaction.key := "namespace_name";
         ViewNamespaceRegistrationTransaction.value :=
           Some (ViewNamespaceRegistrationTransaction.Text "xym") |};
      {| ViewNamespaceRegistrationTransaction.key := "parent_namespace";
         ViewNamespaceRegistrationTransaction.value :=
           Some (ViewNamespaceRegistrationTransaction.Text "symbol") |} ].
Proof.
  apply (registration_form_displayed SampleView.collaborators SampleView.subForm
           SampleView.emptyView
           {| ViewNamespaceRegistrationTransaction.blockGenerationTargetTime := 15 |});
    reflexivity.
Defined.

(** X28. The form of a root namespace whose duration is missing or
    zero is accepted by [parse], which stores [null] as the duration, and can
    then not be displayed: [resolveDetailItems] throws on it, whatever the
    view held before and whatever the store answers. *)
Theorem root_registration_needs_duration
    (c : ViewNamespaceRegistrationTransaction.Collaborators)
    (formItems : ViewNamespaceRegistrationTransaction.NamespaceRegistrationFormFieldsType)
    (view : ViewNamespaceRegistrationTransaction.View) :
  ViewNamespaceRegistrationTransaction.form_registrationType formItems =
    ViewNamespaceRegistrationTransaction.RootNamespace ->
  ViewNamespaceRegistrationTransaction.form_duration formItems = None \/
  ViewNamespaceRegistrationTransaction.form_duration formItems = Some 0%Z ->
  (ViewNamespaceRegistrationTransaction.parse c formItems view).1 = Normal tt /\
  ViewNamespaceRegistrationTransaction.values
    (ViewNamespaceRegistrationTransaction.parse c formItems view).2 !! "duration" =
    Some ViewNamespaceRegistrationTransaction.Null /\
  ViewNamespaceRegistrationTransaction.resolveDetailItems c
    (ViewNamespaceRegistrationTransaction.parse c formItems view).2 = Throw TypeError.
Proof.
  intros Htype Hduration.
  assert (Hparse : (ViewNamespaceRegistrationTransaction.parse c formItems view).1 = Normal tt).
  { unfold ViewNamespaceRegistrationTransaction.parse. cbv zeta.
    destruct Hduration as [->| ->]; reflexivity. }
  destruct (parse_fulfilled c formItems view Hparse) as (d & Hd & Hvalues).
  assert (d = ViewNamespaceRegistrationTransaction.Null) as ->.
  { destruct Hduration as [H|H]; rewrite H in Hd; exact Hd. }
  split; [exact Hparse|]. rewrite Hvalues. split; [view_lookup; reflexivity|].
  unfold ViewNamespaceRegistrationTransaction.resolveDetailItems. cbv zeta.
  rewrite Hvalues. view_lookup. rewrite Htype.
  destruct (ViewNamespaceRegistrationTransaction.networkConfiguration c); reflexivity.
Qed.

Lemma root_registration_needs_duration_witness :
  ViewNamespaceRegistrationTransaction.resolveDetailItems SampleView.collaborators
    (ViewNamespaceRegistrationTransaction.parse SampleView.collaborators SampleView.rootForm
       SampleView.emptyView).2 = Throw TypeError.
Proof.
  apply (root_registration_needs_duration SampleView.collaborators SampleView.rootForm
           SampleView.emptyView);
    [reflexivity|right; reflexivity].
Defined.

(** The lookup of the parent never throws for a transaction that has a
    parent; for one that has none it throws as soon as a namespace is
    known. *)
Lemma findCompletion_sameIdAndNamed (parentId : option string)
    (namespaces : list ViewNamespaceRegistrationTransaction.NamespaceModel) :
  findCompletion (ViewNamespaceRegistrationTransaction.sameIdAndNamed parentId) namespaces =
  match parentId with
  | Some parentHex =>
      Normal (JsArray.find
                (fun n =>
                   String.eqb (ViewNamespaceRegistrationTransaction.namespaceIdHex n) parentHex
                   && ViewNamespaceRegistrationTransaction.named n)
                namespaces)
  | None => match namespaces with
            | [] => Normal None
            | _ :: _ => Throw TypeError
            end
  end.
Proof.
  destruct parentId as [parentHex|]; [|destruct namespaces; reflexivity].
  induction namespaces as [|n namespaces IH]; simpl; [reflexivity|].
  destruct (_ && _); [reflexivity|exact IH].
Qed.

(** X29. A transaction that [use] accepts is displayed, on a store
    with a network configuration, under the name the transaction carries. A
    root namespace comes with the relative time of the duration of the
    transaction, and cannot be displayed when the transaction has none. A
    sub-namespace comes with the name of the first known namespace that has
    the identifier of its parent and a name; when there is none, with
    whatever root name [initialize] left in the view. A sub-namespace
    without parent is accepted only when no namespace is known, and then
    there is none. *)
Theorem registration_transaction_displayed
    (c : ViewNamespaceRegistrationTransaction.Collaborators)
    (tx : ViewNamespaceRegistrationTransaction.NamespaceRegistrationTransaction)
    (view view' : ViewNamespaceRegistrationTransaction.View)
    (configuration : ViewNamespaceRegistrationTransaction.NetworkConfigurationModel) :
  ViewNamespaceRegistrationTransaction.networkConfiguration c = Some configuration ->
  ViewNamespaceRegistrationTransaction.use c tx view = (Normal tt, view') ->
  match ViewNamespaceRegistrationTransaction.registrationType tx with
  | ViewNamespaceRegistrationTransaction.RootNamespace =>
      ViewNamespaceRegistrationTransaction.resolveDetailItems c view' =
      match ViewNamespaceRegistrationTransaction.duration tx with
      | None => Throw TypeError
      | Some u =>
          Normal
            [ {| ViewNamespaceRegistrationTransaction.key := "namespace_name";
                 ViewNamespaceRegistrationTransaction.value :=
                   Some (ViewNamespaceRegistrationTransaction.Text
                           (ViewNamespaceRegistrationTransaction.namespaceName tx)) |};
              {| ViewNamespaceRegistrationTransaction.key := "duration";
                 ViewNamespaceRegistrationTransaction.value :=
                   Some (ViewNamespaceRegistrationTransaction.Text
                           (ViewNamespaceRegistrationTransaction.durationToRelativeTime c
                              (ViewNamespaceRegistrationTransaction.parseInt c
                                 (ViewNamespaceRegistrationTransaction.toString c u))
                              (ViewNamespaceRegistrationTransaction.blockGenerationTargetTime
                                 configuration))) |} ]
      end
  | ViewNamespaceRegistrationTransaction.SubNamespace =>
      (ViewNamespaceRegistrationTransaction.parentId tx = None ->
       ViewNamespaceRegistrationTransaction.namespaces c = []) /\
      ViewNamespaceRegistrationTransaction.resolveDetailItems c view' =
      Normal
        [ {| ViewNamespaceRegistrationTransaction.key := "namespace_name";
             ViewNamespaceRegistrationTransaction.value :=
               Some (ViewNamespaceRegistrationTransaction.Text
                       (ViewNamespaceRegistrationTransaction.namespaceName tx)) |};
          {| ViewNamespaceRegistrationTransaction.key := "parent_namespace";
             ViewNamespaceRegistrationTransaction.value :=
               match
                 match ViewNamespaceRegistrationTransaction.parentId tx with
                 | Some parentHex =>
                     JsArray.find
                       (fun n =>
                          String.eqb (ViewNamespaceRegistrationTransaction.namespaceIdHex n)
                            parentHex && ViewNamespaceRegistrationTransaction.named n)
                       (ViewNamespaceRegistrationTransaction.namespaces c)
                 | None => None
                 end
               with
               | Some parent =>
                   option_map ViewNamespaceRegistrationTransaction.Text
                     (ViewNamespaceRegistrationTransaction.name parent)
               | None =>
                   ViewNamespaceRegistrationTransaction.values
                     (ViewNamespaceRegistrationTransaction.initialize c tx
                        {| ViewNamespaceRegistrationTransaction.transaction := Some tx;
                           ViewNamespaceRegistrationTransaction.values :=
                             ViewNamespaceRegistrationTransaction.values view |}).2
                   !! "rootNamespaceName"
               end |} ]
  end.
Proof.
  intros Hconfiguration Hrun.
  unfold ViewNamespaceRegistrationTransaction.use in Hrun. cbv zeta in Hrun.
  destruct (ViewNamespaceRegistrationTransaction.initialize c tx _)
    as [[[]|e] initialized] eqn:Hinit; [|discriminate].
  destruct (ViewNamespaceRegistrationTransaction.registrationType tx) eqn:Htype.
  - injection Hrun as <-.
    unfold ViewNamespaceRegistrationTransaction.resolveDetailItems. cbv zeta.
    rewrite Hconfiguration, useTypeAndDuration_values, Htype. simpl. view_lookup.
    destruct (ViewNamespaceRegistrationTransaction.duration tx) as [u|]; reflexivity.
  - rewrite findCompletion_sameIdAndNamed in Hrun.
    assert (Hfound :
      exists parent,
        parent =
          match ViewNamespaceRegistrationTransaction.parentId tx with
          | Some parentHex =>
              JsArray.find
                (fun n =>
                   String.eqb (ViewNamespaceRegistrationTransaction.namespaceIdHex n) parentHex
                   && ViewNamespaceRegistrationTransaction.named n)
                (ViewNamespaceRegistrationTransaction.namespaces c)
          | None => None
          end /\
        (ViewNamespaceRegistrationTransaction.parentId tx = None ->
         ViewNamespaceRegistrationTransaction.namespaces c = []) /\
        view' =
          ViewNamespaceRegistrationTransaction.useTypeAndDuration tx
            match parent with
            | Some n =>
                ViewNamespaceRegistrationTransaction.set "rootNamespaceName"
                  match ViewNamespaceRegistrationTransaction.name n with
                  | Some s => ViewNamespaceRegistrationTransaction.Text s
                  | None => ViewNamespaceRegistrationTransaction.Null
                  end
                  (ViewNamespaceRegistrationTransaction.set "subNamespaceName"
                     (ViewNamespaceRegistrationTransaction.Text
                        (ViewNamespaceRegistrationTransaction.namespaceName tx)) initialized)
            | None =>
                ViewNamespaceRegistrationTransaction.set "subNamespaceName"
                  (ViewNamespaceRegistrationTransaction.Text
                     (ViewNamespaceRegistrationTransaction.namespaceName tx)) initialized
            end).
    { destruct (ViewNamespaceRegistrationTransaction.parentId tx) as [parentHex|].
      - injection Hrun as <-. eexists. split; [reflexivity|]. split; [discriminate|reflexivity].
      - destruct (ViewNamespaceRegistrationTransaction.namespaces c); [|discriminate].
        injection Hrun as <-. exists None. split; [reflexivity|]. split; reflexivity. }
    destruct Hfound as (parent & Hparent & Hempty & ->).
    split; [exact Hempty|]. rewrite <- Hparent.
    unfold ViewNamespaceRegistrationTransaction.resolveDetailItems. cbv zeta.
    rewrite Hconfiguration, useTypeAndDuration_values, Htype. view_lookup.
    destruct parent as [parent|].
    + assert (Hnamed : ViewNamespaceRegistrationTransaction.named parent = true).
      { destruct (ViewNamespaceRegistrationTransaction.parentId tx) as [parentHex|];
          [|discriminate].
        symmetry in Hparent. apply find_some in Hparent. destruct Hparent as [_ Hparent].
        apply andb_prop in Hparent. exact (proj2 Hparent). }
      unfold ViewNamespaceRegistrationTransaction.named in Hnamed.
      destruct (ViewNamespaceRegistrationTransaction.name parent) as [s0|]; [|discriminate].
      simpl. view_lookup. reflexivity.
    + simpl. view_lookup. reflexivity.
Qed.

Lemma registration_transaction_displayed_witness :
  (ViewNamespaceRegistrationTransaction.parentId SampleView.subTransaction = None ->
   ViewNamespaceRegistrationTransaction.namespaces SampleView.collaborators = []) /\
  ViewNamespaceRegistrationTransaction.resolveDetailItems SampleView.collaborators
    (ViewNamespaceRegistrationTransaction.use SampleView.collaborators
       SampleView.subTransaction SampleView.emptyView).2 =
  Normal
    [ {| ViewNamespaceRegistrationTransaction.key := "namespace_name";
         ViewNamespaceRegistrationTransaction.value :=
           Some (ViewNamespaceRegistrationTransaction.Text "xym") |};
      {| ViewNamespaceRegistrationTransaction.key := "parent_namespace";
         ViewNamespaceRegistrationTransaction.value :=
           Some (ViewNamespaceRegistrationTransaction.Text "symbol") |} ].
Proof.
  exact (registration_transaction_displayed SampleView.collaborators
           SampleView.subTransaction SampleView.emptyView
           (ViewNamespaceRegistrationTransaction.use SampleView.collaborators
              SampleView.subTransaction SampleView.emptyView).2
           {| ViewNamespaceRegistrationTransaction.blockGenerationTargetTime := 15 |}
           eq_refl eq_refl).
Defined.

(** * Leaving the session *)

(** X30. [uninitialize] does all of its work or none of it on the
    state: either it is fulfilled, the entry sets of the address are unset,
    the reset of the transactions has been dispatched and the session is no
    longer initialized; or closing a handle failed, it is rejected with that
    error, the error of the last close call made, the state is as it was,
    session flag included, and the trace has only gained close calls: the
    transactions are not reset. *)
Theorem uninitialize_all_or_nothing (env : Env) (address : string) (w : World) :
  (exists w',
     actions.uninitialize env address w = (Fulfilled tt, w') /\
     initialized (state w') = false /\
     subscriptions (state w') = unsubscribed (subscriptions (state w)) address /\
     Dispatched "transaction/RESET_TRANSACTIONS" [] ∈ trace w') \/
  (exists e done,
     actions.uninitialize env address w = (Rejected e, appendTrace done w) /\
     done `sublist_of` closeCalls (default [] (subscriptions (state w) !! address)) /\
     exists ev h, last done = Some ev /\ closedHandle ev = Some h /\ closeHandle env h = Throw e).
Proof.
  unfold actions.uninitialize, actions.Lock_uninitialize.
  destruct (UNSUBSCRIBE_settles env address w) as [(w1 & Hrun)|(e & done & Hrun & Hsub)].
  - left. unfold bind at 1. rewrite Hrun.
    destruct (UNSUBSCRIBE_fulfilled env address w w1 tt Hrun) as [Hregistry _].
    eexists. split; [reflexivity|]. simpl.
    split; [destruct (state w1); reflexivity|].
    split; [rewrite <- Hregistry; destruct (state w1); reflexivity|].
    apply elem_of_app. left. apply elem_of_app. right. constructor.
  - right. exists e, done. unfold bind at 1. rewrite Hrun. split; [reflexivity|exact Hsub].
Qed.
